(** * Onboarding AI Assistant: retry-guarded remote calls and their fallbacks

    A shallow embedding of the agent-call facades ([pages/chat_agent.py],
    [voice_agent.py], [agents/orchestrator.py], [utils/aws_helper.py]), of
    the progress tracker ([features/progress_tracker.py]), of the mail
    sender ([features/email_automation.py]) and of the slot search of the
    interview scheduler lambda, followed by the properties of the
    specification that concern them.

    Python values are modelled by [Py.value], dictionaries by stdpp's
    [gmap] over their (literal) keys, exceptions by an explicit outcome
    type, and the remote services by a recorded trace of effects together
    with a description of how the service answers its n-th call. *)

From Stdlib Require Import ZArith NArith Lia.
From Stdlib.Strings Require Import Byte.
From stdpp Require Import base option list gmap strings sorting.

Local Open Scope Z_scope.
Local Set Warnings "-register-all".

(* ------------------------------------------------------------------ *)
(** ** Python data *)

Module Py.

(** A Python [str] is a sequence of Unicode code points. *)
Definition str : Type := list N.

(** A string literal of the source (all literals modelled are ASCII). *)
Definition lit (s : string) : str :=
  (fun a => Ascii.N_of_ascii a) <$> String.list_ascii_of_string s.

Definition str_eqb (a b : str) : bool := bool_decide (a = b).

(** [needle in haystack] for two strings: substring search. *)
Fixpoint is_prefix (p s : str) : bool :=
  match p, s with
  | [], _ => true
  | _ :: _, [] => false
  | x :: p', y :: s' => (x =? y)%N && is_prefix p' s'
  end.

Fixpoint is_substring (p s : str) : bool :=
  is_prefix p s ||
  match s with
  | [] => false
  | _ :: s' => is_substring p s'
  end.

(** The values found in the records of this program. *)
Inductive value : Type :=
| VNone
| VBool (b : bool)
| VInt (z : Z)
| VStr (s : str)
| VList (l : list value)
| VDict (d : gmap string value).

(** A [dict] with string keys. *)
Abbreviation dict := (gmap string value).

(** Exceptions.  The handlers of the program tell one class apart,
    [InternalServerException] of the agent runtime client; every other
    class derived from [Exception] is [OtherException] with its class
    name.  [exn_msg] is what [str(e)] gives. *)
Inductive exn_class : Type :=
| InternalServerException
| OtherException (name : string).

Record exn : Type := Exn { exn_cls : exn_class; exn_msg : str }.

Definition is_internal_server (e : exn) : bool :=
  match exn_cls e with
  | InternalServerException => true
  | OtherException _ => false
  end.

(** What a call does: return a value or raise. *)
Inductive outcome (A : Type) : Type :=
| Ret (a : A)
| Raise (e : exn).
Arguments Ret {A} a.
Arguments Raise {A} e.

(** Truthiness, for [a or b] and [if x]. *)
Definition truthy_str (s : str) : bool :=
  match s with [] => false | _ => true end.

Definition or_str (a : option str) (b : str) : str :=
  match a with
  | Some s => if truthy_str s then s else b
  | None => b
  end.

Definition or_int (a : option Z) (b : Z) : Z :=
  match a with
  | Some z => if z =? 0 then b else z
  | None => b
  end.

(** [range(n)]: empty for [n <= 0]. *)
Definition range (n : Z) : list Z := seqZ 0 n.

(** [x == v] for a string [x]. *)
Definition elem_is (x : str) (v : value) : bool :=
  match v with
  | VStr s => str_eqb x s
  | _ => false
  end.

Definition type_error (what : string) : exn :=
  Exn (OtherException "TypeError") (lit what).

(** [x in v] for a string [x]: membership in a list, substring of a
    string, key of a dict, [TypeError] on anything else. *)
Definition contains (x : str) (v : value) : outcome bool :=
  match v with
  | VList l => Ret (existsb (elem_is x) l)
  | VStr s => Ret (is_substring x s)
  | VDict d => Ret (existsb (fun kv => str_eqb x (lit kv.1)) (map_to_list d))
  | _ => Raise (type_error "argument is not iterable")
  end.

(** [d.get(k, dflt)] *)
Definition get (d : dict) (k : string) (dflt : value) : value :=
  default dflt (d !! k).

Definition attribute_error (what : string) : exn :=
  Exn (OtherException "AttributeError") (lit what).

(** [len(v)] *)
Definition len (v : value) : outcome Z :=
  match v with
  | VStr s => Ret (Z.of_nat (length s))
  | VList l => Ret (Z.of_nat (length l))
  | VDict d => Ret (Z.of_nat (size d))
  | _ => Raise (type_error "object has no len()")
  end.

(** [v.append(x)]: only a list has it. *)
Definition append (v : value) (x : str) : outcome value :=
  match v with
  | VList l => Ret (VList (l ++ [VStr x]))
  | _ => Raise (attribute_error "object has no attribute 'append'")
  end.

(** [v += n] for an integer [n] ([bool] counts as [int]). *)
Definition iadd_int (v : value) (n : Z) : outcome value :=
  match v with
  | VInt z => Ret (VInt (z + n))
  | VBool b => Ret (VInt ((if b then 1 else 0) + n))
  | _ => Raise (type_error "unsupported operand type(s) for +=")
  end.

(** [l.remove(x)]: drops the first element equal to [x]. *)
Fixpoint remove_first (x : str) (l : list value) : list value :=
  match l with
  | [] => []
  | v :: l' => if elem_is x v then l' else v :: remove_first x l'
  end.

(** [v.remove(x)], called only after [x in v] held. *)
Definition remove (v : value) (x : str) : outcome value :=
  match v with
  | VList l => Ret (VList (remove_first x l))
  | _ => Raise (attribute_error "object has no attribute 'remove'")
  end.

(** A number as Python compares it ([bool] counts as [int]). *)
Definition as_int (v : value) : option Z :=
  match v with
  | VInt z => Some z
  | VBool b => Some (if b then 1 else 0)
  | _ => None
  end.

(** [v < n], [v >= n] and [v == n] for an integer [n]: the ordering
    raises [TypeError] on what is not a number, the equality is
    [False] there. *)
Definition lt_int (v : value) (n : Z) : outcome bool :=
  match as_int v with
  | Some z => Ret (z <? n)
  | None => Raise (type_error "'<' not supported between instances")
  end.

Definition ge_int (v : value) (n : Z) : outcome bool :=
  match as_int v with
  | Some z => Ret (n <=? z)
  | None => Raise (type_error "'>=' not supported between instances")
  end.

Definition eq_int (v : value) (n : Z) : bool :=
  match as_int v with
  | Some z => z =? n
  | None => false
  end.

(** Truth value of a value, for [if v] and [not v]. *)
Definition truthy (v : value) : bool :=
  match v with
  | VNone => false
  | VBool b => b
  | VInt z => negb (z =? 0)
  | VStr s => truthy_str s
  | VList l => match l with [] => false | _ => true end
  | VDict d => negb (bool_decide (size d = 0%nat))
  end.

Definition key_error (key : string) : exn :=
  Exn (OtherException "KeyError") (lit "'" ++ lit key ++ lit "'").

(** [d[k]] *)
Definition item (d : dict) (k : string) : outcome value :=
  match d !! k with
  | Some v => Ret v
  | None => Raise (key_error k)
  end.

End Py.

(* ------------------------------------------------------------------ *)
(** ** [bytes.decode('utf-8')] *)

Module Utf8.

Definition between (lo hi b : N) : bool := ((lo <=? b) && (b <=? hi))%N.

(** A continuation byte, [10xxxxxx]. *)
Definition cont (b : N) : bool := between 128 191 b.

Definition low6 (b : N) : N := N.land b 63.

(** Strict decoding of a byte sequence: [None] is [UnicodeDecodeError]
    (a truncated or overlong sequence, a surrogate, a value above
    U+10FFFF, a stray continuation byte). *)
Fixpoint decode_N (bs : list N) : option Py.str :=
  match bs with
  | [] => Some []
  | b0 :: r0 =>
    if (b0 <? 128)%N then cons b0 <$> decode_N r0
    else if between 194 223 b0 then
      match r0 with
      | b1 :: r1 =>
        if cont b1
        then cons (N.shiftl (N.land b0 31) 6 + low6 b1)%N <$> decode_N r1
        else None
      | _ => None
      end
    else if between 224 239 b0 then
      match r0 with
      | b1 :: b2 :: r2 =>
        if between (if (b0 =? 224)%N then 160 else 128)
                   (if (b0 =? 237)%N then 159 else 191) b1 && cont b2
        then cons (N.shiftl (N.land b0 15) 12
                   + N.shiftl (low6 b1) 6 + low6 b2)%N <$> decode_N r2
        else None
      | _ => None
      end
    else if between 240 244 b0 then
      match r0 with
      | b1 :: b2 :: b3 :: r3 =>
        if between (if (b0 =? 240)%N then 144 else 128)
                   (if (b0 =? 244)%N then 143 else 191) b1
           && cont b2 && cont b3
        then cons (N.shiftl (N.land b0 7) 18 + N.shiftl (low6 b1) 12
                   + N.shiftl (low6 b2) 6 + low6 b3)%N <$> decode_N r3
        else None
      | _ => None
      end
    else None
  end.

Definition decode (bs : list byte) : option Py.str :=
  decode_N (Byte.to_N <$> bs).

Definition decode_error : Py.exn :=
  Py.Exn (Py.OtherException "UnicodeDecodeError")
         (Py.lit "'utf-8' codec can't decode bytes").

End Utf8.

(* ------------------------------------------------------------------ *)
(** ** Effects: a state and exception monad *)

Module Eff.

(** A computation over a world [S] that returns or raises; the effects
    done before an exception stay done. *)
Definition M (S A : Type) : Type := S -> Py.outcome A * S.

Definition ret {S A} (a : A) : M S A := fun s => (Py.Ret a, s).

Definition raise {S A} (e : Py.exn) : M S A := fun s => (Py.Raise e, s).

Definition lift {S A} (o : Py.outcome A) : M S A := fun s => (o, s).

Definition bind {S A B} (m : M S A) (k : A -> M S B) : M S B :=
  fun s =>
    match m s with
    | (Py.Ret a, s') => k a s'
    | (Py.Raise e, s') => (Py.Raise e, s')
    end.

(** [try: m  except Exception as e: h e]; a handler for one class
    re-raises the others. *)
Definition try_except {S A} (m : M S A) (h : Py.exn -> M S A) : M S A :=
  fun s =>
    match m s with
    | (Py.Ret a, s') => (Py.Ret a, s')
    | (Py.Raise e, s') => h e s'
    end.

(** [for x in xs: body] inside a function: the body answers [Some v] when
    it executes [return v] and [None] when it falls through to the next
    round; the loop answers [None] when it runs out. *)
Fixpoint for_each {S A R} (xs : list A) (body : A -> M S (option R))
  : M S (option R) :=
  match xs with
  | [] => ret None
  | x :: xs' =>
    bind (body x) (fun r =>
      match r with
      | Some v => ret (Some v)
      | None => for_each xs' body
      end)
  end.

End Eff.

Notation "x <- m ;; k" := (Eff.bind m (fun x => k))
  (at level 20, m at level 99, k at level 200, only parsing).
Notation "m ;; k" := (Eff.bind m (fun _ => k))
  (at level 100, k at level 200, only parsing, right associativity).

(* ------------------------------------------------------------------ *)
(** ** The agent runtime and the four retry loops around it *)

Module Bedrock.

Import Py Eff.

Record request : Type := Request {
  agentId : str;
  agentAliasId : str;
  sessionId : str;
  inputText : str
}.

(** One event of [response['completion']]: a chunk with its bytes, or an
    event under another key (a trace, a file, a control return). *)
Inductive event : Type :=
| EvChunk (bytes : list byte)
| EvOther (key : string).

(** The event stream of a response: the events it yields and, when the
    stream breaks after them, the exception it raises. *)
Record completion : Type := Completion {
  events : list event;
  stream_error : option exn
}.

(** What the loops do to the outside world. *)
Inductive effect : Type :=
| Invoked (r : request)
| Slept (d : Z).

Definition is_invoked (e : effect) : bool :=
  match e with Invoked _ => true | Slept _ => false end.

Definition is_slept (e : effect) : bool :=
  match e with Invoked _ => false | Slept _ => true end.

(** The world: the page's [st.session_state.session_id] and the effects
    so far, oldest first. *)
Record world : Type := World {
  session_id : option str;
  trace : list effect
}.

Definition invocations (w : world) : nat :=
  length (filter (fun e => is_invoked e = true) (trace w)).

Definition sleeps (w : world) : nat :=
  length (filter (fun e => is_slept e = true) (trace w)).

Definition record (e : effect) (w : world) : world :=
  World (session_id w) (trace w ++ [e]).

(** How the service answers: its n-th call (from 0), on that request. *)
Definition service : Type := nat -> request -> outcome completion.

(** [client.invoke_agent(...)]. *)
Definition invoke_agent (svc : service) (r : request) : M world completion :=
  fun w => (svc (invocations w) r, record (Invoked r) w).

(** [time.sleep(d)]: [ValueError] on a negative length. *)
Definition sleep (d : Z) : M world unit :=
  fun w =>
    if d <? 0
    then (Raise (Exn (OtherException "ValueError")
                     (lit "sleep length must be non-negative")), w)
    else (Ret tt, record (Slept d) w).

(** The inner loop:
<<
    response_text = ""
    for event in response['completion']:
        if 'chunk' in event:
            response_text += event['chunk']['bytes'].decode('utf-8')
>> *)
Fixpoint read_events (evs : list event) (response_text : str) : outcome str :=
  match evs with
  | [] => Ret response_text
  | EvChunk bytes :: rest =>
    match Utf8.decode bytes with
    | Some s => read_events rest (response_text ++ s)
    | None => Raise Utf8.decode_error
    end
  | EvOther _ :: rest => read_events rest response_text
  end.

Definition read_completion (c : completion) : outcome str :=
  match read_events (events c) [] with
  | Ret text =>
    match stream_error c with
    | Some e => Raise e
    | None => Ret text
    end
  | Raise e => Raise e
  end.

(** The constants of [config] the loops read.  [API_RETRY_COUNT] and
    [API_RETRY_DELAY] are read by [aws_helper.py] and [orchestrator.py]
    and not declared in [config.py]: they are fields to be supplied. *)
Record config : Type := Config {
  AGENT_ID : str;
  AGENT_ALIAS_ID : str;
  API_RETRY_COUNT : Z;
  API_RETRY_DELAY : Z
}.

(** One round of the retry loop as [aws_helper.py] and [orchestrator.py]
    both write it, with their three result dictionaries left open: the
    [try] body, the handler of [InternalServerException] and the handler
    of [Exception]. *)
Definition guarded_attempt {R} (svc : service) (r : request)
    (retries delay : Z) (ok : str -> R) (exhausted : R) (failed : exn -> R)
    (attempt : Z) : M world (option R) :=
  try_except
    (response <- invoke_agent svc r ;;
     response_text <- lift (read_completion response) ;;
     ret (Some (ok response_text)))
    (fun e =>
       if is_internal_server e then
         if attempt <? retries - 1
         then sleep delay ;; ret None
         else ret (Some exhausted)
       else ret (Some (failed e))).

(** [st.session_state.session_id], an [AttributeError] when unset. *)
Definition read_session_id : M world str :=
  fun w =>
    match session_id w with
    | Some sid => (Ret sid, w)
    | None => (Raise (Exn (OtherException "AttributeError")
                          (lit "st.session_state has no attribute session_id")), w)
    end.

(** [if "session_id" not in st.session_state:
       st.session_state.session_id = str(uuid.uuid4())],
    where [fresh] is what [uuid.uuid4()] draws. *)
Definition ensure_session_id (fresh : str) : M world unit :=
  fun w =>
    match session_id w with
    | Some _ => (Ret tt, w)
    | None => (Ret tt, World (Some fresh) (trace w))
    end.

End Bedrock.

(** [pages/chat_agent.py] *)
Module ChatAgent.

Import Py Eff Bedrock.

Definition agent_id : str := lit "MDY3JVJV6Q".
Definition agent_alias_id : str := lit "DKHOVNKW92".

Definition unavailable : str :=
  lit "Sorry, the service is temporarily unavailable. Please try again later.".

(** [ask_agent(agent_id, agent_alias_id, question, retries=3, delay=5)];
    [None] is the [None] of a function that ends without [return]. *)
Definition ask_agent (svc : service) (fresh : str)
    (agent_id agent_alias_id question : str) (retries delay : Z)
  : M world (option str) :=
  ensure_session_id fresh ;;
  for_each (range retries) (fun attempt =>
    try_except
      (sid <- read_session_id ;;
       response <- invoke_agent svc
                     (Request agent_id agent_alias_id sid question) ;;
       response_text <- lift (read_completion response) ;;
       ret (Some response_text))
      (fun e =>
         if is_internal_server e then
           if attempt <? retries - 1
           then sleep delay ;; ret None
           else ret (Some unavailable)
         else raise e)).

End ChatAgent.

(** [voice_agent.py] *)
Module VoiceAgent.

Import Py Eff Bedrock.

Definition agent_id : str := lit "MDY3JVJV6Q".
Definition agent_alias_id : str := lit "DKHOVNKW92".

Definition unavailable : str :=
  lit "Sorry, the service is temporarily unavailable. Please try again later.".

(** [ask_agent(question, retries=3, delay=5)] *)
Definition ask_agent (svc : service) (question : str) (retries delay : Z)
  : M world (option str) :=
  for_each (range retries) (fun attempt =>
    try_except
      (sid <- read_session_id ;;
       response <- invoke_agent svc
                     (Request agent_id agent_alias_id sid question) ;;
       response_text <- lift (read_completion response) ;;
       ret (Some response_text))
      (fun e =>
         if is_internal_server e then
           if attempt <? retries - 1
           then sleep delay ;; ret None
           else ret (Some unavailable)
         else raise e)).

End VoiceAgent.

(** [utils/aws_helper.py], class [AWSHelper] (its agent client taken as
    constructed). *)
Module AWSHelper.

Import Py Eff Bedrock.

Definition success_result (response_text session_id : str) : dict :=
  list_to_map [("success", VBool true);
               ("response", VStr response_text);
               ("session_id", VStr session_id)].

Definition unavailable_result : dict :=
  list_to_map [("success", VBool false);
               ("error", VStr (lit "Service temporarily unavailable"));
               ("response",
                VStr (lit "Sorry, I am temporarily unavailable. Please try again."))].

Definition error_result (e : exn) : dict :=
  list_to_map [("success", VBool false);
               ("error", VStr (exn_msg e));
               ("response", VStr (lit "Error: " ++ exn_msg e))].

(** [invoke_bedrock_agent(self, question, session_id, agent_id=None,
    agent_alias_id=None)] *)
Definition invoke_bedrock_agent (cfg : config) (svc : service)
    (question session_id : str) (agent_id agent_alias_id : option str)
  : M world (option dict) :=
  let agent_id := or_str agent_id (AGENT_ID cfg) in
  let agent_alias_id := or_str agent_alias_id (AGENT_ALIAS_ID cfg) in
  for_each (range (API_RETRY_COUNT cfg)) (fun attempt =>
    try_except
      (response <- invoke_agent svc
                     (Request agent_id agent_alias_id session_id question) ;;
       response_text <- lift (read_completion response) ;;
       ret (Some (success_result response_text session_id)))
      (fun e =>
         if is_internal_server e then
           if attempt <? API_RETRY_COUNT cfg - 1
           then sleep (API_RETRY_DELAY cfg) ;; ret None
           else ret (Some unavailable_result)
         else ret (Some (error_result e)))).

End AWSHelper.

(** [agents/orchestrator.py], class [OrchestratorAgent] *)
Module Orchestrator.

Import Py Eff Bedrock.

Definition success_result (response_text session_id : str) : dict :=
  list_to_map [("success", VBool true);
               ("response", VStr response_text);
               ("session_id", VStr session_id)].

Definition unavailable_result : dict :=
  list_to_map [("success", VBool false);
               ("error", VStr (lit "Service temporarily unavailable"));
               ("response",
                VStr (lit "Sorry, I am temporarily unavailable. Please try again later."))].

Definition error_result (e : exn) : dict :=
  list_to_map [("success", VBool false);
               ("error", VStr (exn_msg e));
               ("response", VStr (lit "An error occurred: " ++ exn_msg e))].

(** [ask_agent(self, question, session_id, retries=None)] *)
Definition ask_agent (cfg : config) (svc : service)
    (question session_id : str) (retries : option Z)
  : M world (option dict) :=
  let retries := or_int retries (API_RETRY_COUNT cfg) in
  let delay := API_RETRY_DELAY cfg in
  for_each (range retries) (fun attempt =>
    try_except
      (response <- invoke_agent svc
                     (Request (AGENT_ID cfg) (AGENT_ALIAS_ID cfg)
                              session_id question) ;;
       response_text <- lift (read_completion response) ;;
       ret (Some (success_result response_text session_id)))
      (fun e =>
         if is_internal_server e then
           if attempt <? retries - 1
           then sleep delay ;; ret None
           else ret (Some unavailable_result)
         else ret (Some (error_result e)))).

(** [get_personalized_response(self, question, user_profile,
    session_id)]; the fields of the profile are strings, as the
    application builds it. *)
Definition get_personalized_response (cfg : config) (svc : service)
    (question : str) (user_profile : gmap string str) (session_id : str)
  : M world (option dict) :=
  let context :=
    lit "User Role: " ++ default (lit "Unknown") (user_profile !! "role")
    ++ lit ". " in
  let context :=
    context ++ (lit "Department: "
                ++ default (lit "Unknown") (user_profile !! "department")
                ++ lit ". ") in
  let context := context ++ (lit "Question: " ++ question) in
  ask_agent cfg svc context session_id None.

Definition routing_prompts (question : str) : gmap str str :=
  list_to_map
    [(lit "learning_path",
      lit "Create a personalized learning path. " ++ question);
     (lit "assessment",
      lit "Provide skills assessment guidance. " ++ question);
     (lit "content",
      lit "Find and recommend relevant content. " ++ question);
     (lit "progress",
      lit "Analyze and report on progress. " ++ question)].

(** [route_to_specialist(self, query_type, question, session_id)] *)
Definition route_to_specialist (cfg : config) (svc : service)
    (query_type question session_id : str) : M world (option dict) :=
  let enhanced_question :=
    default question (routing_prompts question !! query_type) in
  ask_agent cfg svc enhanced_question session_id None.

End Orchestrator.

(* ------------------------------------------------------------------ *)
(** ** [features/progress_tracker.py] *)

Module ProgressTracker.

Import Py Eff.

(** The calls the tracker makes on its DynamoDB table. *)
Inductive call : Type :=
| GetItem (user_id : str)
| PutItem (item : dict).

Definition is_put (c : call) : bool :=
  match c with PutItem _ => true | GetItem _ => false end.

(** The world of the tracker: the table's items by primary key
    [user_id], the failure (if any) of the n-th call on the table, the
    calls made so far, what was printed, and the day the clock shows. *)
Record world : Type := World {
  items : gmap str dict;
  faults : nat -> option exn;
  calls : list call;
  stdout : list str;
  today : Z
}.

Definition logged (c : call) (w : world) : world :=
  World (items w) (faults w) (calls w ++ [c]) (stdout w) (today w).

(** The writes among the calls made. *)
Definition puts (w : world) : list call :=
  filter (fun c => is_put c = true) (calls w).

(** [table.get_item(Key={'user_id': user_id})]; the answer has an
    ['Item'] exactly when the key is stored. *)
Definition get_item (user_id : str) : M world (option dict) :=
  fun w =>
    match faults w (length (calls w)) with
    | Some e => (Raise e, logged (GetItem user_id) w)
    | None => (Ret (items w !! user_id), logged (GetItem user_id) w)
    end.

(** [table.put_item(Item=item)]; an item without a string [user_id] is
    refused by the table. *)
Definition put_item (item : dict) : M world unit :=
  fun w =>
    match faults w (length (calls w)) with
    | Some e => (Raise e, logged (PutItem item) w)
    | None =>
      match item !! "user_id" with
      | Some (VStr k) =>
        (Ret tt, World (<[k := item]> (items w)) (faults w)
                       (calls w ++ [PutItem item]) (stdout w) (today w))
      | _ =>
        (Raise (Exn (OtherException "ValidationException")
                    (lit "One of the required keys was not given a value")),
         logged (PutItem item) w)
      end
    end.

Definition print (line : str) : M world unit :=
  fun w => (Ret tt, World (items w) (faults w) (calls w)
                          (stdout w ++ [line]) (today w)).

Definition clock : M world Z := fun w => (Ret (today w), w).

(** The tracker object: [self.dynamodb] and [self.table], [None] or a
    handle (the name of the resource). *)
Record tracker : Type := Tracker {
  dynamodb : option str;
  table : option str
}.

(** [__init__(self)]: [flag] is [config.ENABLE_PROGRESS_TRACKING],
    [resource] what [boto3.resource('dynamodb', ...)] does and [tbl] what
    [self.dynamodb.Table(...)] does. *)
Definition __init__ (flag : bool) (resource tbl : outcome str)
  : M world tracker :=
  if flag then
    match resource with
    | Ret db =>
      match tbl with
      | Ret t => ret (Tracker (Some db) (Some t))
      | Raise _ =>
        print (lit "Progress tracking table not available") ;;
        ret (Tracker (Some db) None)
      end
    | Raise _ =>
      print (lit "Progress tracking table not available") ;;
      ret (Tracker None None)
    end
  else ret (Tracker None None).

Section Library.

(** Library functions taken as given: [str(d)] of a date, the parsing
    done by [datetime.strptime(s, '%Y-%m-%d')] ([None]: [ValueError]) and
    the floating-point [int((a / b) * 100)]. *)
Variable date_str : Z -> str.
Variable strptime : str -> option Z.
Variable float_percent : Z -> Z -> Z.

(** [_get_mock_progress(self, user_id)] *)
Definition _get_mock_progress (user_id : str) : M world dict :=
  now <- clock ;;
  ret (list_to_map
         [("user_id", VStr user_id);
          ("overall_progress", VInt 45);
          ("completed_modules",
           VList [VStr (lit "Company Culture"); VStr (lit "IT Systems Setup")]);
          ("in_progress_modules", VList [VStr (lit "Role-Specific Training")]);
          ("upcoming_modules",
           VList [VStr (lit "Team Collaboration"); VStr (lit "Advanced Skills")]);
          ("assessments_completed", VInt 2);
          ("vr_experiences_completed", VInt 1);
          ("learning_streak_days", VInt 12);
          ("last_activity_date", VStr (date_str now));
          ("total_learning_time_minutes", VInt 180)]).

(** [initialize_progress(self, user_id, user_profile)] *)
Definition initialize_progress (self : tracker) (user_id : str)
    (user_profile : dict) : M world dict :=
  now <- clock ;;
  let initial_progress : dict :=
    list_to_map
      [("user_id", VStr user_id);
       ("role", get user_profile "role" (VStr (lit "Unknown")));
       ("department", get user_profile "department" (VStr (lit "Unknown")));
       ("start_date", VStr (date_str now));
       ("overall_progress", VInt 0);
       ("completed_modules", VList []);
       ("in_progress_modules", VList []);
       ("upcoming_modules", VList []);
       ("assessments_completed", VInt 0);
       ("vr_experiences_completed", VInt 0);
       ("learning_streak_days", VInt 0);
       ("last_activity_date", VStr (date_str now));
       ("milestones_achieved", VList []);
       ("total_learning_time_minutes", VInt 0)] in
  match table self with
  | Some _ =>
    try_except
      (put_item initial_progress)
      (fun e => print (lit "Error initializing progress: " ++ exn_msg e))
  | None => ret tt
  end ;;
  ret initial_progress.

(** [get_progress(self, user_id)] *)
Definition get_progress (self : tracker) (user_id : str) : M world dict :=
  match table self with
  | None => _get_mock_progress user_id
  | Some _ =>
    try_except
      (response <- get_item user_id ;;
       match response with
       | Some item => ret item
       | None => _get_mock_progress user_id
       end)
      (fun e =>
         print (lit "Error getting progress: " ++ exn_msg e) ;;
         _get_mock_progress user_id)
  end.

(** [_calculate_streak(self, last_activity_date)]; the bare [except]
    answers 0 for whatever cannot be parsed. *)
Definition _calculate_streak (last_activity_date : value) : M world Z :=
  match last_activity_date with
  | VStr s =>
    match strptime s with
    | Some last_date =>
      now <- clock ;;
      let diff := now - last_date in
      if diff =? 0 then ret 1
      else if diff =? 1 then ret 1
      else ret 0
    | None => ret 0
    end
  | _ => ret 0
  end.

(** [update_progress(self, user_id, update_data)] *)
Definition update_progress (self : tracker) (user_id : str)
    (update_data : dict) : M world dict :=
  match table self with
  | None =>
    ret (list_to_map
           [("success", VBool false);
            ("message", VStr (lit "Progress tracking not available"))])
  | Some _ =>
    try_except
      (response <- get_item user_id ;;
       match response with
       | None =>
         ret (list_to_map
                [("success", VBool false);
                 ("message", VStr (lit "User progress not found"))])
       | Some current_progress =>
         let current_progress : dict := update_data ∪ current_progress in
         now <- clock ;;
         let current_progress : dict :=
           <["last_activity_date" := VStr (date_str now)]> current_progress in
         streak <- _calculate_streak
                     (get current_progress "last_activity_date" VNone) ;;
         let current_progress : dict :=
           <["learning_streak_days" := VInt streak]> current_progress in
         put_item current_progress ;;
         ret (list_to_map
                [("success", VBool true);
                 ("progress", VDict current_progress)])
       end)
      (fun e =>
         ret (list_to_map
                [("success", VBool false);
                 ("error", VStr (exn_msg e))]))
  end.

Definition already_completed : dict :=
  list_to_map [("success", VBool true);
               ("message", VStr (lit "Module already completed"))].

(** [complete_module(self, user_id, module_name, time_spent_minutes)] *)
Definition complete_module (self : tracker) (user_id module_name : str)
    (time_spent_minutes : Z) : M world dict :=
  progress <- get_progress self user_id ;;
  listed <- lift (contains module_name
                    (get progress "completed_modules" (VList []))) ;;
  if negb listed then
    completed <- lift (append (get progress "completed_modules" (VList []))
                              module_name) ;;
    let in_progress := get progress "in_progress_modules" (VList []) in
    present <- lift (contains module_name in_progress) ;;
    in_progress <- lift (if present then remove in_progress module_name
                         else Ret in_progress) ;;
    total_time <- lift (iadd_int
                          (get progress "total_learning_time_minutes" (VInt 0))
                          time_spent_minutes) ;;
    n_completed <- lift (len completed) ;;
    n_in_progress <- lift (len in_progress) ;;
    n_upcoming <- lift (len (get progress "upcoming_modules" (VList []))) ;;
    let total_modules := n_completed + n_in_progress + n_upcoming in
    let overall_progress :=
      if 0 <? total_modules then float_percent n_completed total_modules
      else 0 in
    let update_data : dict :=
      list_to_map [("completed_modules", completed);
                   ("in_progress_modules", in_progress);
                   ("total_learning_time_minutes", total_time);
                   ("overall_progress", VInt overall_progress)] in
    update_progress self user_id update_data
  else ret already_completed.

End Library.

Definition recommendation (type message action : string) : value :=
  VDict (list_to_map [("type", VStr (lit type));
                      ("message", VStr (lit message));
                      ("action", VStr (lit action))]).

(** [_generate_recommendations(self, progress)] *)
Definition _generate_recommendations (progress : dict) : M world (list value) :=
  let recommendations := [] in
  let completion_rate := get progress "overall_progress" (VInt 0) in
  let streak := get progress "learning_streak_days" (VInt 0) in
  low <- lift (lt_int completion_rate 30) ;;
  let recommendations :=
    if low
    then recommendations
         ++ [recommendation "encouragement"
               "Keep going! You are building great momentum."
               "Complete one more module today"]
    else recommendations in
  short <- lift (lt_int streak 3) ;;
  let recommendations :=
    if short
    then recommendations
         ++ [recommendation "engagement"
               "Build your learning streak!"
               "Try to learn something every day"]
    else recommendations in
  high <- lift (ge_int completion_rate 50) ;;
  let recommendations :=
    if high && eq_int (get progress "assessments_completed" (VInt 0)) 0
    then recommendations
         ++ [recommendation "assessment"
               "Time to test your knowledge!"
               "Take your first assessment"]
    else recommendations in
  let recommendations :=
    if eq_int (get progress "vr_experiences_completed" (VInt 0)) 0
    then recommendations
         ++ [recommendation "vr_training"
               "Try our immersive VR training!"
               "Launch your first VR experience"]
    else recommendations in
  ret recommendations.

(** The type of a recommendation. *)
Definition recommendation_type (v : value) : option str :=
  match v with
  | VDict d =>
    match d !! "type" with
    | Some (VStr t) => Some t
    | _ => None
    end
  | _ => None
  end.

(** Each stored item sits under its own [user_id]. *)
Definition keyed (w : world) : Prop :=
  forall (k : str) (item : dict),
    items w !! k = Some item -> item !! "user_id" = Some (VStr k).

(** A table that answers every call. *)
Definition reliable (w : world) : Prop := forall n, faults w n = None.


End ProgressTracker.

(* ------------------------------------------------------------------ *)
(** ** [features/email_automation.py] *)

Module EmailAutomation.

Import Py Eff.

(** The arguments of one [ses.send_email] call. *)
Record message : Type := Message {
  Source : str;
  ToAddress : str;
  Subject : str;
  Html : str
}.

(** The answer of the mail service, with its [MessageId]. *)
Record send_email_response : Type := Response { MessageId : str }.

(** The world of the sender: how the service answers its n-th call, the
    calls made and what was printed. *)
Record world : Type := World {
  ses_service : nat -> message -> outcome send_email_response;
  sent : list message;
  stdout : list str
}.

Definition send_email (m : message) : M world send_email_response :=
  fun w => (ses_service w (length (sent w)) m,
            World (ses_service w) (sent w ++ [m]) (stdout w)).

Definition print (line : str) : M world unit :=
  fun w => (Ret tt, World (ses_service w) (sent w) (stdout w ++ [line])).

(** The sender object: [self.ses] ([None] or the client) and
    [self.enabled]. *)
Record automation : Type := Automation {
  ses : option str;
  enabled : bool
}.

Definition not_enabled : dict :=
  list_to_map [("success", VBool false);
               ("message", VStr (lit "Email automation not enabled"))].

(** [_send_email(self, recipient, subject, html_body)]; [sender] is
    [config.SES_SENDER_EMAIL]. *)
Definition _send_email (sender : str) (self : automation)
    (recipient subject html_body : str) : M world dict :=
  if negb (enabled self) || negb (bool_decide (is_Some (ses self))) then
    print (lit "Email would be sent to " ++ recipient ++ lit ": " ++ subject) ;;
    ret not_enabled
  else
    try_except
      (response <- send_email (Message sender recipient subject html_body) ;;
       ret (list_to_map [("success", VBool true);
                         ("message_id", VStr (MessageId response))]))
      (fun e =>
         print (lit "Error sending email: " ++ exn_msg e) ;;
         ret (list_to_map [("success", VBool false);
                           ("error", VStr (exn_msg e))])).

End EmailAutomation.

(* ------------------------------------------------------------------ *)
(** ** [interview_scheduler/lambda_function.py]: the slot search *)

Module InterviewScheduler.

Import Py Eff.

(** A candidate slot, as [generate_preferred_times] builds them: start
    and end as instants. *)
Record time_slot : Type := TimeSlot {
  start_time : Z;
  end_time : Z
}.

(** The answer [{'slot': ..., 'participants': [...]}]. *)
Record available_slot : Type := AvailableSlot {
  slot : time_slot;
  participants : list str
}.

(** The world of the lambda, as far as the search could touch it: the
    log lines written and the reads made on the availability table. *)
Record world : Type := World {
  log : list (string * str);
  availability_reads : list str
}.

Definition logger_info (line : str) : M world unit :=
  fun w => (Ret tt, World (log w ++ [("INFO", line)]) (availability_reads w)).

Definition logger_error (line : str) : M world unit :=
  fun w => (Ret tt, World (log w ++ [("ERROR", line)]) (availability_reads w)).

(** [find_optimal_time_slot(employee_id, employee_email, employee_name,
    meeting_type, duration_minutes, preferred_times,
    required_participants)] *)
Definition find_optimal_time_slot
    (employee_id employee_email employee_name meeting_type : str)
    (duration_minutes : Z) (preferred_times : list time_slot)
    (required_participants : list str) : M world (option available_slot) :=
  try_except
    (logger_info (lit "Finding optimal slot for " ++ meeting_type) ;;
     match preferred_times with
     | first :: _ => ret (Some (AvailableSlot first []))
     | [] => ret None
     end)
    (fun e =>
       logger_error (lit "Error finding optimal time slot: " ++ exn_msg e) ;;
       ret None).

(** Instants count minutes from 1970-01-01 00:00 (the limits of
    [datetime] are not modelled): the day of an instant, its hour of
    the day ([datetime.hour]), the weekday of a day ([date.weekday()],
    Monday is 0; day 0 was a Thursday) and the instant at an hour and
    minute of a day ([date.replace(hour=, minute=, second=0,
    microsecond=0)]). *)
Definition day_of (instant : Z) : Z := instant / 1440.

Definition hour_of (instant : Z) : Z := (instant mod 1440) / 60.

Definition weekday (day : Z) : Z := (day + 3) mod 7.

Definition at_time (day hour minute : Z) : Z := day * 1440 + hour * 60 + minute.

Definition business_hours : list (Z * Z) :=
  [(9, 0); (10, 0); (11, 0); (13, 0); (14, 0); (15, 0)].

(** The days after the start that a timing asks for. *)
Definition target_offsets (timing : value) : list Z :=
  if elem_is (lit "first_day") timing then [0]
  else if elem_is (lit "first_week") timing then range 5
  else if elem_is (lit "second_week") timing then seqZ 7 5
  else range 14.

(** The loop over [business_hours] on one date. *)
Fixpoint slots_of_hours (date : Z) (duration : value) (hours : list (Z * Z))
    (preferred_times : list time_slot) : outcome (list time_slot) :=
  match hours with
  | [] => Ret preferred_times
  | (hour, minute) :: rest =>
    let start_time := at_time date hour minute in
    match as_int duration with
    | None => Raise (type_error "unsupported type for timedelta minutes component")
    | Some d =>
      let end_time := start_time + d in
      if 17 <=? hour_of end_time
      then slots_of_hours date duration rest preferred_times
      else slots_of_hours date duration rest
             (preferred_times ++ [TimeSlot start_time end_time])
    end
  end.

(** The loop over the target dates. *)
Fixpoint slots_of_dates (dates : list Z) (duration : value)
    (preferred_times : list time_slot) : outcome (list time_slot) :=
  match dates with
  | [] => Ret preferred_times
  | date :: rest =>
    if 5 <=? weekday date
    then slots_of_dates rest duration preferred_times
    else
      match slots_of_hours date duration business_hours preferred_times with
      | Ret preferred_times' => slots_of_dates rest duration preferred_times'
      | Raise e => Raise e
      end
  end.

(** [generate_preferred_times(start_date, meeting_config)] *)
Definition generate_preferred_times (start_date : Z) (meeting_config : dict)
  : outcome (list time_slot) :=
  let preferred_times := [] in
  let timing := get meeting_config "timing" (VStr (lit "first_week")) in
  let duration := get meeting_config "duration" (VInt 60) in
  let target_dates :=
    (fun i => day_of start_date + i) <$> target_offsets timing in
  slots_of_dates target_dates duration preferred_times.

Definition meeting (type title : string) (duration : Z) (timing : string)
    (participants : list string) (priority description : string) : dict :=
  list_to_map [("type", VStr (lit type));
               ("title", VStr (lit title));
               ("duration", VInt duration);
               ("timing", VStr (lit timing));
               ("participants", VList ((fun p => VStr (lit p)) <$> participants));
               ("priority", VStr (lit priority));
               ("description", VStr (lit description))].

Definition base_meetings : list dict :=
  [meeting "manager_welcome" "Welcome Meeting with Manager" 60 "first_day"
     ["direct_manager"] "high" "Initial welcome and role overview";
   meeting "hr_orientation" "HR Orientation Session" 90 "first_week"
     ["hr_representative"] "high" "Company policies, benefits, and compliance";
   meeting "buddy_introduction" "Meet Your Onboarding Buddy" 30 "first_week"
     ["onboarding_buddy"] "medium" "Social integration and peer support"].

Section Lower.

(** [str.lower], taken as given. *)
Variable lower : str -> str.

Definition any_keyword_in (keywords : list string) (role : str) : bool :=
  existsb (fun keyword => is_substring (lit keyword) (lower role)) keywords.

(** [get_required_meetings(role, department)] *)
Definition get_required_meetings (role department : str) : list dict :=
  let role_meetings :=
    if any_keyword_in ["engineer"; "developer"] role then
      [meeting "technical_architecture" "Technical Architecture Overview" 120
         "first_week" ["tech_lead"; "senior_engineer"] "high"
         "System architecture and technical standards";
       meeting "development_setup" "Development Environment Setup" 90
         "first_day" ["dev_ops_engineer"] "high"
         "Code repositories, tools, and workflow"]
    else if any_keyword_in ["sales"; "account"] role then
      [meeting "sales_process_training" "Sales Process and CRM Training" 120
         "first_week" ["sales_manager"; "sales_ops"] "high"
         "Sales methodology and system training";
       meeting "product_demo_training" "Product Demonstration Training" 90
         "second_week" ["product_specialist"] "high"
         "Product knowledge and demo skills"]
    else if any_keyword_in ["marketing"] role then
      [meeting "brand_guidelines" "Brand Guidelines and Marketing Standards" 90
         "first_week" ["brand_manager"] "high"
         "Brand voice and creative standards"]
    else [] in
  base_meetings ++ role_meetings.

End Lower.

(** The slots of one date for a duration of [d] minutes, and those of
    a list of dates: what the two loops add. *)
Definition day_slots (date d : Z) (hours : list (Z * Z)) : list time_slot :=
  omap (fun hm : Z * Z =>
          let start_time := at_time date hm.1 hm.2 in
          if 17 <=? hour_of (start_time + d) then None
          else Some (TimeSlot start_time (start_time + d)))
       hours.

Definition dates_slots (dates : list Z) (d : Z) : list time_slot :=
  concat ((fun date => if 5 <=? weekday date then []
                       else day_slots date d business_hours) <$> dates).

End InterviewScheduler.

(* ------------------------------------------------------------------ *)
(** ** The vocabulary of the specification *)

Module Spec.

Import Py Eff Bedrock.

(** What the [try] body of one attempt comes to, given how the service
    answers the call: the text read from the stream, or the exception
    raised by the call, by the stream or by the decoding. *)
Definition attempt_outcome (o : outcome completion) : outcome str :=
  match o with
  | Ret c => read_completion c
  | Raise e => Raise e
  end.

(** An attempt that fails with the transient error. *)
Definition transient_attempt (o : outcome completion) : Prop :=
  exists e, attempt_outcome o = Raise e /\ is_internal_server e = true.

(** An attempt that fails with the terminal error [e]. *)
Definition terminal_attempt (o : outcome completion) (e : exn) : Prop :=
  attempt_outcome o = Raise e /\ is_internal_server e = false.

(** The bytes of the chunks of a stream, in stream order. *)
Definition chunk_bytes (evs : list event) : list (list byte) :=
  omap (fun ev => match ev with EvChunk b => Some b | EvOther _ => None end) evs.

(** An attempt that succeeds: the call returns a stream that ends
    without an error and whose chunks decode to [texts]. *)
Definition successful_attempt (o : outcome completion) (texts : list str)
  : Prop :=
  exists c, o = Ret c /\ stream_error c = None /\
            Forall2 (fun b s => Utf8.decode b = Some s)
                    (chunk_bytes (events c)) texts.

(** The world after further effects. *)
Definition extend (w : world) (es : list effect) : world :=
  World (session_id w) (trace w ++ es).

(** [j] failed attempts, each followed by the wait. *)
Definition backoff (r : request) (d : Z) (j : nat) : list effect :=
  concat (replicate j [Invoked r; Slept d]).

(** The three results that a round of [guarded_attempt] can return. *)
Inductive answer {R} (ok : str -> R) (exhausted : R) (failed : exn -> R)
  : R -> Prop :=
| answer_ok (text : str) : answer ok exhausted failed (ok text)
| answer_exhausted : answer ok exhausted failed exhausted
| answer_failed (e : exn) :
    is_internal_server e = false -> answer ok exhausted failed (failed e).

(** The first [n] calls from world [w] on, on request [r], all fail
    with the transient error. *)
Definition all_transient (svc : service) (r : request) (w : world) (n : nat)
  : Prop :=
  forall i, (i < n)%nat -> transient_attempt (svc (invocations w + i)%nat r).

Definition is_none (v : value) : bool :=
  match v with VNone => true | _ => false end.

Definition non_null (d : dict) (k : string) : bool :=
  match d !! k with
  | Some v => negb (is_none v)
  | None => false
  end.

Definition absent (d : dict) (k : string) : bool :=
  match d !! k with
  | Some _ => false
  | None => true
  end.

(** The invariant of a call result, on a dictionary whose payload is
    under the key [payload]: success comes with a payload and no error,
    failure with an error. *)
Definition call_result_ok (payload : string) (d : dict) : bool :=
  match d !! "success" with
  | Some (VBool true) => non_null d payload && absent d "error"
  | Some (VBool false) => non_null d "error"
  | _ => false
  end.

(** The shape of the result of a call that was skipped: failure, with a
    message and no error. *)
Definition skipped_result_ok (d : dict) : bool :=
  match d !! "success" with
  | Some (VBool false) => non_null d "message" && absent d "error"
  | _ => false
  end.

(** The response text of a result hides the text of the error. *)
Definition hides_error (e : exn) (d : dict) : Prop :=
  exists text, d !! "response" = Some (VStr text) /\
               is_substring (exn_msg e) text = false.

(** The fields of a stored progress record, those that
    [initialize_progress] writes. *)
Definition progress_fields : list string :=
  ["user_id"; "role"; "department"; "start_date"; "overall_progress";
   "completed_modules"; "in_progress_modules"; "upcoming_modules";
   "assessments_completed"; "vr_experiences_completed";
   "learning_streak_days"; "last_activity_date"; "milestones_achieved";
   "total_learning_time_minutes"].

(** A record tagged as synthetic: it carries a field that stored
    progress records do not have. *)
Definition tagged_synthetic (d : dict) : Prop :=
  exists k, is_Some (d !! k) /\ k ∉ progress_fields.

(** A call that fails with an error rather than answering. *)
Definition fails_with_error {A} (o : outcome A) : Prop :=
  exists e, o = Raise e.

End Spec.

(* ------------------------------------------------------------------ *)
(** ** Concrete inputs used in the examples *)

Module Examples.

Import Py Eff Bedrock.

(** Three attempts, five seconds between them. *)
Definition cfg3 : config := Config (lit "AGENT") (lit "ALIAS") 3 5.

Definition request3 (question : str) : request :=
  Request (lit "AGENT") (lit "ALIAS") (lit "session-1") question.

Definition fresh_world : world := World None [].

Definition page_world : world := World (Some (lit "session-1")) [].

Definition internal_error : exn :=
  Exn InternalServerException (lit "internal server error").

Definition invalid_recipient : exn :=
  Exn (OtherException "ValidationException") (lit "invalid recipient").

(** A service that is down for good. *)
Definition outage : service := fun _ _ => Raise internal_error.

(** A service that refuses the request. *)
Definition refusing : service := fun _ _ => Raise invalid_recipient.

(** A service that is down once and then streams "OK" in two chunks
    around a trace event. *)
Definition recovering : service :=
  fun n _ =>
    match n with
    | O => Raise internal_error
    | _ => Ret (Completion [EvChunk [x4f]; EvOther "trace"; EvChunk [x4b]] None)
    end.

(** A mail service that accepts every message. *)
Definition accepting_mail : EmailAutomation.world :=
  EmailAutomation.World
    (fun _ _ => Ret (EmailAutomation.Response (lit "msg-0001"))) [] [].

(** A sender switched off, and one switched on whose client could not
    be built. *)
Definition disabled_sender : EmailAutomation.automation :=
  EmailAutomation.Automation None false.

Definition clientless_sender : EmailAutomation.automation :=
  EmailAutomation.Automation None true.

Definition working_sender : EmailAutomation.automation :=
  EmailAutomation.Automation (Some (lit "ses")) true.

(** The calendar on the one day the examples use, 2025-01-15 (day
    20103 of the epoch), and a percentage in exact arithmetic. *)
Definition date_str : Z -> str := fun _ => lit "2025-01-15".

Definition strptime : str -> option Z :=
  fun s => if str_eqb s (lit "2025-01-15") then Some 20103 else None.

Definition float_percent : Z -> Z -> Z := fun a b => a * 100 / b.

(** A tracker without its table, one with it, and a table that holds
    nothing. *)
Definition degraded_tracker : ProgressTracker.tracker :=
  ProgressTracker.Tracker None None.

Definition live_tracker : ProgressTracker.tracker :=
  ProgressTracker.Tracker (Some (lit "dynamodb"))
                          (Some (lit "onboarding-progress")).

Definition empty_table : ProgressTracker.world :=
  ProgressTracker.World ∅ (fun _ => None) [] [] 20103.

(** A stored record for user "u1" with module "A" in progress, and the
    table that holds it. *)
Definition stored_progress : dict :=
  list_to_map [("user_id", VStr (lit "u1"));
               ("completed_modules", VList []);
               ("in_progress_modules", VList [VStr (lit "A")]);
               ("upcoming_modules", VList [VStr (lit "B")]);
               ("total_learning_time_minutes", VInt 0)].

Definition live_table : ProgressTracker.world :=
  ProgressTracker.World {[ lit "u1" := stored_progress ]}
                        (fun _ => None) [] [] 20103.

(** Lower case for ASCII text. *)
Definition ascii_lower : str -> str :=
  fmap (fun c => if ((65 <=? c) && (c <=? 90))%N then (c + 32)%N else c).

(** Monday 2025-01-13 and Saturday 2025-01-18, at midnight. *)
Definition monday : Z := 20101 * 1440.
Definition saturday : Z := 20106 * 1440.

End Examples.

(* ------------------------------------------------------------------ *)
(** ** Speech to text: [speech_to_text] of [voice_agent.py], and
    [upload_to_s3] and [transcribe_audio] of [utils/aws_helper.py] *)

Module Transcribe.

Import Py Eff.

(** [S3_BUCKET] of [voice_agent.py] and [config.S3_BUCKET]: the same
    constant. *)
Definition S3_BUCKET : str := lit "storevoice".

(** What the code reads of an answer of [get_transcription_job]:
    [status['TranscriptionJob']['TranscriptionJobStatus']] and
    [status['TranscriptionJob']['Transcript']['TranscriptFileUri']],
    [None] where the answer has no such entry (the [KeyError] of the
    lookup is then given the last key, whichever of the two is
    missing). *)
Record job : Type := Job {
  TranscriptionJobStatus : str;
  TranscriptFileUri : option str
}.

(** What the functions do to the outside world. *)
Inductive effect : Type :=
| Connected (service : string)
| Uploaded (file_path bucket key : str)
| Started (job_name : str) (media_uri : value)
| Polled (job_name : str)
| Slept (seconds : Z)
| Fetched (url : str).

Definition is_connected (service : string) (e : effect) : bool :=
  match e with Connected s => bool_decide (s = service) | _ => false end.

Definition is_started (e : effect) : bool :=
  match e with Started _ _ => true | _ => false end.

Definition is_polled (e : effect) : bool :=
  match e with Polled _ => true | _ => false end.

Definition is_slept (e : effect) : bool :=
  match e with Slept _ => true | _ => false end.

Definition is_fetched (e : effect) : bool :=
  match e with Fetched _ => true | _ => false end.

Definition count (p : effect -> bool) (t : list effect) : nat :=
  length (filter (fun e => p e = true) t).

(** The world: the services whose client an [AWSHelper] holds in its
    [_s3], [_transcribe], ... attributes, and the effects so far, oldest
    first. *)
Record world : Type := World {
  clients : list string;
  trace : list effect
}.

Definition polls (w : world) : nat := count is_polled (trace w).

Definition record (e : effect) (w : world) : world :=
  World (clients w) (trace w ++ [e]).

(** How the outside answers: the construction of a client, an upload,
    the start of a job, the n-th status request (from 0), and
    [requests.get(url).json()['results']['transcripts'][0]['transcript']],
    which stands in one expression of the source. *)
Record services : Type := Services {
  client_answer : string -> outcome unit;
  upload_answer : str -> str -> str -> outcome unit;
  start_answer : str -> value -> outcome unit;
  job_answer : nat -> str -> outcome job;
  transcript_answer : str -> outcome str
}.

(** The outcome of a function that polls: what it returns, or that the
    rounds granted to its [while True] loop were used up with the job
    still unfinished. *)
Inductive run (A : Type) : Type :=
| Returned (a : A)
| StillPolling.
Arguments Returned {A} a.
Arguments StillPolling {A}.

Definition finished (status : job) : bool :=
  str_eqb (TranscriptionJobStatus status) (lit "COMPLETED")
  || str_eqb (TranscriptionJobStatus status) (lit "FAILED").

Definition completed (status : job) : bool :=
  str_eqb (TranscriptionJobStatus status) (lit "COMPLETED").

Definition upload_success (bucket s3_key : str) : dict :=
  list_to_map [("success", VBool true);
               ("bucket", VStr bucket);
               ("key", VStr s3_key);
               ("url", VStr (lit "s3://" ++ bucket ++ lit "/" ++ s3_key))].

Definition failure (e : exn) : dict :=
  list_to_map [("success", VBool false);
               ("error", VStr (exn_msg e))].

Definition transcript_result (transcript_text job_name : str) : dict :=
  list_to_map [("success", VBool true);
               ("transcript", VStr transcript_text);
               ("job_name", VStr job_name)].

Definition transcription_failed : dict :=
  list_to_map [("success", VBool false);
               ("error", VStr (lit "Transcription failed"))].

Section Services.

Variable svc : services.

(** [boto3.client(service)] *)
Definition boto3_client (service : string) : M world unit :=
  fun w => (client_answer svc service, record (Connected service) w).

(** The properties [self.s3] and [self.transcribe] of [AWSHelper]:
<<
    if not self._s3:
        self._s3 = boto3.client('s3', config=self.boto_config)
    return self._s3
>>
    (a client object is true). *)
Definition client (service : string) : M world unit :=
  fun w =>
    if bool_decide (service ∈ clients w) then (Ret tt, w)
    else
      match boto3_client service w with
      | (Ret _, w') => (Ret tt, World (service :: clients w') (trace w'))
      | (Raise e, w') => (Raise e, w')
      end.

(** [s3.upload_file(file_path, bucket, key)] *)
Definition upload_file (file_path bucket key : str) : M world unit :=
  fun w => (upload_answer svc file_path bucket key,
            record (Uploaded file_path bucket key) w).

(** [transcribe.start_transcription_job(TranscriptionJobName=job_name,
    Media={'MediaFileUri': media_uri}, MediaFormat='mp3',
    LanguageCode='en-US')] *)
Definition start_transcription_job (job_name : str) (media_uri : value)
  : M world unit :=
  fun w => (start_answer svc job_name media_uri,
            record (Started job_name media_uri) w).

(** [transcribe.get_transcription_job(TranscriptionJobName=job_name)] *)
Definition get_transcription_job (job_name : str) : M world job :=
  fun w => (job_answer svc (polls w) job_name, record (Polled job_name) w).

(** [time.sleep(seconds)]: [ValueError] on a negative length. *)
Definition sleep (seconds : Z) : M world unit :=
  fun w =>
    if seconds <? 0
    then (Raise (Exn (OtherException "ValueError")
                     (lit "sleep length must be non-negative")), w)
    else (Ret tt, record (Slept seconds) w).

(** The loop of both functions, where [transcribe] is the expression
    that gives the client (a local variable in [voice_agent.py], the
    property [self.transcribe] in [AWSHelper]):
<<
    while True:
        status = transcribe.get_transcription_job(TranscriptionJobName=job_name)
        if status['TranscriptionJob']['TranscriptionJobStatus'] in ['COMPLETED', 'FAILED']:
            break
        time.sleep(5)
>>
    run for at most [rounds] rounds: [StillPolling] when they are used
    up. *)
Fixpoint poll_until_finished (transcribe : M world unit) (rounds : nat)
    (job_name : str) : M world (run job) :=
  match rounds with
  | O => ret StillPolling
  | S rounds' =>
    transcribe ;;
    status <- get_transcription_job job_name ;;
    if finished status then ret (Returned status)
    else sleep 5 ;; poll_until_finished transcribe rounds' job_name
  end.

(** [transcript_url = status['TranscriptionJob']['Transcript']['TranscriptFileUri']
    transcript_json = requests.get(transcript_url).json()
    transcript_json['results']['transcripts'][0]['transcript']] *)
Definition read_transcript (status : job) : M world str :=
  transcript_url <- lift (match TranscriptFileUri status with
                          | Some url => Ret url
                          | None => Raise (key_error "TranscriptFileUri")
                          end) ;;
  fun w => (transcript_answer svc transcript_url,
            record (Fetched transcript_url) w).

(** [speech_to_text(file_path)] of [voice_agent.py], where [fresh] is
    what [uuid.uuid4()] draws; the [option] is the [None] it returns for
    a failed job. *)
Definition speech_to_text (rounds : nat) (fresh : str) (file_path : str)
  : M world (run (option str)) :=
  boto3_client "transcribe" ;;
  boto3_client "s3" ;;
  let job_name := lit "transcription-" ++ fresh in
  upload_file file_path S3_BUCKET file_path ;;
  let job_uri := lit "s3://" ++ S3_BUCKET ++ lit "/" ++ file_path in
  start_transcription_job job_name (VStr job_uri) ;;
  waited <- poll_until_finished (ret tt) rounds job_name ;;
  match waited with
  | StillPolling => ret StillPolling
  | Returned status =>
    if completed status then
      transcript <- read_transcript status ;;
      ret (Returned (Some transcript))
    else ret (Returned None)
  end.

(** [AWSHelper.upload_to_s3(self, file_path, s3_key, bucket=None)] *)
Definition upload_to_s3 (file_path s3_key : str) (bucket : option str)
  : M world dict :=
  let bucket := or_str bucket S3_BUCKET in
  try_except
    (client "s3" ;;
     upload_file file_path bucket s3_key ;;
     ret (upload_success bucket s3_key))
    (fun e => ret (failure e)).

(** [AWSHelper.transcribe_audio(self, audio_file_path, job_name=None)] *)
Definition transcribe_audio (rounds : nat) (fresh : str)
    (audio_file_path : str) (job_name : option str) : M world (run dict) :=
  let job_name := or_str job_name (lit "transcription_" ++ fresh) in
  let s3_key := lit "transcriptions/" ++ job_name ++ lit ".mp3" in
  upload_result <- upload_to_s3 audio_file_path s3_key None ;;
  success <- lift (item upload_result "success") ;;
  if negb (truthy success) then ret (Returned upload_result)
  else
    try_except
      (client "transcribe" ;;
       url <- lift (item upload_result "url") ;;
       start_transcription_job job_name url ;;
       waited <- poll_until_finished (client "transcribe") rounds job_name ;;
       match waited with
       | StillPolling => ret StillPolling
       | Returned status =>
         if completed status then
           transcript_text <- read_transcript status ;;
           ret (Returned (transcript_result transcript_text job_name))
         else ret (Returned transcription_failed)
       end)
      (fun e => ret (Returned (failure e))).

End Services.

(** *** Vocabulary of the statements *)

(** The [n]-th status request finds the job of that name unfinished. *)
Definition pending (svc : services) (job_name : str) (n : nat) : Prop :=
  exists status,
    job_answer svc n job_name = Ret status /\ finished status = false.

(** The trace of [k] rounds of the loop that find the job unfinished. *)
Definition polling (job_name : str) (k : nat) : list effect :=
  concat (replicate k [Polled job_name; Slept 5]).

(** The job name, the key and the media address [transcribe_audio]
    works with. *)
Definition audio_job (job_name : option str) (fresh : str) : str :=
  or_str job_name (lit "transcription_" ++ fresh).

Definition audio_key (job : str) : str :=
  lit "transcriptions/" ++ job ++ lit ".mp3".

Definition audio_uri (job : str) : value :=
  VStr (lit "s3://storevoice/transcriptions/" ++ job ++ lit ".mp3").

(** The clients of [service] constructed so far. *)
Definition connections (service : string) (w : world) : nat :=
  count (is_connected service) (trace w).

(** A computation that, run by a helper that holds its Transcribe
    client, constructs no client of [service] and leaves the clients
    held as they are. *)
Definition quiet {A : Type} (service : string) (m : M world A) : Prop :=
  forall w,
    "transcribe" ∈ clients w ->
    clients (m w).2 = clients w
    /\ connections service (m w).2 = connections service w.

(** The two shapes of a result dictionary. *)
Definition result_ok (d : dict) : Prop :=
  (d !! "success" = Some (VBool true)
   /\ exists text, d !! "transcript" = Some (VStr text))
  \/ (d !! "success" = Some (VBool false)
      /\ exists msg, d !! "error" = Some (VStr msg)).

End Transcribe.

(** Inputs of the examples of the speech-to-text functions. *)
Module TranscribeExamples.

Import Py Transcribe.

(** A transcription service whose job is in progress at the first two
    status requests and completed from the third. *)
Definition transcriber : services :=
  Services
    (fun _ => Ret tt)
    (fun _ _ _ => Ret tt)
    (fun _ _ => Ret tt)
    (fun n _ =>
       Ret (if (n <? 2)%nat
            then Job (lit "IN_PROGRESS") None
            else Job (lit "COMPLETED") (Some (lit "https://transcripts/1.json"))))
    (fun _ => Ret (lit "hello")).

(** One whose job has failed at the second status request. *)
Definition failing_transcriber : services :=
  Services
    (fun _ => Ret tt)
    (fun _ _ _ => Ret tt)
    (fun _ _ => Ret tt)
    (fun n _ =>
       Ret (if (n <? 1)%nat
            then Job (lit "IN_PROGRESS") None
            else Job (lit "FAILED") None))
    (fun _ => Ret (lit "hello")).

(** One whose job stays queued. *)
Definition stuck_transcriber : services :=
  Services
    (fun _ => Ret tt)
    (fun _ _ _ => Ret tt)
    (fun _ _ => Ret tt)
    (fun _ _ => Ret (Job (lit "QUEUED") None))
    (fun _ => Ret (lit "hello")).

Definition access_denied : exn :=
  Exn (OtherException "S3UploadFailedError") (lit "Access Denied").

(** One whose bucket refuses the upload. *)
Definition closed_bucket : services :=
  Services
    (fun _ => Ret tt)
    (fun _ _ _ => Raise access_denied)
    (fun _ _ => Ret tt)
    (fun _ _ => Ret (Job (lit "COMPLETED") (Some (lit "https://transcripts/1.json"))))
    (fun _ => Ret (lit "hello")).

(** A helper that has constructed no client yet and done nothing. *)
Definition new_helper : world := World [] [].

End TranscribeExamples.

(* ------------------------------------------------------------------ *)
(** * Properties *)

Import Py Eff Bedrock Spec.

(** ** Counting the effects of a trace *)

Lemma extend_nil (w : world) : extend w [] = w.
Proof. destruct w as [sid tr]. unfold extend. simpl. by rewrite app_nil_r. Qed.

Lemma extend_extend (w : world) (es1 es2 : list effect) :
  extend (extend w es1) es2 = extend w (es1 ++ es2).
Proof. unfold extend. simpl. by rewrite <- app_assoc. Qed.

Lemma record_extend (e : effect) (w : world) : record e w = extend w [e].
Proof. reflexivity. Qed.

Lemma invocations_extend (w : world) (es : list effect) :
  invocations (extend w es)
  = (invocations w + length (filter (fun e => is_invoked e = true) es))%nat.
Proof. unfold invocations, extend. simpl. by rewrite filter_app, length_app. Qed.

Lemma sleeps_extend (w : world) (es : list effect) :
  sleeps (extend w es)
  = (sleeps w + length (filter (fun e => is_slept e = true) es))%nat.
Proof. unfold sleeps, extend. simpl. by rewrite filter_app, length_app. Qed.

Lemma backoff_S (r : request) (d : Z) (j : nat) :
  backoff r d (S j) = [Invoked r; Slept d] ++ backoff r d j.
Proof. reflexivity. Qed.

Lemma backoff_invocations (r : request) (d : Z) (j : nat) :
  length (filter (fun e => is_invoked e = true) (backoff r d j)) = j.
Proof.
  induction j as [|j IH]; [reflexivity|].
  rewrite backoff_S, filter_app, length_app, IH. reflexivity.
Qed.

Lemma backoff_sleeps (r : request) (d : Z) (j : nat) :
  length (filter (fun e => is_slept e = true) (backoff r d j)) = j.
Proof.
  induction j as [|j IH]; [reflexivity|].
  rewrite backoff_S, filter_app, length_app, IH. reflexivity.
Qed.

(** ** One round of the loop *)

Section Round.

Context {R : Type}.
Variables (svc : service) (r : request) (retries delay : Z).
Variables (ok : str -> R) (exhausted : R) (failed : exn -> R).

Local Abbreviation round :=
  (guarded_attempt svc r retries delay ok exhausted failed).

Lemma round_success (attempt : Z) (w : world) (text : str) :
  attempt_outcome (svc (invocations w) r) = Ret text ->
  round attempt w = (Ret (Some (ok text)), extend w [Invoked r]).
Proof.
  intros H. unfold guarded_attempt, try_except, bind, invoke_agent, lift.
  unfold attempt_outcome in H.
  destruct (svc (invocations w) r) as [c|e]; [|discriminate].
  simpl. rewrite H. reflexivity.
Qed.

Lemma round_raises (attempt : Z) (w : world) (e : exn) :
  attempt_outcome (svc (invocations w) r) = Raise e ->
  round attempt w
  = (if is_internal_server e then
       if attempt <? retries - 1
       then (sleep delay ;; ret None) else ret (Some exhausted)
     else ret (Some (failed e))) (extend w [Invoked r]).
Proof.
  intros H. unfold guarded_attempt, try_except, bind, invoke_agent, lift.
  unfold attempt_outcome in H.
  destruct (svc (invocations w) r) as [c|e']; simpl.
  - rewrite H. reflexivity.
  - by inversion H.
Qed.

Lemma round_transient_more (attempt : Z) (w : world) :
  0 <= delay -> attempt < retries - 1 ->
  transient_attempt (svc (invocations w) r) ->
  round attempt w = (Ret None, extend w [Invoked r; Slept delay]).
Proof.
  intros Hd Ha (e & He & Hi). rewrite (round_raises _ _ _ He), Hi.
  destruct (Z.ltb_spec attempt (retries - 1)); [|lia].
  unfold bind, sleep, ret. destruct (Z.ltb_spec delay 0); [lia|].
  rewrite record_extend, extend_extend. reflexivity.
Qed.

Lemma round_transient_last (attempt : Z) (w : world) :
  retries - 1 <= attempt ->
  transient_attempt (svc (invocations w) r) ->
  round attempt w = (Ret (Some exhausted), extend w [Invoked r]).
Proof.
  intros Ha (e & He & Hi). rewrite (round_raises _ _ _ He), Hi.
  destruct (Z.ltb_spec attempt (retries - 1)); [lia|]. reflexivity.
Qed.

Lemma round_terminal (attempt : Z) (w : world) (e : exn) :
  terminal_attempt (svc (invocations w) r) e ->
  round attempt w = (Ret (Some (failed e)), extend w [Invoked r]).
Proof.
  intros (He & Hi). rewrite (round_raises _ _ _ He), Hi. reflexivity.
Qed.

(** After [j] transient attempts that are not the last ones, the loop
    is where it would be had it started at attempt [j], the world
    extended by [j] calls and [j] waits. *)
Lemma loop_backoff (j : nat) :
  0 <= delay ->
  forall (a m : Z) (w : world),
    Z.of_nat j < m -> a + m = retries ->
    (forall i, (i < j)%nat ->
               transient_attempt (svc (invocations w + i)%nat r)) ->
    for_each (seqZ a m) round w
    = for_each (seqZ (a + Z.of_nat j) (m - Z.of_nat j)) round
               (extend w (backoff r delay j)).
Proof.
  intros Hd. induction j as [|j IH]; intros a m w Hm Ham Htr.
  - rewrite extend_nil. f_equal; f_equal; lia.
  - rewrite (seqZ_cons a m) by lia. simpl for_each. unfold bind at 1.
    rewrite round_transient_more; [|done|lia|].
    2:{ specialize (Htr 0%nat). rewrite Nat.add_0_r in Htr. apply Htr. lia. }
    rewrite IH; [|lia|lia|].
    + rewrite extend_extend, <- backoff_S. f_equal; f_equal; lia.
    + intros i Hi. rewrite invocations_extend. simpl.
      replace (invocations w + 1 + i)%nat with (invocations w + S i)%nat by lia.
      apply Htr. lia.
Qed.

End Round.

(** ** The whole loop *)

Section Loop.

Context {R : Type}.
Variables (svc : service) (r : request) (retries delay : Z).
Variables (ok : str -> R) (exhausted : R) (failed : exn -> R).

Local Abbreviation round :=
  (guarded_attempt svc r retries delay ok exhausted failed).

Lemma loop_enters (j : nat) (w : world) :
  0 <= delay -> Z.of_nat j < retries ->
  all_transient svc r w j ->
  for_each (range retries) round w
  = (x <- round (Z.of_nat j) ;;
     match x with
     | Some v => ret (Some v)
     | None => for_each (seqZ (Z.of_nat j + 1) (retries - Z.of_nat j - 1)) round
     end) (extend w (backoff r delay j)).
Proof.
  intros Hd Hj Htr. unfold range.
  rewrite (loop_backoff svc r retries delay ok exhausted failed j Hd 0 retries w);
    [|lia|lia|exact Htr].
  rewrite (seqZ_cons (0 + Z.of_nat j)) by lia. simpl for_each.
  replace (0 + Z.of_nat j) with (Z.of_nat j) by lia.
  replace (Z.pred (retries - Z.of_nat j)) with (retries - Z.of_nat j - 1) by lia.
  replace (Z.succ (Z.of_nat j)) with (Z.of_nat j + 1) by lia.
  reflexivity.
Qed.

Lemma invocations_after (j : nat) (w : world) :
  invocations (extend w (backoff r delay j ++ [Invoked r]))
  = (invocations w + S j)%nat.
Proof.
  rewrite invocations_extend, filter_app, length_app, backoff_invocations.
  simpl. lia.
Qed.

Lemma sleeps_after (j : nat) (w : world) :
  sleeps (extend w (backoff r delay j ++ [Invoked r])) = (sleeps w + j)%nat.
Proof.
  rewrite sleeps_extend, filter_app, length_app, backoff_sleeps.
  simpl. lia.
Qed.

Lemma loop_exhausted (w : world) :
  1 <= retries -> 0 <= delay ->
  all_transient svc r w (Z.to_nat retries) ->
  for_each (range retries) round w
  = (Ret (Some exhausted),
     extend w (backoff r delay (Z.to_nat retries - 1) ++ [Invoked r])).
Proof.
  intros Hn Hd Htr.
  rewrite (loop_enters (Z.to_nat retries - 1) w Hd); [|lia|].
  2:{ intros i Hi. apply Htr. lia. }
  unfold bind. rewrite round_transient_last; [|lia|].
  - rewrite extend_extend. reflexivity.
  - rewrite invocations_extend, backoff_invocations. apply Htr. lia.
Qed.

Lemma loop_terminal (j : nat) (w : world) (e : exn) :
  0 <= delay -> Z.of_nat j < retries ->
  all_transient svc r w j ->
  terminal_attempt (svc (invocations w + j)%nat r) e ->
  for_each (range retries) round w
  = (Ret (Some (failed e)), extend w (backoff r delay j ++ [Invoked r])).
Proof.
  intros Hd Hj Htr He. rewrite (loop_enters j w Hd Hj Htr).
  unfold bind. rewrite round_terminal with (e := e).
  - rewrite extend_extend. reflexivity.
  - rewrite invocations_extend, backoff_invocations. exact He.
Qed.

Lemma loop_success (j : nat) (w : world) (text : str) :
  0 <= delay -> Z.of_nat j < retries ->
  all_transient svc r w j ->
  attempt_outcome (svc (invocations w + j)%nat r) = Ret text ->
  for_each (range retries) round w
  = (Ret (Some (ok text)), extend w (backoff r delay j ++ [Invoked r])).
Proof.
  intros Hd Hj Htr He. rewrite (loop_enters j w Hd Hj Htr).
  unfold bind. rewrite round_success with (text := text).
  - rewrite extend_extend. reflexivity.
  - rewrite invocations_extend, backoff_invocations. exact He.
Qed.

End Loop.

(** ** The two loops that answer with a dictionary *)

Lemma invoke_bedrock_agent_rounds (cfg : config) (svc : service)
    (question session_id : str) (agent_id agent_alias_id : option str) :
  AWSHelper.invoke_bedrock_agent cfg svc question session_id
                                 agent_id agent_alias_id
  = for_each (range (API_RETRY_COUNT cfg))
      (guarded_attempt svc
         (Request (or_str agent_id (AGENT_ID cfg))
                  (or_str agent_alias_id (AGENT_ALIAS_ID cfg))
                  session_id question)
         (API_RETRY_COUNT cfg) (API_RETRY_DELAY cfg)
         (fun text => AWSHelper.success_result text session_id)
         AWSHelper.unavailable_result AWSHelper.error_result).
Proof. reflexivity. Qed.

Lemma orchestrator_ask_agent_rounds (cfg : config) (svc : service)
    (question session_id : str) (retries : option Z) :
  Orchestrator.ask_agent cfg svc question session_id retries
  = for_each (range (or_int retries (API_RETRY_COUNT cfg)))
      (guarded_attempt svc
         (Request (AGENT_ID cfg) (AGENT_ALIAS_ID cfg) session_id question)
         (or_int retries (API_RETRY_COUNT cfg)) (API_RETRY_DELAY cfg)
         (fun text => Orchestrator.success_result text session_id)
         Orchestrator.unavailable_result Orchestrator.error_result).
Proof. reflexivity. Qed.

Lemma read_events_chunks (evs : list event) :
  forall (acc : str) (texts : list str),
    Forall2 (fun b s => Utf8.decode b = Some s) (chunk_bytes evs) texts ->
    read_events evs acc = Ret (acc ++ concat texts).
Proof.
  induction evs as [|[b|k] evs IH]; intros acc texts H; simpl in *.
  - inversion H. simpl. by rewrite app_nil_r.
  - inversion H as [|b' s bs ss Hb Hrest]; subst. rewrite Hb.
    rewrite (IH _ _ Hrest). simpl. by rewrite app_assoc.
  - apply IH, H.
Qed.

Lemma successful_attempt_outcome (o : outcome completion) (texts : list str) :
  successful_attempt o texts -> attempt_outcome o = Ret (concat texts).
Proof.
  intros (c & -> & Hs & Hd). simpl. unfold read_completion.
  rewrite (read_events_chunks _ [] texts Hd), Hs. reflexivity.
Qed.

(** ** Retry bound *)

(** C2.  When every attempt fails with the transient error and
    [maxAttempts >= 1], [invoke_bedrock_agent] and the orchestrator's
    [ask_agent] call the agent exactly [maxAttempts] times, wait the
    fixed delay once between each two consecutive calls
    ([maxAttempts - 1] waits), and answer with the failure result that
    carries the "temporarily unavailable" text. *)
Theorem retry_bound_all_transient :
  (forall (cfg : config) (svc : service) (question session_id : str)
          (agent_id agent_alias_id : option str) (w : world),
      let n := API_RETRY_COUNT cfg in
      let d := API_RETRY_DELAY cfg in
      let r := Request (or_str agent_id (AGENT_ID cfg))
                       (or_str agent_alias_id (AGENT_ALIAS_ID cfg))
                       session_id question in
      let w' := extend w (backoff r d (Z.to_nat n - 1) ++ [Invoked r]) in
      1 <= n -> 0 <= d ->
      all_transient svc r w (Z.to_nat n) ->
      AWSHelper.invoke_bedrock_agent cfg svc question session_id
                                     agent_id agent_alias_id w
      = (Ret (Some AWSHelper.unavailable_result), w')
      /\ invocations w' = (invocations w + Z.to_nat n)%nat
      /\ sleeps w' = (sleeps w + (Z.to_nat n - 1))%nat
      /\ AWSHelper.unavailable_result !! "success" = Some (VBool false)
      /\ AWSHelper.unavailable_result !! "response"
         = Some (VStr (lit "Sorry, I am temporarily unavailable. Please try again.")))
  /\
  (forall (cfg : config) (svc : service) (question session_id : str)
          (retries : option Z) (w : world),
      let n := or_int retries (API_RETRY_COUNT cfg) in
      let d := API_RETRY_DELAY cfg in
      let r := Request (AGENT_ID cfg) (AGENT_ALIAS_ID cfg)
                       session_id question in
      let w' := extend w (backoff r d (Z.to_nat n - 1) ++ [Invoked r]) in
      1 <= n -> 0 <= d ->
      all_transient svc r w (Z.to_nat n) ->
      Orchestrator.ask_agent cfg svc question session_id retries w
      = (Ret (Some Orchestrator.unavailable_result), w')
      /\ invocations w' = (invocations w + Z.to_nat n)%nat
      /\ sleeps w' = (sleeps w + (Z.to_nat n - 1))%nat
      /\ Orchestrator.unavailable_result !! "success" = Some (VBool false)
      /\ Orchestrator.unavailable_result !! "response"
         = Some (VStr (lit "Sorry, I am temporarily unavailable. Please try again later."))).
Proof.
  split.
  - intros cfg svc question session_id agent_id agent_alias_id w n d r w'
           Hn Hd Htr.
    split; [|split; [|split; [|split]]].
    + rewrite invoke_bedrock_agent_rounds. by apply loop_exhausted.
    + unfold w'. rewrite invocations_after. lia.
    + unfold w'. apply sleeps_after.
    + reflexivity.
    + reflexivity.
  - intros cfg svc question session_id retries w n d r w' Hn Hd Htr.
    split; [|split; [|split; [|split]]].
    + rewrite orchestrator_ask_agent_rounds. by apply loop_exhausted.
    + unfold w'. rewrite invocations_after. lia.
    + unfold w'. apply sleeps_after.
    + reflexivity.
    + reflexivity.
Qed.

Lemma retry_bound_all_transient_witness :
  AWSHelper.invoke_bedrock_agent Examples.cfg3 Examples.outage
    (lit "hi") (lit "session-1") None None Examples.fresh_world
  = (Ret (Some AWSHelper.unavailable_result),
     World None [Invoked (Examples.request3 (lit "hi")); Slept 5;
                 Invoked (Examples.request3 (lit "hi")); Slept 5;
                 Invoked (Examples.request3 (lit "hi"))])
  /\
  Orchestrator.ask_agent Examples.cfg3 Examples.outage
    (lit "hi") (lit "session-1") (Some 2) Examples.fresh_world
  = (Ret (Some Orchestrator.unavailable_result),
     World None [Invoked (Examples.request3 (lit "hi")); Slept 5;
                 Invoked (Examples.request3 (lit "hi"))]).
Proof.
  split.
  - apply (proj1 retry_bound_all_transient Examples.cfg3 Examples.outage
             (lit "hi") (lit "session-1") None None Examples.fresh_world).
    + simpl. lia.
    + simpl. lia.
    + intros i _. exists Examples.internal_error. split; reflexivity.
  - apply (proj2 retry_bound_all_transient Examples.cfg3 Examples.outage
             (lit "hi") (lit "session-1") (Some 2) Examples.fresh_world).
    + simpl. lia.
    + simpl. lia.
    + intros i _. exists Examples.internal_error. split; reflexivity.
Defined.

(** ** Terminal errors *)

(** C3.  When the first attempt fails with a terminal (non-transient)
    error, [invoke_bedrock_agent] and the orchestrator's [ask_agent]
    answer with a failure result after exactly one call of the agent,
    without any wait and without a further attempt. *)
Theorem terminal_error_no_retry :
  (forall (cfg : config) (svc : service) (question session_id : str)
          (agent_id agent_alias_id : option str) (w : world) (e : exn),
      let r := Request (or_str agent_id (AGENT_ID cfg))
                       (or_str agent_alias_id (AGENT_ALIAS_ID cfg))
                       session_id question in
      let w' := extend w [Invoked r] in
      1 <= API_RETRY_COUNT cfg ->
      terminal_attempt (svc (invocations w) r) e ->
      AWSHelper.invoke_bedrock_agent cfg svc question session_id
                                     agent_id agent_alias_id w
      = (Ret (Some (AWSHelper.error_result e)), w')
      /\ AWSHelper.error_result e !! "success" = Some (VBool false)
      /\ invocations w' = S (invocations w)
      /\ sleeps w' = sleeps w)
  /\
  (forall (cfg : config) (svc : service) (question session_id : str)
          (retries : option Z) (w : world) (e : exn),
      let r := Request (AGENT_ID cfg) (AGENT_ALIAS_ID cfg)
                       session_id question in
      let w' := extend w [Invoked r] in
      1 <= or_int retries (API_RETRY_COUNT cfg) ->
      terminal_attempt (svc (invocations w) r) e ->
      Orchestrator.ask_agent cfg svc question session_id retries w
      = (Ret (Some (Orchestrator.error_result e)), w')
      /\ Orchestrator.error_result e !! "success" = Some (VBool false)
      /\ invocations w' = S (invocations w)
      /\ sleeps w' = sleeps w).
Proof.
  split.
  - intros cfg svc question session_id agent_id agent_alias_id w e r w' Hn He.
    split; [|split; [|split]].
    + rewrite invoke_bedrock_agent_rounds. unfold range.
      rewrite seqZ_cons by lia. simpl. unfold bind.
      by rewrite round_terminal with (e := e).
    + reflexivity.
    + unfold w'. rewrite invocations_extend. simpl. lia.
    + unfold w'. rewrite sleeps_extend. simpl. lia.
  - intros cfg svc question session_id retries w e r w' Hn He.
    split; [|split; [|split]].
    + rewrite orchestrator_ask_agent_rounds. unfold range.
      rewrite seqZ_cons by lia. simpl. unfold bind.
      by rewrite round_terminal with (e := e).
    + reflexivity.
    + unfold w'. rewrite invocations_extend. simpl. lia.
    + unfold w'. rewrite sleeps_extend. simpl. lia.
Qed.

Lemma terminal_error_no_retry_witness :
  AWSHelper.invoke_bedrock_agent Examples.cfg3 Examples.refusing
    (lit "hi") (lit "session-1") None None Examples.fresh_world
  = (Ret (Some (AWSHelper.error_result Examples.invalid_recipient)),
     World None [Invoked (Examples.request3 (lit "hi"))])
  /\
  Orchestrator.ask_agent Examples.cfg3 Examples.refusing
    (lit "hi") (lit "session-1") None Examples.fresh_world
  = (Ret (Some (Orchestrator.error_result Examples.invalid_recipient)),
     World None [Invoked (Examples.request3 (lit "hi"))]).
Proof.
  split.
  - apply (proj1 terminal_error_no_retry Examples.cfg3 Examples.refusing
             (lit "hi") (lit "session-1") None None Examples.fresh_world
             Examples.invalid_recipient).
    + simpl. lia.
    + split; reflexivity.
  - apply (proj2 terminal_error_no_retry Examples.cfg3 Examples.refusing
             (lit "hi") (lit "session-1") None Examples.fresh_world
             Examples.invalid_recipient).
    + simpl. lia.
    + split; reflexivity.
Defined.

(** ** Success ends the loop *)

(** C4.  When the [k]-th attempt of [invoke_bedrock_agent] succeeds
    (the [k - 1] before it having failed with the transient error), the
    answer is the success result whose text is the concatenation, in
    stream order, of the decoded chunks of that attempt's stream; the
    agent was called [k] times, with [k - 1] waits, and nothing happens
    after the successful call. *)
Theorem success_short_circuits
    (cfg : config) (svc : service) (question session_id : str)
    (agent_id agent_alias_id : option str) (w : world)
    (k : nat) (texts : list str) :
  let d := API_RETRY_DELAY cfg in
  let r := Request (or_str agent_id (AGENT_ID cfg))
                   (or_str agent_alias_id (AGENT_ALIAS_ID cfg))
                   session_id question in
  let w' := extend w (backoff r d (k - 1) ++ [Invoked r]) in
  (1 <= k)%nat -> Z.of_nat k <= API_RETRY_COUNT cfg -> 0 <= d ->
  all_transient svc r w (k - 1) ->
  successful_attempt (svc (invocations w + (k - 1))%nat r) texts ->
  AWSHelper.invoke_bedrock_agent cfg svc question session_id
                                 agent_id agent_alias_id w
  = (Ret (Some (AWSHelper.success_result (concat texts) session_id)), w')
  /\ AWSHelper.success_result (concat texts) session_id !! "success"
     = Some (VBool true)
  /\ AWSHelper.success_result (concat texts) session_id !! "response"
     = Some (VStr (concat texts))
  /\ invocations w' = (invocations w + k)%nat
  /\ sleeps w' = (sleeps w + (k - 1))%nat.
Proof.
  intros d r w' Hk Hkn Hd Htr Hok.
  split; [|split; [|split; [|split]]].
  - rewrite invoke_bedrock_agent_rounds.
    apply (loop_success svc r (API_RETRY_COUNT cfg) d
             (fun text => AWSHelper.success_result text session_id)
             AWSHelper.unavailable_result AWSHelper.error_result
             (k - 1) w (concat texts)); [done|lia|done|].
    by apply successful_attempt_outcome.
  - reflexivity.
  - reflexivity.
  - unfold w'. rewrite invocations_after. lia.
  - unfold w'. apply sleeps_after.
Qed.

Lemma success_short_circuits_witness :
  AWSHelper.invoke_bedrock_agent Examples.cfg3 Examples.recovering
    (lit "hi") (lit "session-1") None None Examples.fresh_world
  = (Ret (Some (AWSHelper.success_result (lit "OK") (lit "session-1"))),
     World None [Invoked (Examples.request3 (lit "hi")); Slept 5;
                 Invoked (Examples.request3 (lit "hi"))]).
Proof.
  apply (success_short_circuits Examples.cfg3 Examples.recovering
           (lit "hi") (lit "session-1") None None Examples.fresh_world
           2 [lit "O"; lit "K"]).
  - lia.
  - simpl. lia.
  - simpl. lia.
  - intros i Hi. assert (i = 0%nat) as -> by (simpl in Hi; lia).
    exists Examples.internal_error. split; reflexivity.
  - eexists. split; [reflexivity|]. split; [reflexivity|].
    repeat constructor.
Defined.

(** ** What the loops that answer with a dictionary can answer *)

Section Answers.

Context {R : Type}.
Variables (svc : service) (r : request) (retries delay : Z).
Variables (ok : str -> R) (exhausted : R) (failed : exn -> R).

Local Abbreviation round :=
  (guarded_attempt svc r retries delay ok exhausted failed).

Local Abbreviation answer := (Spec.answer ok exhausted failed).

Lemma round_answer (attempt : Z) (w w' : world) (v : R) :
  round attempt w = (Ret (Some v), w') -> answer v.
Proof.
  intros H.
  destruct (attempt_outcome (svc (invocations w) r)) as [text|e] eqn:Ho.
  - rewrite round_success with (text := text) in H by done.
    inversion H; subst. apply answer_ok.
  - rewrite round_raises with (e := e) in H by done.
    destruct (is_internal_server e) eqn:Hi.
    + destruct (attempt <? retries - 1).
      * unfold bind, sleep, ret in H. destruct (delay <? 0); discriminate.
      * inversion H; subst. apply answer_exhausted.
    + inversion H; subst. by apply answer_failed.
Qed.

Lemma loop_answer (xs : list Z) :
  forall (w w' : world) (v : R),
    for_each xs round w = (Ret (Some v), w') -> answer v.
Proof.
  induction xs as [|x xs IH]; intros w w' v H; simpl in H.
  - discriminate.
  - unfold bind at 1 in H.
    destruct (round x w) as [[[v1|]|e] w1] eqn:Hr.
    + inversion H; subst. eapply round_answer, Hr.
    + eapply IH, H.
    + discriminate.
Qed.

(** With a wait that [time.sleep] accepts, a round never raises, and
    only a round before the last can fall through. *)
Lemma round_returns (attempt : Z) (w : world) :
  0 <= delay ->
  exists (x : option R) (w' : world),
    round attempt w = (Ret x, w') /\ (x = None -> attempt < retries - 1).
Proof.
  intros Hd.
  destruct (attempt_outcome (svc (invocations w) r)) as [text|e] eqn:Ho.
  - rewrite round_success with (text := text) by done.
    eexists _, _. split; [reflexivity|discriminate].
  - rewrite round_raises with (e := e) by done.
    destruct (is_internal_server e).
    + destruct (Z.ltb_spec attempt (retries - 1)).
      * unfold bind, sleep, ret. destruct (Z.ltb_spec delay 0); [lia|].
        eexists _, _. split; [reflexivity|done].
      * eexists _, _. split; [reflexivity|discriminate].
    + eexists _, _. split; [reflexivity|discriminate].
Qed.

Lemma loop_returns (m : nat) :
  0 <= delay ->
  forall (a : Z) (w : world),
    (1 <= m)%nat -> a + Z.of_nat m = retries ->
    exists (v : R) (w' : world),
      for_each (seqZ a (Z.of_nat m)) round w = (Ret (Some v), w').
Proof.
  intros Hd. induction m as [|m IH]; intros a w Hm Ha; [lia|].
  rewrite seqZ_cons by lia. simpl for_each. unfold bind at 1.
  destruct (round_returns a w Hd) as ([v|] & w1 & Hr & Hlast); rewrite Hr.
  - eexists _, _. reflexivity.
  - specialize (Hlast eq_refl).
    replace (Z.pred (Z.of_nat (S m))) with (Z.of_nat m) by lia.
    apply IH; lia.
Qed.

End Answers.

(** [invoke_bedrock_agent] always answers with a dictionary when it is
    configured with at least one attempt and a wait that is not
    negative. *)
Lemma invoke_bedrock_agent_returns (cfg : config) (svc : service)
    (question session_id : str) (agent_id agent_alias_id : option str)
    (w : world) :
  1 <= API_RETRY_COUNT cfg -> 0 <= API_RETRY_DELAY cfg ->
  exists (d : dict) (w' : world),
    AWSHelper.invoke_bedrock_agent cfg svc question session_id
                                   agent_id agent_alias_id w
    = (Ret (Some d), w').
Proof.
  intros Hn Hd. rewrite invoke_bedrock_agent_rounds. unfold range.
  pose proof (loop_returns svc
                (Request (or_str agent_id (AGENT_ID cfg))
                         (or_str agent_alias_id (AGENT_ALIAS_ID cfg))
                         session_id question)
                (API_RETRY_COUNT cfg) (API_RETRY_DELAY cfg)
                (fun text => AWSHelper.success_result text session_id)
                AWSHelper.unavailable_result AWSHelper.error_result
                (Z.to_nat (API_RETRY_COUNT cfg)) Hd 0 w) as H.
  rewrite Z2Nat.id in H by lia. apply H; lia.
Qed.

(** ** The page facades let errors through *)

(** C1, at the inputs where it fails.  When the first attempt fails
    with an error other than [InternalServerException], [ask_agent] of
    the chat page and [ask_agent] of the voice page raise that error to
    their caller, after one call of the agent. *)
Theorem page_ask_agent_raises :
  (forall (svc : service) (fresh agent_id agent_alias_id question : str)
          (retries delay : Z) (w : world) (e : exn),
      let sid := default fresh (session_id w) in
      let r := Request agent_id agent_alias_id sid question in
      1 <= retries ->
      terminal_attempt (svc (invocations w) r) e ->
      ChatAgent.ask_agent svc fresh agent_id agent_alias_id question
                          retries delay w
      = (Raise e, World (Some sid) (trace w ++ [Invoked r])))
  /\
  (forall (svc : service) (question sid : str) (retries delay : Z)
          (w : world) (e : exn),
      let r := Request VoiceAgent.agent_id VoiceAgent.agent_alias_id
                       sid question in
      1 <= retries ->
      session_id w = Some sid ->
      terminal_attempt (svc (invocations w) r) e ->
      VoiceAgent.ask_agent svc question retries delay w
      = (Raise e, extend w [Invoked r])).
Proof.
  split.
  - intros svc fresh agent_id agent_alias_id question retries delay
           [s tr] e sid r Hn [He Hi].
    unfold ChatAgent.ask_agent, range. rewrite seqZ_cons by lia.
    unfold attempt_outcome, invocations in He. simpl in He.
    destruct s as [s|]; simpl in *;
      unfold bind, try_except, ensure_session_id, read_session_id,
             invoke_agent, invocations, lift; simpl;
      fold sid; fold r;
      destruct (svc _ r) as [c|e']; simpl; try rewrite He;
      try (inversion He; subst e'); rewrite Hi; reflexivity.
  - intros svc question sid retries delay [s tr] e r Hn Hs [He Hi].
    simpl in Hs. subst s.
    unfold VoiceAgent.ask_agent, range. rewrite seqZ_cons by lia.
    unfold attempt_outcome, invocations in He. simpl in He.
    simpl; unfold bind, try_except, read_session_id,
             invoke_agent, invocations, lift; simpl; fold r.
    destruct (svc _ r) as [c|e']; simpl; try rewrite He;
      try (inversion He; subst e'); rewrite Hi; reflexivity.
Qed.

Lemma page_ask_agent_raises_witness :
  ChatAgent.ask_agent Examples.refusing (lit "session-1")
    ChatAgent.agent_id ChatAgent.agent_alias_id (lit "hi") 3 5
    Examples.fresh_world
  = (Raise Examples.invalid_recipient,
     World (Some (lit "session-1"))
           [Invoked (Request ChatAgent.agent_id ChatAgent.agent_alias_id
                             (lit "session-1") (lit "hi"))])
  /\
  VoiceAgent.ask_agent Examples.refusing (lit "hi") 3 5 Examples.page_world
  = (Raise Examples.invalid_recipient,
     World (Some (lit "session-1"))
           [Invoked (Request VoiceAgent.agent_id VoiceAgent.agent_alias_id
                             (lit "session-1") (lit "hi"))]).
Proof.
  split.
  - apply (proj1 page_ask_agent_raises Examples.refusing (lit "session-1")
             ChatAgent.agent_id ChatAgent.agent_alias_id (lit "hi") 3 5
             Examples.fresh_world Examples.invalid_recipient).
    + lia.
    + split; reflexivity.
  - apply (proj2 page_ask_agent_raises Examples.refusing (lit "hi")
             (lit "session-1") 3 5 Examples.page_world
             Examples.invalid_recipient).
    + lia.
    + reflexivity.
    + split; reflexivity.
Defined.

(** ** What a terminal error shows to the user *)

Lemma is_prefix_refl (x : str) : is_prefix x x = true.
Proof. induction x as [|a x IH]; simpl; [done|]. by rewrite N.eqb_refl. Qed.

Lemma is_substring_refl (x : str) : is_substring x x = true.
Proof. destruct x; simpl; [done|]. by rewrite N.eqb_refl, is_prefix_refl. Qed.

Lemma is_substring_suffix (p x : str) : is_substring x (p ++ x) = true.
Proof.
  induction p as [|a p IH]; simpl.
  - apply is_substring_refl.
  - rewrite IH. apply orb_true_r.
Qed.

(** C6, as stated, fails: the response text that [invoke_bedrock_agent]
    returns for the terminal error "invalid recipient" is
    "Error: invalid recipient", which shows the raw error text. *)
Lemma terminal_error_text_is_shown :
  exists (d : dict) (w' : world),
    AWSHelper.invoke_bedrock_agent Examples.cfg3 Examples.refusing
      (lit "hi") (lit "session-1") None None Examples.fresh_world
    = (Ret (Some d), w')
    /\ d !! "response" = Some (VStr (lit "Error: invalid recipient"))
    /\ ~ hides_error Examples.invalid_recipient d.
Proof.
  eexists _, _. split; [reflexivity|]. split; [reflexivity|].
  intros (text & Ht & Hs).
  assert (text = lit "Error: invalid recipient") as ->.
  { vm_compute in Ht. by inversion Ht. }
  vm_compute in Hs. discriminate.
Qed.

(** C6, amended.  For every terminal error raised by an attempt (the
    attempts before it having failed with the transient error), the
    response text of the result is the fixed prefix ("Error: " in
    [invoke_bedrock_agent], "An error occurred: " in the orchestrator's
    [ask_agent]) followed by the raw error text, which is also kept
    under the key [error]. *)
Theorem terminal_error_response_embeds_error :
  (forall (cfg : config) (svc : service) (question session_id : str)
          (agent_id agent_alias_id : option str) (w : world)
          (j : nat) (e : exn),
      let r := Request (or_str agent_id (AGENT_ID cfg))
                       (or_str agent_alias_id (AGENT_ALIAS_ID cfg))
                       session_id question in
      0 <= API_RETRY_DELAY cfg -> Z.of_nat j < API_RETRY_COUNT cfg ->
      all_transient svc r w j ->
      terminal_attempt (svc (invocations w + j)%nat r) e ->
      exists (d : dict) (w' : world),
        AWSHelper.invoke_bedrock_agent cfg svc question session_id
                                       agent_id agent_alias_id w
        = (Ret (Some d), w')
        /\ d !! "success" = Some (VBool false)
        /\ d !! "error" = Some (VStr (exn_msg e))
        /\ d !! "response" = Some (VStr (lit "Error: " ++ exn_msg e))
        /\ is_substring (exn_msg e) (lit "Error: " ++ exn_msg e) = true)
  /\
  (forall (cfg : config) (svc : service) (question session_id : str)
          (retries : option Z) (w : world) (j : nat) (e : exn),
      let r := Request (AGENT_ID cfg) (AGENT_ALIAS_ID cfg)
                       session_id question in
      0 <= API_RETRY_DELAY cfg ->
      Z.of_nat j < or_int retries (API_RETRY_COUNT cfg) ->
      all_transient svc r w j ->
      terminal_attempt (svc (invocations w + j)%nat r) e ->
      exists (d : dict) (w' : world),
        Orchestrator.ask_agent cfg svc question session_id retries w
        = (Ret (Some d), w')
        /\ d !! "success" = Some (VBool false)
        /\ d !! "error" = Some (VStr (exn_msg e))
        /\ d !! "response" = Some (VStr (lit "An error occurred: " ++ exn_msg e))
        /\ is_substring (exn_msg e) (lit "An error occurred: " ++ exn_msg e)
           = true).
Proof.
  split.
  - intros cfg svc question session_id agent_id agent_alias_id w j e r
           Hd Hj Htr He.
    eexists _, _. split; [|split; [|split; [|split]]].
    + rewrite invoke_bedrock_agent_rounds. by apply loop_terminal.
    + reflexivity.
    + reflexivity.
    + reflexivity.
    + apply is_substring_suffix.
  - intros cfg svc question session_id retries w j e r Hd Hj Htr He.
    eexists _, _. split; [|split; [|split; [|split]]].
    + rewrite orchestrator_ask_agent_rounds. by apply loop_terminal.
    + reflexivity.
    + reflexivity.
    + reflexivity.
    + apply is_substring_suffix.
Qed.

Lemma terminal_error_response_embeds_error_witness :
  (exists (d : dict) (w' : world),
      AWSHelper.invoke_bedrock_agent Examples.cfg3 Examples.refusing
        (lit "hi") (lit "session-1") None None Examples.fresh_world
      = (Ret (Some d), w')
      /\ d !! "response" = Some (VStr (lit "Error: invalid recipient")))
  /\
  (exists (d : dict) (w' : world),
      Orchestrator.ask_agent Examples.cfg3 Examples.refusing
        (lit "hi") (lit "session-1") None Examples.fresh_world
      = (Ret (Some d), w')
      /\ d !! "response"
         = Some (VStr (lit "An error occurred: invalid recipient"))).
Proof.
  split.
  - destruct (proj1 terminal_error_response_embeds_error
                Examples.cfg3 Examples.refusing (lit "hi") (lit "session-1")
                None None Examples.fresh_world 0%nat
                Examples.invalid_recipient)
      as (d & w' & Hcall & _ & _ & Hresp & _).
    + simpl. lia.
    + simpl. lia.
    + intros i Hi. lia.
    + split; reflexivity.
    + exists d, w'. split; [exact Hcall|exact Hresp].
  - destruct (proj2 terminal_error_response_embeds_error
                Examples.cfg3 Examples.refusing (lit "hi") (lit "session-1")
                None Examples.fresh_world 0%nat
                Examples.invalid_recipient)
      as (d & w' & Hcall & _ & _ & Hresp & _).
    + simpl. lia.
    + simpl. lia.
    + intros i Hi. lia.
    + split; reflexivity.
    + exists d, w'. split; [exact Hcall|exact Hresp].
Defined.

(** ** The invariant of call results *)

(** C7, as stated, fails: a sender that is switched off answers
    [_send_email] with a result whose success flag is false and which has
    no [error] field. *)
Lemma skipped_email_has_no_error :
  exists (d : dict) (w' : EmailAutomation.world),
    EmailAutomation._send_email (lit "noreply@company.com")
      Examples.disabled_sender (lit "new.hire@company.com")
      (lit "Welcome") (lit "<html></html>") Examples.accepting_mail
    = (Ret d, w')
    /\ d !! "success" = Some (VBool false)
    /\ d !! "error" = None
    /\ call_result_ok "message_id" d = false.
Proof. eexists _, _. repeat split. Qed.

(** C7, amended.  Every dictionary that [invoke_bedrock_agent] returns
    satisfies the invariant (success: a text under [response] and no
    [error]; failure: a non-null [error]).  [_send_email] always returns
    a dictionary; it satisfies the invariant (payload [message_id])
    when the sender is enabled and has its client, and otherwise it is
    the fixed failure result with a non-null [message] and no [error],
    returned without calling the mail service. *)
Theorem call_result_invariant :
  (forall (cfg : config) (svc : service) (question session_id : str)
          (agent_id agent_alias_id : option str) (w w' : world) (d : dict),
      AWSHelper.invoke_bedrock_agent cfg svc question session_id
                                     agent_id agent_alias_id w
      = (Ret (Some d), w') ->
      call_result_ok "response" d = true)
  /\
  (forall (sender : str) (self : EmailAutomation.automation)
          (recipient subject html_body : str) (w : EmailAutomation.world),
      exists (d : dict) (w' : EmailAutomation.world),
        EmailAutomation._send_email sender self recipient subject html_body w
        = (Ret d, w')
        /\ if EmailAutomation.enabled self
              && bool_decide (is_Some (EmailAutomation.ses self))
           then call_result_ok "message_id" d = true
           else d = EmailAutomation.not_enabled
                /\ skipped_result_ok d = true
                /\ EmailAutomation.sent w' = EmailAutomation.sent w).
Proof.
  split.
  - intros cfg svc question session_id agent_id agent_alias_id w w' d H.
    rewrite invoke_bedrock_agent_rounds in H.
    apply loop_answer in H. inversion H; reflexivity.
  - intros sender [ses enabled] recipient subject html_body w.
    unfold EmailAutomation._send_email. simpl.
    destruct enabled; simpl.
    + destruct (bool_decide (is_Some ses)); simpl.
      * unfold try_except, bind, EmailAutomation.send_email. simpl.
        destruct (EmailAutomation.ses_service w _ _) as [resp|e]; simpl;
          eexists _, _; (split; [reflexivity|reflexivity]).
      * eexists _, _. split; [reflexivity|]. repeat split.
    + eexists _, _. split; [reflexivity|]. repeat split.
Qed.

Lemma call_result_invariant_witness :
  call_result_ok "response"
    (AWSHelper.success_result (lit "OK") (lit "session-1")) = true.
Proof.
  apply (proj1 call_result_invariant Examples.cfg3 Examples.recovering
           (lit "hi") (lit "session-1") None None Examples.fresh_world
           (World None [Invoked (Examples.request3 (lit "hi")); Slept 5;
                        Invoked (Examples.request3 (lit "hi"))])).
  reflexivity.
Defined.

(** ** No attempts at all *)

(** C8, as stated, fails: with [retries = 0] the chat page's
    [ask_agent] does not fail with an error; it returns [None]. *)
Lemma zero_retries_is_not_an_error :
  fst (ChatAgent.ask_agent Examples.outage (lit "session-1")
         ChatAgent.agent_id ChatAgent.agent_alias_id (lit "hi") 0 5
         Examples.fresh_world)
  = Ret None
  /\ ~ fails_with_error
       (fst (ChatAgent.ask_agent Examples.outage (lit "session-1")
               ChatAgent.agent_id ChatAgent.agent_alias_id (lit "hi") 0 5
               Examples.fresh_world)).
Proof.
  split; [reflexivity|]. intros [e He]. discriminate He.
Qed.

(** C8, amended.  With [retries = 0] no configuration error is raised:
    the two page facades and [invoke_bedrock_agent] (with
    [API_RETRY_COUNT = 0]) return [None] without calling the agent and
    without waiting, and the orchestrator's [ask_agent] replaces a
    [retries] of 0 by [API_RETRY_COUNT]. *)
Theorem zero_retries_returns_none
    (svc : service) (fresh agent_id agent_alias_id question session_id : str)
    (opt_agent_id opt_agent_alias_id : option str) (delay : Z)
    (cfg : config) (w : world) :
  ChatAgent.ask_agent svc fresh agent_id agent_alias_id question 0 delay w
  = (Ret None, World (Some (default fresh (Bedrock.session_id w))) (trace w))
  /\ VoiceAgent.ask_agent svc question 0 delay w = (Ret None, w)
  /\ AWSHelper.invoke_bedrock_agent
       (Config (AGENT_ID cfg) (AGENT_ALIAS_ID cfg) 0 delay) svc
       question session_id opt_agent_id opt_agent_alias_id w
     = (Ret None, w)
  /\ Orchestrator.ask_agent cfg svc question session_id (Some 0)
     = Orchestrator.ask_agent cfg svc question session_id None.
Proof.
  repeat split. by destruct w as [[sid|] tr].
Qed.

(** ** The progress tracker without its table *)

Lemma tracker_without_table (flag : bool) (resource tbl : outcome str)
    (w : ProgressTracker.world) :
  flag = false \/ (exists e, resource = Raise e) \/ (exists e, tbl = Raise e) ->
  exists t w',
    ProgressTracker.__init__ flag resource tbl w = (Ret t, w')
    /\ ProgressTracker.table t = None
    /\ ProgressTracker.calls w' = ProgressTracker.calls w.
Proof.
  intros [->|[[e ->]|[e ->]]].
  - eexists _, _. repeat split.
  - destruct flag; eexists _, _; repeat split.
  - destruct flag, resource; eexists _, _; repeat split.
Qed.

Lemma untagged_record (l : list (string * value)) :
  forallb (fun kv => bool_decide (kv.1 ∈ progress_fields)) l = true ->
  ~ tagged_synthetic (list_to_map l).
Proof.
  intros Hall (k & Hsome & Hnot). apply Hnot.
  destruct (decide (k ∈ l.*1)) as [Hin|Hout].
  - apply list_elem_of_fmap in Hin as (kv & -> & Hkv).
    rewrite forallb_forall in Hall.
    apply list_elem_of_In, Hall in Hkv. by apply bool_decide_eq_true in Hkv.
  - apply (not_elem_of_list_to_map_1 (M := gmap string)) in Hout.
    rewrite Hout in Hsome. by destruct Hsome.
Qed.

(** C5, as stated, fails: the fallback record that [get_progress]
    returns for user "u1" when the tracker has no table has
    [overall_progress = 45] and no field that marks it as synthetic. *)
Lemma mock_progress_is_not_tagged :
  exists d : dict,
    ProgressTracker.get_progress Examples.date_str Examples.degraded_tracker
      (lit "u1") Examples.empty_table
    = (Ret d, Examples.empty_table)
    /\ d !! "overall_progress" = Some (VInt 45)
    /\ ~ tagged_synthetic d.
Proof.
  eexists. split; [reflexivity|]. split; [reflexivity|].
  by apply untagged_record.
Qed.

(** C5, amended.  When the tracker has no table ([self.table] is
    [None], which is what a disabled flag or a failed construction
    leaves), [get_progress(user_id)] makes no call on the store, changes
    nothing, and returns at once the fallback record for that user with
    [overall_progress = 45]; the record has only fields that stored
    progress records have, none that tags it as synthetic. *)
Theorem get_progress_degraded
    (date_str : Z -> str) (self : ProgressTracker.tracker) (user_id : str)
    (w : ProgressTracker.world) :
  ProgressTracker.table self = None ->
  exists d : dict,
    ProgressTracker.get_progress date_str self user_id w = (Ret d, w)
    /\ d !! "overall_progress" = Some (VInt 45)
    /\ d !! "user_id" = Some (VStr user_id)
    /\ ~ tagged_synthetic d.
Proof.
  intros Hnone. unfold ProgressTracker.get_progress. rewrite Hnone.
  eexists. split; [reflexivity|]. split; [reflexivity|].
  split; [reflexivity|]. by apply untagged_record.
Qed.

Lemma get_progress_degraded_witness :
  exists d : dict,
    ProgressTracker.get_progress Examples.date_str Examples.degraded_tracker
      (lit "u1") Examples.empty_table
    = (Ret d, Examples.empty_table)
    /\ d !! "overall_progress" = Some (VInt 45)
    /\ d !! "user_id" = Some (VStr (lit "u1"))
    /\ ~ tagged_synthetic d.
Proof.
  apply (get_progress_degraded Examples.date_str Examples.degraded_tracker
           (lit "u1") Examples.empty_table).
  reflexivity.
Defined.

(** A table that holds the same fields for the user answers with the
    very record that the fallback gives: nothing in the result tells
    the two apart. *)
Lemma stored_record_equals_fallback :
  exists d : dict,
    fst (ProgressTracker.get_progress Examples.date_str
           Examples.degraded_tracker (lit "u1") Examples.empty_table)
    = Ret d
    /\ fst (ProgressTracker.get_progress Examples.date_str
              Examples.live_tracker (lit "u1")
              (ProgressTracker.World {[ lit "u1" := d ]} (fun _ => None)
                                     [] [] 20103))
       = Ret d.
Proof.
  eexists. split; [reflexivity|].
  unfold ProgressTracker.get_progress, try_except, bind,
         ProgressTracker.get_item. simpl.
  by rewrite lookup_singleton_eq.
Qed.

(** The fields of [progress_fields] are those that
    [initialize_progress] writes. *)
Lemma initialize_progress_fields
    (date_str : Z -> str) (self : ProgressTracker.tracker) (user_id : str)
    (user_profile : dict) (w w' : ProgressTracker.world) (d : dict) (k : string) :
  ProgressTracker.initialize_progress date_str self user_id user_profile w
  = (Ret d, w') ->
  is_Some (d !! k) <-> k ∈ progress_fields.
Proof.
  unfold ProgressTracker.initialize_progress, bind, ProgressTracker.clock.
  set (rec := list_to_map _). intros H.
  assert (d = rec) as ->.
  { destruct (ProgressTracker.table self); simpl in H.
    - unfold try_except in H.
      destruct (ProgressTracker.put_item rec w) as [[[]|e] w1];
        simpl in H; by inversion H.
    - by inversion H. }
  subst rec. rewrite <- elem_of_dom, dom_list_to_map_L. simpl.
  unfold progress_fields. set_solver.
Qed.

(** ** The slot search *)

(** C9.  For a non-empty list of preferred slots,
    [find_optimal_time_slot] returns the first slot of the list (with an
    empty list of participants), whatever the employee, the meeting and
    the required participants are and without a read of availability
    data; for an empty list it returns [None]. *)
Theorem find_optimal_time_slot_first
    (employee_id employee_email employee_name meeting_type : str)
    (duration_minutes : Z) (required_participants : list str)
    (first : InterviewScheduler.time_slot)
    (rest : list InterviewScheduler.time_slot)
    (w : InterviewScheduler.world) :
  let w' := InterviewScheduler.World
              (InterviewScheduler.log w
               ++ [("INFO", lit "Finding optimal slot for " ++ meeting_type)])
              (InterviewScheduler.availability_reads w) in
  InterviewScheduler.find_optimal_time_slot employee_id employee_email
    employee_name meeting_type duration_minutes (first :: rest)
    required_participants w
  = (Ret (Some (InterviewScheduler.AvailableSlot first [])), w')
  /\
  InterviewScheduler.find_optimal_time_slot employee_id employee_email
    employee_name meeting_type duration_minutes []
    required_participants w
  = (Ret None, w').
Proof. split; reflexivity. Qed.

(** ** Completing a module twice *)

(** [get_progress] always answers, and only reads. *)
Lemma get_progress_reads_only
    (date_str : Z -> str) (self : ProgressTracker.tracker) (user_id : str)
    (w : ProgressTracker.world) :
  exists (progress : dict) (w' : ProgressTracker.world),
    ProgressTracker.get_progress date_str self user_id w = (Ret progress, w')
    /\ ProgressTracker.items w' = ProgressTracker.items w
    /\ ProgressTracker.puts w' = ProgressTracker.puts w.
Proof.
  unfold ProgressTracker.get_progress.
  destruct (ProgressTracker.table self) as [t|].
  - unfold try_except, bind, ProgressTracker.get_item.
    assert (forall c, ProgressTracker.is_put c = false ->
              ProgressTracker.puts (ProgressTracker.logged c w)
              = ProgressTracker.puts w) as Hput.
    { intros c Hc. unfold ProgressTracker.puts, ProgressTracker.logged. simpl.
      rewrite filter_app. simpl. rewrite filter_cons_False, filter_nil.
      - apply app_nil_r.
      - by rewrite Hc. }
    destruct (ProgressTracker.faults w _) as [e|]; simpl.
    + eexists _, _. split; [reflexivity|]. split; [reflexivity|].
      by apply (Hput (ProgressTracker.GetItem user_id)).
    + destruct (ProgressTracker.items w !! user_id) as [item|]; simpl;
        eexists _, _; (split; [reflexivity|]); (split; [reflexivity|]);
        by apply (Hput (ProgressTracker.GetItem user_id)).
  - eexists _, _. repeat split.
Qed.

Lemma contains_listed (x : str) (l : list value) :
  VStr x ∈ l -> contains x (VList l) = Ret true.
Proof.
  intros Hin. simpl. f_equal. apply existsb_exists.
  exists (VStr x). split; [by apply list_elem_of_In|].
  simpl. unfold str_eqb. by apply bool_decide_eq_true.
Qed.

(** C10.  When the progress record that [get_progress] gives for the
    user already lists the module under [completed_modules],
    [complete_module] returns the success result with the message
    "Module already completed"; it makes no write on the store and the
    stored items are what they were. *)
Theorem complete_module_already_completed
    (date_str : Z -> str) (strptime : str -> option Z)
    (float_percent : Z -> Z -> Z)
    (self : ProgressTracker.tracker) (user_id module_name : str)
    (time_spent_minutes : Z) (w w1 : ProgressTracker.world)
    (progress : dict) (completed : list value) :
  ProgressTracker.get_progress date_str self user_id w = (Ret progress, w1) ->
  progress !! "completed_modules" = Some (VList completed) ->
  VStr module_name ∈ completed ->
  ProgressTracker.complete_module date_str strptime float_percent
    self user_id module_name time_spent_minutes w
  = (Ret ProgressTracker.already_completed, w1)
  /\ ProgressTracker.already_completed !! "success" = Some (VBool true)
  /\ ProgressTracker.already_completed !! "message"
     = Some (VStr (lit "Module already completed"))
  /\ ProgressTracker.items w1 = ProgressTracker.items w
  /\ ProgressTracker.puts w1 = ProgressTracker.puts w.
Proof.
  intros Hget Hlist Hin.
  destruct (get_progress_reads_only date_str self user_id w)
    as (p & w' & Hget' & Hitems & Hputs).
  rewrite Hget in Hget'. inversion Hget'; subst p w'.
  split; [|repeat split; assumption].
  unfold ProgressTracker.complete_module, bind at 1. rewrite Hget.
  unfold get, bind, lift. rewrite Hlist. simpl default.
  rewrite (contains_listed _ _ Hin). reflexivity.
Qed.

Lemma complete_module_already_completed_witness :
  ProgressTracker.complete_module Examples.date_str Examples.strptime
    Examples.float_percent Examples.degraded_tracker (lit "u1")
    (lit "Company Culture") 30 Examples.empty_table
  = (Ret ProgressTracker.already_completed, Examples.empty_table).
Proof.
  eapply (complete_module_already_completed Examples.date_str
            Examples.strptime Examples.float_percent
            Examples.degraded_tracker (lit "u1") (lit "Company Culture") 30
            Examples.empty_table Examples.empty_table).
  - reflexivity.
  - reflexivity.
  - apply list_elem_of_here.
Defined.


(* ------------------------------------------------------------------ *)
(** * Further properties of the retry loops *)

(** ** Whatever the service does *)

Section Shape.

Context {R : Type}.
Variables (svc : service) (r : request) (retries delay : Z).
Variables (ok : str -> R) (exhausted : R) (failed : exn -> R).

Local Abbreviation round :=
  (guarded_attempt svc r retries delay ok exhausted failed).




End Shape.


(** ** What the orchestrator hands to the chat page *)


(** X2.  Every dictionary that the orchestrator's [ask_agent],
    [get_personalized_response] and [route_to_specialist] return has a
    string under [response] (the page that shows it never needs its
    default text) and satisfies the invariant of call results. *)
Theorem orchestrator_results_have_response
    (cfg : config) (svc : service) (question session_id query_type : str)
    (user_profile : gmap string str) (retries : option Z)
    (w w' : world) (d : dict) :
  Orchestrator.ask_agent cfg svc question session_id retries w
    = (Ret (Some d), w')
  \/ Orchestrator.get_personalized_response cfg svc question user_profile
       session_id w = (Ret (Some d), w')
  \/ Orchestrator.route_to_specialist cfg svc query_type question
       session_id w = (Ret (Some d), w') ->
  (exists text, d !! "response" = Some (VStr text))
  /\ call_result_ok "response" d = true.
Proof.
  unfold Orchestrator.get_personalized_response,
         Orchestrator.route_to_specialist.
  intros [H|[H|H]]; rewrite orchestrator_ask_agent_rounds in H;
    apply loop_answer in H; inversion H; (split; [eexists|]); reflexivity.
Qed.

Lemma orchestrator_results_have_response_witness :
  exists text,
    Orchestrator.error_result Examples.invalid_recipient !! "response"
    = Some (VStr text).
Proof.
  apply (orchestrator_results_have_response Examples.cfg3 Examples.refusing
           (lit "hi") (lit "session-1") (lit "progress") ∅ None
           Examples.fresh_world
           (World None [Invoked (Examples.request3 (lit "hi"))])
           (Orchestrator.error_result Examples.invalid_recipient)).
  left. reflexivity.
Defined.


(** ** The loops of the two pages *)

Section Page.

Variables (svc : service) (agent_id agent_alias_id question sid : str).
Variables (retries delay : Z) (sorry : str).

Local Abbreviation r := (Request agent_id agent_alias_id sid question).

(** The round that [pages/chat_agent.py] and [voice_agent.py] share. *)
Local Abbreviation round :=
  (fun attempt : Z =>
     try_except
       (s <- read_session_id ;;
        response <- invoke_agent svc
                      (Request agent_id agent_alias_id s question) ;;
        response_text <- lift (read_completion response) ;;
        ret (Some response_text))
       (fun e =>
          if is_internal_server e then
            if attempt <? retries - 1
            then sleep delay ;; ret None
            else ret (Some sorry)
          else raise e)).

Lemma page_round_success (attempt : Z) (w : world) (text : str) :
  session_id w = Some sid ->
  attempt_outcome (svc (invocations w) r) = Ret text ->
  round attempt w = (Ret (Some text), extend w [Invoked r]).
Proof.
  intros Hs H. unfold try_except, bind, read_session_id, invoke_agent, lift.
  rewrite Hs. unfold attempt_outcome in H.
  destruct (svc (invocations w) r) as [c|e]; [|discriminate].
  simpl. rewrite H. reflexivity.
Qed.

Lemma page_round_raises (attempt : Z) (w : world) (e : exn) :
  session_id w = Some sid ->
  attempt_outcome (svc (invocations w) r) = Raise e ->
  round attempt w
  = (if is_internal_server e then
       if attempt <? retries - 1
       then (sleep delay ;; ret None) else ret (Some sorry)
     else raise e) (extend w [Invoked r]).
Proof.
  intros Hs H. unfold try_except, bind, read_session_id, invoke_agent, lift.
  rewrite Hs. unfold attempt_outcome in H.
  destruct (svc (invocations w) r) as [c|e']; simpl.
  - rewrite H. reflexivity.
  - by inversion H.
Qed.

Lemma page_round_transient_more (attempt : Z) (w : world) :
  session_id w = Some sid ->
  0 <= delay -> attempt < retries - 1 ->
  transient_attempt (svc (invocations w) r) ->
  round attempt w = (Ret None, extend w [Invoked r; Slept delay]).
Proof.
  intros Hs Hd Ha (e & He & Hi).
  rewrite page_round_raises with (e := e) by done. rewrite Hi.
  destruct (Z.ltb_spec attempt (retries - 1)); [|lia].
  unfold bind, sleep, ret. destruct (Z.ltb_spec delay 0); [lia|].
  by rewrite record_extend, extend_extend.
Qed.

Lemma page_round_transient_last (attempt : Z) (w : world) :
  session_id w = Some sid ->
  retries - 1 <= attempt ->
  transient_attempt (svc (invocations w) r) ->
  round attempt w = (Ret (Some sorry), extend w [Invoked r]).
Proof.
  intros Hs Ha (e & He & Hi).
  rewrite page_round_raises with (e := e) by done. rewrite Hi.
  destruct (Z.ltb_spec attempt (retries - 1)); [lia|]. reflexivity.
Qed.

Lemma page_round_shape (attempt : Z) (w : world) :
  session_id w = Some sid ->
  (exists x, round attempt w = (x, extend w [Invoked r]) /\ x <> Ret None)
  \/ (round attempt w = (Ret None, extend w [Invoked r; Slept delay])
      /\ attempt < retries - 1 /\ 0 <= delay
      /\ transient_attempt (svc (invocations w) r)).
Proof.
  intros Hs.
  destruct (attempt_outcome (svc (invocations w) r)) as [text|e] eqn:Ho.
  - left. rewrite page_round_success with (text := text) by done.
    eexists. split; [reflexivity|discriminate].
  - rewrite page_round_raises with (e := e) by done.
    destruct (is_internal_server e) eqn:Hi.
    + destruct (Z.ltb_spec attempt (retries - 1)).
      * unfold bind, sleep, ret. destruct (Z.ltb_spec delay 0).
        -- left. eexists. split; [reflexivity|discriminate].
        -- right. rewrite record_extend, extend_extend.
           split; [done|]. split; [done|]. split; [done|]. by exists e.
      * left. eexists. split; [reflexivity|discriminate].
    + left. eexists. split; [reflexivity|discriminate].
Qed.

Lemma page_loop_backoff (j : nat) :
  0 <= delay ->
  forall (a m : Z) (w : world),
    session_id w = Some sid ->
    Z.of_nat j < m -> a + m = retries ->
    all_transient svc r w j ->
    for_each (seqZ a m) round w
    = for_each (seqZ (a + Z.of_nat j) (m - Z.of_nat j)) round
               (extend w (backoff r delay j)).
Proof.
  intros Hd. induction j as [|j IH]; intros a m w Hs Hm Ham Htr.
  - rewrite extend_nil. f_equal; f_equal; lia.
  - rewrite (seqZ_cons a m) by lia. cbn [for_each]. unfold bind at 1.
    rewrite page_round_transient_more; [|done|done|lia|].
    2:{ specialize (Htr 0%nat). rewrite Nat.add_0_r in Htr. apply Htr. lia. }
    rewrite IH; [|done|lia|lia|].
    + rewrite extend_extend, <- backoff_S. f_equal; f_equal; lia.
    + intros i Hi'. rewrite invocations_extend. simpl.
      replace (invocations w + 1 + i)%nat with (invocations w + S i)%nat by lia.
      apply Htr. lia.
Qed.

Lemma page_loop_enters (j : nat) (w : world) :
  0 <= delay -> session_id w = Some sid -> Z.of_nat j < retries ->
  all_transient svc r w j ->
  for_each (range retries) round w
  = (x <- round (Z.of_nat j) ;;
     match x with
     | Some v => ret (Some v)
     | None => for_each (seqZ (Z.of_nat j + 1) (retries - Z.of_nat j - 1)) round
     end) (extend w (backoff r delay j)).
Proof.
  intros Hd Hs Hj Htr. unfold range.
  rewrite (page_loop_backoff j Hd 0 retries w); [|done|lia|lia|exact Htr].
  rewrite (seqZ_cons (0 + Z.of_nat j)) by lia. cbn [for_each].
  replace (0 + Z.of_nat j) with (Z.of_nat j) by lia.
  replace (Z.pred (retries - Z.of_nat j)) with (retries - Z.of_nat j - 1) by lia.
  replace (Z.succ (Z.of_nat j)) with (Z.of_nat j + 1) by lia.
  reflexivity.
Qed.

Lemma page_loop_exhausted (w : world) :
  1 <= retries -> 0 <= delay -> session_id w = Some sid ->
  all_transient svc r w (Z.to_nat retries) ->
  for_each (range retries) round w
  = (Ret (Some sorry),
     extend w (backoff r delay (Z.to_nat retries - 1) ++ [Invoked r])).
Proof.
  intros Hn Hd Hs Htr.
  rewrite (page_loop_enters (Z.to_nat retries - 1) w Hd Hs); [|lia|].
  2:{ intros i Hi. apply Htr. lia. }
  unfold bind at 1. rewrite page_round_transient_last; [|done|lia|].
  - unfold ret. by rewrite extend_extend.
  - rewrite invocations_extend, backoff_invocations. apply Htr. lia.
Qed.

Lemma page_loop_success (j : nat) (w : world) (text : str) :
  0 <= delay -> session_id w = Some sid -> Z.of_nat j < retries ->
  all_transient svc r w j ->
  attempt_outcome (svc (invocations w + j)%nat r) = Ret text ->
  for_each (range retries) round w
  = (Ret (Some text), extend w (backoff r delay j ++ [Invoked r])).
Proof.
  intros Hd Hs Hj Htr He. rewrite (page_loop_enters j w Hd Hs Hj Htr).
  unfold bind at 1. rewrite page_round_success with (text := text).
  - unfold ret. by rewrite extend_extend.
  - done.
  - rewrite invocations_extend, backoff_invocations. exact He.
Qed.

Lemma page_loop_shape (m : nat) :
  forall (a : Z) (w : world),
    session_id w = Some sid ->
    a + Z.of_nat m = retries ->
    (m = 0%nat /\ for_each (seqZ a (Z.of_nat m)) round w = (Ret None, w))
    \/ exists (j : nat) (x : outcome (option str)),
         (j < m)%nat
         /\ for_each (seqZ a (Z.of_nat m)) round w
            = (x, extend w (backoff r delay j ++ [Invoked r]))
         /\ x <> Ret None.
Proof.
  induction m as [|m IH]; intros a w Hs Ha.
  - left. by split.
  - right. rewrite seqZ_cons by lia. cbn [for_each]. unfold bind at 1.
    replace (Z.pred (Z.of_nat (S m))) with (Z.of_nat m) by lia.
    destruct (page_round_shape a w Hs) as [(x & Hr & Hx)|(Hr & Hlast & _)];
      rewrite Hr.
    + exists 0%nat. destruct x as [[v|]|e].
      * eexists. split; [lia|]. split; [reflexivity|discriminate].
      * done.
      * eexists. split; [lia|]. split; [reflexivity|discriminate].
    + destruct (IH (Z.succ a) (extend w [Invoked r; Slept delay]))
        as [(-> & _)|(j & x & Hj & Hloop & Hx)]; [done|lia|lia|].
      exists (S j), x. split; [lia|]. split; [|done].
      rewrite Hloop, extend_extend, backoff_S. by rewrite <- app_assoc.
Qed.

End Page.

Lemma chat_ask_agent_rounds (svc : service)
    (fresh agent_id agent_alias_id question : str) (retries delay : Z)
    (w : world) :
  ChatAgent.ask_agent svc fresh agent_id agent_alias_id question retries delay w
  = for_each (range retries)
      (fun attempt : Z =>
         try_except
           (s <- read_session_id ;;
            response <- invoke_agent svc
                          (Request agent_id agent_alias_id s question) ;;
            response_text <- lift (read_completion response) ;;
            ret (Some response_text))
           (fun e =>
              if is_internal_server e then
                if attempt <? retries - 1
                then sleep delay ;; ret None
                else ret (Some ChatAgent.unavailable)
              else raise e))
      (World (Some (default fresh (session_id w))) (trace w)).
Proof. by destruct w as [[s|] tr]. Qed.

(** X4.  When every attempt fails with the transient error and
    [retries >= 1], [ask_agent] of the chat page and of the voice page
    call the agent exactly [retries] times, wait [delay] between two
    consecutive calls, and return the sentence "Sorry, the service is
    temporarily unavailable. Please try again later." *)
Theorem page_ask_agent_retry_bound :
  (forall (svc : service) (fresh agent_id agent_alias_id question : str)
          (retries delay : Z) (w : world),
      let sid := default fresh (session_id w) in
      let r := Request agent_id agent_alias_id sid question in
      1 <= retries -> 0 <= delay ->
      all_transient svc r w (Z.to_nat retries) ->
      ChatAgent.ask_agent svc fresh agent_id agent_alias_id question
                          retries delay w
      = (Ret (Some (lit "Sorry, the service is temporarily unavailable. Please try again later.")),
         World (Some sid)
               (trace w ++ backoff r delay (Z.to_nat retries - 1)
                        ++ [Invoked r])))
  /\
  (forall (svc : service) (question sid : str) (retries delay : Z) (w : world),
      let r := Request VoiceAgent.agent_id VoiceAgent.agent_alias_id
                       sid question in
      1 <= retries -> 0 <= delay ->
      session_id w = Some sid ->
      all_transient svc r w (Z.to_nat retries) ->
      VoiceAgent.ask_agent svc question retries delay w
      = (Ret (Some (lit "Sorry, the service is temporarily unavailable. Please try again later.")),
         extend w (backoff r delay (Z.to_nat retries - 1) ++ [Invoked r]))).
Proof.
  split.
  - intros svc fresh agent_id agent_alias_id question retries delay w sid r
           Hn Hd Htr.
    rewrite chat_ask_agent_rounds. fold sid.
    rewrite (page_loop_exhausted svc agent_id agent_alias_id question sid);
      done.
  - intros svc question sid retries delay w r Hn Hd Hs Htr.
    unfold VoiceAgent.ask_agent.
    rewrite (page_loop_exhausted svc VoiceAgent.agent_id
               VoiceAgent.agent_alias_id question sid); done.
Qed.

Lemma page_ask_agent_retry_bound_witness :
  fst (ChatAgent.ask_agent Examples.outage (lit "session-1")
         ChatAgent.agent_id ChatAgent.agent_alias_id (lit "hi") 3 5
         Examples.fresh_world)
  = Ret (Some ChatAgent.unavailable)
  /\
  fst (VoiceAgent.ask_agent Examples.outage (lit "hi") 3 5 Examples.page_world)
  = Ret (Some VoiceAgent.unavailable).
Proof.
  split.
  - rewrite (proj1 page_ask_agent_retry_bound Examples.outage
               (lit "session-1") ChatAgent.agent_id ChatAgent.agent_alias_id
               (lit "hi") 3 5 Examples.fresh_world).
    + reflexivity.
    + lia.
    + lia.
    + intros i _. exists Examples.internal_error. split; reflexivity.
  - rewrite (proj2 page_ask_agent_retry_bound Examples.outage (lit "hi")
               (lit "session-1") 3 5 Examples.page_world).
    + reflexivity.
    + lia.
    + lia.
    + reflexivity.
    + intros i _. exists Examples.internal_error. split; reflexivity.
Defined.

(** X5.  When the [k]-th attempt of a page's [ask_agent] succeeds after
    [k - 1] transient failures ([k <= retries]), the function returns
    the concatenation of the decoded chunks of that attempt, after [k]
    calls and [k - 1] waits. *)
Theorem page_ask_agent_success :
  (forall (svc : service) (fresh agent_id agent_alias_id question : str)
          (retries delay : Z) (w : world) (k : nat) (texts : list str),
      let sid := default fresh (session_id w) in
      let r := Request agent_id agent_alias_id sid question in
      (1 <= k)%nat -> Z.of_nat k <= retries -> 0 <= delay ->
      all_transient svc r w (k - 1) ->
      successful_attempt (svc (invocations w + (k - 1))%nat r) texts ->
      ChatAgent.ask_agent svc fresh agent_id agent_alias_id question
                          retries delay w
      = (Ret (Some (concat texts)),
         World (Some sid)
               (trace w ++ backoff r delay (k - 1) ++ [Invoked r])))
  /\
  (forall (svc : service) (question sid : str) (retries delay : Z)
          (w : world) (k : nat) (texts : list str),
      let r := Request VoiceAgent.agent_id VoiceAgent.agent_alias_id
                       sid question in
      (1 <= k)%nat -> Z.of_nat k <= retries -> 0 <= delay ->
      session_id w = Some sid ->
      all_transient svc r w (k - 1) ->
      successful_attempt (svc (invocations w + (k - 1))%nat r) texts ->
      VoiceAgent.ask_agent svc question retries delay w
      = (Ret (Some (concat texts)),
         extend w (backoff r delay (k - 1) ++ [Invoked r]))).
Proof.
  split.
  - intros svc fresh agent_id agent_alias_id question retries delay w k texts
           sid r Hk Hkn Hd Htr Hok.
    rewrite chat_ask_agent_rounds. fold sid.
    rewrite (page_loop_success svc agent_id agent_alias_id question sid
               retries delay ChatAgent.unavailable (k - 1) _ (concat texts));
      [done|done|done|lia|done|].
    by apply successful_attempt_outcome.
  - intros svc question sid retries delay w k texts r Hk Hkn Hd Hs Htr Hok.
    unfold VoiceAgent.ask_agent.
    rewrite (page_loop_success svc VoiceAgent.agent_id
               VoiceAgent.agent_alias_id question sid
               retries delay VoiceAgent.unavailable (k - 1) _ (concat texts));
      [done|done|done|lia|done|].
    by apply successful_attempt_outcome.
Qed.

Lemma page_ask_agent_success_witness :
  fst (ChatAgent.ask_agent Examples.recovering (lit "session-1")
         ChatAgent.agent_id ChatAgent.agent_alias_id (lit "hi") 3 5
         Examples.fresh_world)
  = Ret (Some (lit "OK"))
  /\
  fst (VoiceAgent.ask_agent Examples.recovering (lit "hi") 3 5
         Examples.page_world)
  = Ret (Some (lit "OK")).
Proof.
  split.
  - rewrite (proj1 page_ask_agent_success Examples.recovering
               (lit "session-1") ChatAgent.agent_id ChatAgent.agent_alias_id
               (lit "hi") 3 5 Examples.fresh_world 2%nat
               [lit "O"; lit "K"]).
    + reflexivity.
    + lia.
    + lia.
    + lia.
    + intros i Hi. assert (i = 0%nat) as -> by (simpl in Hi; lia).
      exists Examples.internal_error. split; reflexivity.
    + eexists. split; [reflexivity|]. split; [reflexivity|].
      repeat constructor.
  - rewrite (proj2 page_ask_agent_success Examples.recovering (lit "hi")
               (lit "session-1") 3 5 Examples.page_world 2%nat
               [lit "O"; lit "K"]).
    + reflexivity.
    + lia.
    + lia.
    + lia.
    + reflexivity.
    + intros i Hi. assert (i = 0%nat) as -> by (simpl in Hi; lia).
      exists Examples.internal_error. split; reflexivity.
    + eexists. split; [reflexivity|]. split; [reflexivity|].
      repeat constructor.
Defined.

(** X6.  The chat page's [ask_agent] keeps the session: whatever the
    service does, the session id after the call is the one that was
    there before (a fresh one only when there was none), at most
    [retries] calls are made, and every call carries that session id
    and the question. *)
Theorem chat_ask_agent_keeps_session
    (svc : service) (fresh agent_id agent_alias_id question : str)
    (retries delay : Z) (w : world) :
  let sid := default fresh (session_id w) in
  let r := Request agent_id agent_alias_id sid question in
  let res := ChatAgent.ask_agent svc fresh agent_id agent_alias_id question
               retries delay w in
  session_id (snd res) = Some sid
  /\ ((retries <= 0 /\ fst res = Ret None /\ trace (snd res) = trace w)
      \/ exists j : nat,
           Z.of_nat j < retries
           /\ trace (snd res) = trace w ++ backoff r delay j ++ [Invoked r]
           /\ fst res <> Ret None).
Proof.
  intros sid r res. unfold res. rewrite chat_ask_agent_rounds. fold sid.
  unfold range. destruct (Z.le_gt_cases retries 0) as [Hle|Hgt].
  - rewrite seqZ_nil by done. simpl. split; [done|]. by left.
  - destruct (page_loop_shape svc agent_id agent_alias_id question sid
                retries delay ChatAgent.unavailable (Z.to_nat retries) 0
                (World (Some sid) (trace w)))
      as [(H0 & _)|(j & x & Hj & H & Hx)]; [done|lia|lia|].
    rewrite Z2Nat.id in H by lia. rewrite H. simpl.
    split; [done|]. right. exists j. split; [lia|]. by split.
Qed.

(** X7.  A negative [delay] makes the chat page's [ask_agent] fail: when
    the first attempt fails with the transient error and another attempt
    is left, [time.sleep] refuses the negative length and its
    [ValueError] reaches the caller after a single call of the agent. *)
Theorem chat_ask_agent_negative_delay
    (svc : service) (fresh agent_id agent_alias_id question : str)
    (retries delay : Z) (w : world) :
  let sid := default fresh (session_id w) in
  let r := Request agent_id agent_alias_id sid question in
  2 <= retries -> delay < 0 ->
  transient_attempt (svc (invocations w) r) ->
  exists e,
    ChatAgent.ask_agent svc fresh agent_id agent_alias_id question
                        retries delay w
    = (Raise e, World (Some sid) (trace w ++ [Invoked r]))
    /\ exn_cls e = OtherException "ValueError".
Proof.
  intros sid r Hn Hd (e & He & Hi).
  rewrite chat_ask_agent_rounds. fold sid. unfold range.
  rewrite seqZ_cons by lia. cbn [for_each]. unfold bind at 1.
  rewrite (page_round_raises svc agent_id agent_alias_id question sid
             retries delay ChatAgent.unavailable 0 _ e); [|done|done].
  rewrite Hi. destruct (Z.ltb_spec 0 (retries - 1)); [|lia].
  unfold bind, sleep. destruct (Z.ltb_spec delay 0); [|lia].
  eexists. split; reflexivity.
Qed.

Lemma chat_ask_agent_negative_delay_witness :
  exists e,
    ChatAgent.ask_agent Examples.outage (lit "session-1")
      ChatAgent.agent_id ChatAgent.agent_alias_id (lit "hi") 3 (-1)
      Examples.fresh_world
    = (Raise e,
       World (Some (lit "session-1"))
             [Invoked (Request ChatAgent.agent_id ChatAgent.agent_alias_id
                               (lit "session-1") (lit "hi"))])
    /\ exn_cls e = OtherException "ValueError".
Proof.
  apply (chat_ask_agent_negative_delay Examples.outage (lit "session-1")
           ChatAgent.agent_id ChatAgent.agent_alias_id (lit "hi") 3 (-1)
           Examples.fresh_world).
  - lia.
  - lia.
  - exists Examples.internal_error. split; reflexivity.
Defined.

(* ------------------------------------------------------------------ *)
(** * Further properties of the progress tracker *)

(** ** Properties of the world that the tracker keeps *)

Section Preserving.

Variable P : ProgressTracker.world -> Prop.






End Preserving.














(** ** Updating a record *)

Lemma calculate_streak_returns (strptime : str -> option Z) (v : value)
    (w : ProgressTracker.world) :
  exists s : Z,
    ProgressTracker._calculate_streak strptime v w = (Ret s, w)
    /\ (s = 0 \/ s = 1).
Proof.
  unfold ProgressTracker._calculate_streak.
  destruct v as [| | |s| |]; try (exists 0; by split; [|left]).
  destruct (strptime s) as [last|]; [|exists 0; by split; [|left]].
  unfold bind, ProgressTracker.clock.
  destruct (_ =? 0); [exists 1; by split; [|right]|].
  destruct (_ =? 1); [exists 1; by split; [|right]|].
  exists 0. by split; [|left].
Qed.

Lemma calculate_streak_today (date_str : Z -> str) (strptime : str -> option Z)
    (w : ProgressTracker.world) :
  strptime (date_str (ProgressTracker.today w)) = Some (ProgressTracker.today w) ->
  ProgressTracker._calculate_streak strptime
    (VStr (date_str (ProgressTracker.today w))) w
  = (Ret 1, w).
Proof.
  intros H. unfold ProgressTracker._calculate_streak. rewrite H.
  unfold bind, ProgressTracker.clock. by rewrite Z.sub_diag.
Qed.

(** The record that [update_progress] builds from the stored one. *)
Lemma update_progress_found (date_str : Z -> str) (strptime : str -> option Z)
    (self : ProgressTracker.tracker) (user_id : str) (update_data : dict)
    (w : ProgressTracker.world) (t : str) (current : dict) :
  ProgressTracker.table self = Some t ->
  ProgressTracker.faults w (length (ProgressTracker.calls w)) = None ->
  ProgressTracker.items w !! user_id = Some current ->
  exists streak : Z,
    (streak = 0 \/ streak = 1)
    /\ (strptime (date_str (ProgressTracker.today w))
        = Some (ProgressTracker.today w) -> streak = 1)
    /\ ProgressTracker.update_progress date_str strptime self user_id
         update_data w
       = let updated : dict :=
           <["learning_streak_days" := VInt streak]>
             (<["last_activity_date" :=
                  VStr (date_str (ProgressTracker.today w))]>
                (update_data ∪ current)) in
         try_except
           (ProgressTracker.put_item updated ;;
            ret (list_to_map [("success", VBool true);
                              ("progress", VDict updated)]))
           (fun e => ret (list_to_map [("success", VBool false);
                                       ("error", VStr (exn_msg e))]))
           (ProgressTracker.logged (ProgressTracker.GetItem user_id) w).
Proof.
  intros Ht Hf Hi.
  set (w1 := ProgressTracker.logged (ProgressTracker.GetItem user_id) w).
  set (dated := <["last_activity_date" :=
                    VStr (date_str (ProgressTracker.today w))]>
                  (update_data ∪ current) : dict).
  assert (get dated "last_activity_date" VNone
          = VStr (date_str (ProgressTracker.today w))) as Hget.
  { unfold get, dated. by rewrite lookup_insert_eq. }
  destruct (calculate_streak_returns strptime
              (VStr (date_str (ProgressTracker.today w))) w1)
    as (streak & Hs & Hrange).
  exists streak. split; [done|]. split.
  - intros Hround.
    pose proof (calculate_streak_today date_str strptime w1 Hround) as H1.
    change (ProgressTracker.today w1) with (ProgressTracker.today w) in H1.
    rewrite Hs in H1. by inversion H1.
  - unfold ProgressTracker.update_progress. rewrite Ht.
    unfold try_except at 1, bind at 1, ProgressTracker.get_item.
    rewrite Hf, Hi. fold w1. unfold bind at 1, ProgressTracker.clock.
    change (ProgressTracker.today w1) with (ProgressTracker.today w).
    fold dated. unfold bind at 1. rewrite Hget, Hs.
    reflexivity.
Qed.

(** Every way [update_progress] can end. *)
Lemma update_progress_outcomes (date_str : Z -> str)
    (strptime : str -> option Z) (self : ProgressTracker.tracker)
    (user_id : str) (update_data : dict) (w : ProgressTracker.world) :
  exists (d : dict) (w' : ProgressTracker.world),
    ProgressTracker.update_progress date_str strptime self user_id
      update_data w = (Ret d, w')
    /\ ((d !! "success" = Some (VBool false)
         /\ ProgressTracker.items w' = ProgressTracker.items w)
        \/ exists (current updated : dict) (key : str) (streak : Z),
             ProgressTracker.items w !! user_id = Some current
             /\ (streak = 0 \/ streak = 1)
             /\ (strptime (date_str (ProgressTracker.today w))
                 = Some (ProgressTracker.today w) -> streak = 1)
             /\ updated
                = <["learning_streak_days" := VInt streak]>
                    (<["last_activity_date" :=
                         VStr (date_str (ProgressTracker.today w))]>
                       (update_data ∪ current))
             /\ updated !! "user_id" = Some (VStr key)
             /\ d !! "success" = Some (VBool true)
             /\ d !! "progress" = Some (VDict updated)
             /\ ProgressTracker.items w'
                = <[key := updated]> (ProgressTracker.items w)).
Proof.
  destruct (ProgressTracker.table self) as [t|] eqn:Ht.
  2:{ unfold ProgressTracker.update_progress. rewrite Ht.
      eexists _, _. split; [reflexivity|]. left. by split. }
  destruct (ProgressTracker.faults w (length (ProgressTracker.calls w)))
    as [e|] eqn:Hf.
  { unfold ProgressTracker.update_progress, try_except, bind,
           ProgressTracker.get_item. rewrite Ht, Hf.
    eexists _, _. split; [reflexivity|]. left. by split. }
  destruct (ProgressTracker.items w !! user_id) as [current|] eqn:Hi.
  2:{ unfold ProgressTracker.update_progress, try_except, bind,
             ProgressTracker.get_item. rewrite Ht, Hf, Hi.
      eexists _, _. split; [reflexivity|]. left. by split. }
  destruct (update_progress_found date_str strptime self user_id update_data
              w t current Ht Hf Hi) as (streak & Hrange & Hround & ->).
  cbv zeta. set (updated := <["learning_streak_days" := VInt streak]> _).
  unfold try_except, bind, ProgressTracker.put_item.
  destruct (ProgressTracker.faults (ProgressTracker.logged _ w) _) as [e|].
  { eexists _, _. split; [reflexivity|]. left. by split. }
  destruct (updated !! "user_id") as [[| | |key| |]|] eqn:Hk;
    try (eexists _, _; split; [reflexivity|]; left; by split).
  eexists _, _. split; [reflexivity|]. right.
  exists current, updated, key, streak. repeat split; done.
Qed.

(** X9.  A successful [update_progress] stores the record it returns:
    the stored record of the user with the fields of [update_data]
    written over it, [last_activity_date] set to today and
    [learning_streak_days] set to 1 (the streak is computed from the
    date just written, so it never grows), whatever streak was stored
    or passed. *)
Theorem update_progress_success
    (date_str : Z -> str) (strptime : str -> option Z)
    (self : ProgressTracker.tracker) (user_id : str) (update_data : dict)
    (w w' : ProgressTracker.world) (d : dict) :
  strptime (date_str (ProgressTracker.today w)) = Some (ProgressTracker.today w) ->
  ProgressTracker.update_progress date_str strptime self user_id update_data w
  = (Ret d, w') ->
  d !! "success" = Some (VBool true) ->
  exists (current updated : dict) (key : str),
    ProgressTracker.items w !! user_id = Some current
    /\ d !! "progress" = Some (VDict updated)
    /\ updated !! "learning_streak_days" = Some (VInt 1)
    /\ updated !! "last_activity_date"
       = Some (VStr (date_str (ProgressTracker.today w)))
    /\ (forall k : string,
          k <> "learning_streak_days" -> k <> "last_activity_date" ->
          updated !! k = (update_data ∪ current) !! k)
    /\ updated !! "user_id" = Some (VStr key)
    /\ ProgressTracker.items w' !! key = Some updated.
Proof.
  intros Hround Hcall Hok.
  destruct (update_progress_outcomes date_str strptime self user_id
              update_data w)
    as (d0 & w0 & Hcall0 & [(Hfail & _)|
         (current & updated & key & streak & Hi & _ & Hs & Hu & Hk & _ & Hp & Hw)]);
    rewrite Hcall in Hcall0; inversion Hcall0; subst d0 w0.
  - rewrite Hok in Hfail. discriminate.
  - exists current, updated, key. rewrite (Hs Hround) in Hu.
    split; [done|]. split; [done|]. subst updated.
    split; [by rewrite lookup_insert_eq|].
    split; [by rewrite lookup_insert_ne, lookup_insert_eq|].
    split; [intros k H1 H2; by rewrite !lookup_insert_ne|].
    split; [done|]. rewrite Hw. by rewrite lookup_insert_eq.
Qed.

Lemma update_progress_success_witness :
  exists (current updated : dict) (key : str),
    ProgressTracker.items Examples.live_table !! lit "u1" = Some current
    /\ updated !! "learning_streak_days" = Some (VInt 1)
    /\ updated !! "overall_progress" = Some (VInt 10).
Proof.
  destruct (update_progress_success Examples.date_str Examples.strptime
              Examples.live_tracker (lit "u1")
              {[ "overall_progress" := VInt 10;
                 "learning_streak_days" := VInt 40 ]}
              Examples.live_table
              (snd (ProgressTracker.update_progress Examples.date_str
                      Examples.strptime Examples.live_tracker (lit "u1")
                      {[ "overall_progress" := VInt 10;
                         "learning_streak_days" := VInt 40 ]}
                      Examples.live_table))
              (list_to_map
                 [("success", VBool true);
                  ("progress",
                   VDict (<["learning_streak_days" := VInt 1]>
                            (<["last_activity_date" := VStr (lit "2025-01-15")]>
                               ({[ "overall_progress" := VInt 10;
                                   "learning_streak_days" := VInt 40 ]}
                                ∪ Examples.stored_progress))))]))
    as (current & updated & key & Hi & _ & Hs & _ & Hother & _).
  - reflexivity.
  - vm_compute. reflexivity.
  - reflexivity.
  - exists current, updated, key. split; [done|]. split; [done|].
    rewrite Hother by done. 
    apply lookup_union_Some_l. reflexivity.
Defined.

(** X10.  [update_progress] never raises and never creates a record:
    it always answers with a dictionary that carries [success]; when
    [success] is false the stored items are what they were, and it is
    false whenever the user has no stored record; without a table no
    call is made at all. *)
Theorem update_progress_failure_is_harmless
    (date_str : Z -> str) (strptime : str -> option Z)
    (self : ProgressTracker.tracker) (user_id : str) (update_data : dict)
    (w : ProgressTracker.world) :
  exists (d : dict) (w' : ProgressTracker.world),
    ProgressTracker.update_progress date_str strptime self user_id
      update_data w = (Ret d, w')
    /\ (d !! "success" = Some (VBool true)
        \/ (d !! "success" = Some (VBool false)
            /\ ProgressTracker.items w' = ProgressTracker.items w))
    /\ match ProgressTracker.items w !! user_id with
       | Some _ => True
       | None => d !! "success" = Some (VBool false)
       end
    /\ match ProgressTracker.table self with
       | Some _ => True
       | None => w' = w
                 /\ d !! "message"
                    = Some (VStr (lit "Progress tracking not available"))
       end.
Proof.
  destruct (update_progress_outcomes date_str strptime self user_id
              update_data w)
    as (d & w' & Hcall & Hcases).
  exists d, w'. split; [done|]. split; [|split].
  - destruct Hcases as [H|(c & u & k & s & _ & _ & _ & _ & _ & Hok & _)];
      [by right|by left].
  - destruct Hcases as [[H _]|(c & u & k & s & Hi & _)].
    + by destruct (ProgressTracker.items w !! user_id).
    + by rewrite Hi.
  - destruct (ProgressTracker.table self) eqn:Ht; [done|].
    unfold ProgressTracker.update_progress in Hcall. rewrite Ht in Hcall.
    by inversion Hcall.
Qed.

Lemma update_progress_key (update_data current : dict) (streak : Z) (today : str)
    (user_id : str) :
  update_data !! "user_id" = None ->
  current !! "user_id" = Some (VStr user_id) ->
  (<["learning_streak_days" := VInt streak]>
     (<["last_activity_date" := VStr today]> (update_data ∪ current)) : dict)
    !! "user_id" = Some (VStr user_id).
Proof.
  intros Hu Hc. rewrite !lookup_insert_ne by done.
  by rewrite lookup_union_r.
Qed.

(** X11.  [update_progress] for one user leaves the records of the
    others alone: on a keyed table, and with no [user_id] among the
    fields to update, the stored record of every other user is the same
    after the call, whatever the outcome. *)
Theorem update_progress_isolates_users
    (date_str : Z -> str) (strptime : str -> option Z)
    (self : ProgressTracker.tracker) (user_id other : str)
    (update_data : dict) (w : ProgressTracker.world) :
  ProgressTracker.keyed w ->
  update_data !! "user_id" = None ->
  other <> user_id ->
  ProgressTracker.items
    (snd (ProgressTracker.update_progress date_str strptime self user_id
            update_data w)) !! other
  = ProgressTracker.items w !! other.
Proof.
  intros Hkeyed Hu Hne.
  destruct (update_progress_outcomes date_str strptime self user_id
              update_data w)
    as (d & w' & Hcall & [[_ Hsame]|
         (current & updated & key & streak & Hi & _ & _ & -> & Hk & _ & _ & Hw)]);
    rewrite Hcall; simpl.
  - by rewrite Hsame.
  - rewrite (update_progress_key _ _ _ _ user_id Hu (Hkeyed _ _ Hi)) in Hk.
    inversion Hk; subst key. rewrite Hw. by rewrite lookup_insert_ne.
Qed.

Lemma update_progress_isolates_users_witness :
  ProgressTracker.items
    (snd (ProgressTracker.update_progress Examples.date_str Examples.strptime
            Examples.live_tracker (lit "u1")
            {[ "overall_progress" := VInt 10 ]} Examples.live_table))
    !! lit "u2"
  = None.
Proof.
  rewrite (update_progress_isolates_users Examples.date_str Examples.strptime
             Examples.live_tracker (lit "u1") (lit "u2")
             {[ "overall_progress" := VInt 10 ]} Examples.live_table).
  - reflexivity.
  - intros k item. unfold Examples.live_table. simpl.
    destruct (decide (k = lit "u1")) as [->|Hne].
    + rewrite lookup_singleton_eq. by intros [= <-].
    + by rewrite lookup_singleton_ne.
  - reflexivity.
  - discriminate.
Defined.

(** X12.  A [user_id] among the fields to update redirects the write:
    when [update_progress(user_id, update_data)] succeeds and
    [update_data] names another user, the updated record is stored
    under that other user's key and the record of the user addressed
    stays as it was. *)
Theorem update_progress_user_id_redirects
    (date_str : Z -> str) (strptime : str -> option Z)
    (self : ProgressTracker.tracker) (user_id other : str)
    (update_data : dict) (w w' : ProgressTracker.world) (d : dict) :
  update_data !! "user_id" = Some (VStr other) ->
  other <> user_id ->
  ProgressTracker.update_progress date_str strptime self user_id update_data w
  = (Ret d, w') ->
  d !! "success" = Some (VBool true) ->
  ProgressTracker.items w' !! user_id = ProgressTracker.items w !! user_id
  /\ exists updated : dict,
       ProgressTracker.items w' !! other = Some updated
       /\ d !! "progress" = Some (VDict updated)
       /\ updated !! "user_id" = Some (VStr other).
Proof.
  intros Hu Hne Hcall Hok.
  destruct (update_progress_outcomes date_str strptime self user_id
              update_data w)
    as (d0 & w0 & Hcall0 & [(Hfail & _)|
         (current & updated & key & streak & Hi & _ & _ & Hupd & Hk & _ & Hp & Hw)]);
    rewrite Hcall in Hcall0; inversion Hcall0; subst d0 w0.
  - rewrite Hok in Hfail. discriminate.
  - assert (key = other) as ->.
    { rewrite Hupd in Hk. rewrite !lookup_insert_ne in Hk by done.
      rewrite (lookup_union_Some_l _ _ _ _ Hu) in Hk. by inversion Hk. }
    rewrite Hw. split; [by rewrite lookup_insert_ne|].
    exists updated. by rewrite lookup_insert_eq.
Qed.

Lemma update_progress_user_id_redirects_witness :
  ProgressTracker.items
    (snd (ProgressTracker.update_progress Examples.date_str Examples.strptime
            Examples.live_tracker (lit "u1")
            {[ "user_id" := VStr (lit "u2") ]} Examples.live_table))
    !! lit "u1"
  = Some Examples.stored_progress.
Proof.
  pose (res := ProgressTracker.update_progress Examples.date_str
                 Examples.strptime Examples.live_tracker (lit "u1")
                 {[ "user_id" := VStr (lit "u2") ]} Examples.live_table).
  destruct (update_progress_user_id_redirects Examples.date_str
              Examples.strptime Examples.live_tracker (lit "u1") (lit "u2")
              {[ "user_id" := VStr (lit "u2") ]} Examples.live_table
              (snd res)
              (match fst res with Ret d => d | Raise _ => ∅ end))
    as [Hsame _].
  - reflexivity.
  - discriminate.
  - vm_compute. reflexivity.
  - vm_compute. reflexivity.
  - fold res. rewrite Hsame. vm_compute. reflexivity.
Defined.

(** ** Completing a module that is not yet listed *)

Lemma remove_first_absent (x : str) (l : list value) :
  existsb (elem_is x) l = false -> remove_first x l = l.
Proof.
  induction l as [|v l IH]; simpl; [done|].
  intros H. apply orb_false_iff in H as [Hv Hl].
  rewrite Hv. f_equal. by apply IH.
Qed.

(** What [complete_module] hands to [update_progress] when the record
    has its lists and its time and does not list the module. *)
Lemma complete_module_new (date_str : Z -> str) (strptime : str -> option Z)
    (float_percent : Z -> Z -> Z) (self : ProgressTracker.tracker)
    (user_id module_name : str) (time_spent_minutes : Z)
    (w w1 : ProgressTracker.world) (progress : dict)
    (completed in_progress upcoming : list value) (total_time : Z) :
  ProgressTracker.get_progress date_str self user_id w = (Ret progress, w1) ->
  get progress "completed_modules" (VList []) = VList completed ->
  existsb (elem_is module_name) completed = false ->
  get progress "in_progress_modules" (VList []) = VList in_progress ->
  get progress "upcoming_modules" (VList []) = VList upcoming ->
  get progress "total_learning_time_minutes" (VInt 0) = VInt total_time ->
  ProgressTracker.complete_module date_str strptime float_percent self
    user_id module_name time_spent_minutes w
  = ProgressTracker.update_progress date_str strptime self user_id
      (let in_progress' := remove_first module_name in_progress in
       let total_modules :=
         Z.of_nat (length (completed ++ [VStr module_name]))
         + Z.of_nat (length in_progress') + Z.of_nat (length upcoming) in
       list_to_map
         [("completed_modules", VList (completed ++ [VStr module_name]));
          ("in_progress_modules", VList in_progress');
          ("total_learning_time_minutes", VInt (total_time + time_spent_minutes));
          ("overall_progress",
           VInt (if 0 <? total_modules
                 then float_percent
                        (Z.of_nat (length (completed ++ [VStr module_name])))
                        total_modules
                 else 0))])
      w1.
Proof.
  intros Hget Hc Hnew Hp Hu Ht.
  unfold ProgressTracker.complete_module, bind at 1. rewrite Hget.
  rewrite Hc, Hp, Hu, Ht. unfold bind, lift, contains. rewrite Hnew.
  destruct (existsb (elem_is module_name) in_progress) eqn:Hin.
  - reflexivity.
  - rewrite (remove_first_absent _ _ Hin). reflexivity.
Qed.

Lemma complete_module_listed (date_str : Z -> str) (strptime : str -> option Z)
    (float_percent : Z -> Z -> Z) (self : ProgressTracker.tracker)
    (user_id module_name : str) (time_spent_minutes : Z)
    (w w1 : ProgressTracker.world) (progress : dict) (completed : list value) :
  ProgressTracker.get_progress date_str self user_id w = (Ret progress, w1) ->
  get progress "completed_modules" (VList []) = VList completed ->
  existsb (elem_is module_name) completed = true ->
  ProgressTracker.complete_module date_str strptime float_percent self
    user_id module_name time_spent_minutes w
  = (Ret ProgressTracker.already_completed, w1).
Proof.
  intros Hget Hc Hlisted.
  unfold ProgressTracker.complete_module, bind at 1. rewrite Hget.
  rewrite Hc. unfold bind, lift, contains. by rewrite Hlisted.
Qed.

Lemma update_progress_absent (date_str : Z -> str) (strptime : str -> option Z)
    (self : ProgressTracker.tracker) (user_id : str) (update_data : dict)
    (w : ProgressTracker.world) :
  ProgressTracker.items w !! user_id = None ->
  exists (d : dict) (w' : ProgressTracker.world),
    ProgressTracker.update_progress date_str strptime self user_id
      update_data w = (Ret d, w')
    /\ d !! "success" = Some (VBool false)
    /\ ProgressTracker.items w' = ProgressTracker.items w
    /\ ProgressTracker.puts w' = ProgressTracker.puts w.
Proof.
  intros Hi. unfold ProgressTracker.update_progress.
  destruct (ProgressTracker.table self); [|by eexists _, _].
  unfold try_except, bind, ProgressTracker.get_item. rewrite Hi.
  assert (ProgressTracker.puts
            (ProgressTracker.logged (ProgressTracker.GetItem user_id) w)
          = ProgressTracker.puts w) as Hputs.
  { unfold ProgressTracker.puts, ProgressTracker.logged. simpl.
    rewrite filter_app. simpl. rewrite filter_cons_False by done.
    by rewrite filter_nil, app_nil_r. }
  destruct (ProgressTracker.faults w _); by eexists _, _.
Qed.

(** X13.  [complete_module] never creates a record: for a user without
    a stored record it works on the fallback record, writes nothing
    whatever the table does, and answers either "Module already
    completed" (for a module that the fallback record lists) or a
    failure. *)
Theorem complete_module_unknown_user
    (date_str : Z -> str) (strptime : str -> option Z)
    (float_percent : Z -> Z -> Z) (self : ProgressTracker.tracker)
    (user_id module_name : str) (time_spent_minutes : Z)
    (w : ProgressTracker.world) :
  ProgressTracker.items w !! user_id = None ->
  exists (d : dict) (w' : ProgressTracker.world),
    ProgressTracker.complete_module date_str strptime float_percent self
      user_id module_name time_spent_minutes w = (Ret d, w')
    /\ ProgressTracker.items w' = ProgressTracker.items w
    /\ ProgressTracker.puts w' = ProgressTracker.puts w
    /\ ((d = ProgressTracker.already_completed
         /\ module_name ∈ [lit "Company Culture"; lit "IT Systems Setup"])
        \/ (d !! "success" = Some (VBool false)
            /\ module_name ∉ [lit "Company Culture"; lit "IT Systems Setup"])).
Proof.
  intros Hi.
  destruct (get_progress_reads_only date_str self user_id w)
    as (progress & w1 & Hget & Hitems & Hputs).
  assert (fst (ProgressTracker._get_mock_progress date_str user_id w)
          = Ret progress) as Hmock.
  { unfold ProgressTracker.get_progress in Hget.
    destruct (ProgressTracker.table self); [|by inversion Hget].
    unfold try_except, bind, ProgressTracker.get_item in Hget. rewrite Hi in Hget.
    destruct (ProgressTracker.faults w _); by inversion Hget. }
  unfold ProgressTracker._get_mock_progress, bind, ProgressTracker.clock in Hmock.
  simpl in Hmock. inversion Hmock as [Hprogress]. clear Hmock.
  assert (existsb (elem_is module_name)
            [VStr (lit "Company Culture"); VStr (lit "IT Systems Setup")] = true
          <-> module_name ∈ [lit "Company Culture"; lit "IT Systems Setup"])
    as Hlisted.
  { simpl. unfold str_eqb.
    rewrite !orb_true_iff, !bool_decide_eq_true, !elem_of_cons.
    rewrite elem_of_nil. intuition discriminate. }
  destruct (existsb (elem_is module_name)
              [VStr (lit "Company Culture"); VStr (lit "IT Systems Setup")])
    eqn:Hl.
  - exists ProgressTracker.already_completed, w1.
    split; [|split; [done|split; [done|]]].
    + apply (complete_module_listed date_str strptime float_percent self
               user_id module_name time_spent_minutes w w1 progress
               [VStr (lit "Company Culture"); VStr (lit "IT Systems Setup")]);
        try done; by rewrite <- Hprogress.
    + left. split; [done|]. by apply Hlisted.
  - destruct (update_progress_absent date_str strptime self user_id
                (let in_progress' :=
                   remove_first module_name
                     [VStr (lit "Role-Specific Training")] in
                 let total_modules :=
                   Z.of_nat (length ([VStr (lit "Company Culture");
                                      VStr (lit "IT Systems Setup")]
                                     ++ [VStr module_name]))
                   + Z.of_nat (length in_progress')
                   + Z.of_nat (length [VStr (lit "Team Collaboration");
                                       VStr (lit "Advanced Skills")]) in
                 list_to_map
                   [("completed_modules",
                     VList ([VStr (lit "Company Culture");
                             VStr (lit "IT Systems Setup")]
                            ++ [VStr module_name]));
                    ("in_progress_modules", VList in_progress');
                    ("total_learning_time_minutes",
                     VInt (180 + time_spent_minutes));
                    ("overall_progress",
                     VInt (if 0 <? total_modules
                           then float_percent
                                  (Z.of_nat
                                     (length ([VStr (lit "Company Culture");
                                               VStr (lit "IT Systems Setup")]
                                              ++ [VStr module_name])))
                                  total_modules
                           else 0))])
                w1)
      as (d & w' & Hupd & Hfail & Hitems' & Hputs'); [by rewrite Hitems|].
    exists d, w'. split; [|split; [congruence|split; [congruence|]]].
    + rewrite <- Hupd.
      apply (complete_module_new date_str strptime float_percent self user_id
               module_name time_spent_minutes w w1 progress
               [VStr (lit "Company Culture"); VStr (lit "IT Systems Setup")]
               [VStr (lit "Role-Specific Training")]
               [VStr (lit "Team Collaboration"); VStr (lit "Advanced Skills")]
               180); try done; by rewrite <- Hprogress.
    + right. split; [done|]. intros Hin. apply Hlisted in Hin. discriminate.
Qed.

Lemma complete_module_unknown_user_witness :
  exists (d : dict) (w' : ProgressTracker.world),
    ProgressTracker.complete_module Examples.date_str Examples.strptime
      Examples.float_percent Examples.live_tracker (lit "u9")
      (lit "Team Collaboration") 30 Examples.live_table = (Ret d, w')
    /\ ProgressTracker.items w' = ProgressTracker.items Examples.live_table
    /\ d !! "success" = Some (VBool false).
Proof.
  destruct (complete_module_unknown_user Examples.date_str Examples.strptime
              Examples.float_percent Examples.live_tracker (lit "u9")
              (lit "Team Collaboration") 30 Examples.live_table)
    as (d & w' & Hcall & Hitems & _ & [[_ Hin]|[Hfail _]]).
  - reflexivity.
  - exfalso. apply list_elem_of_In in Hin. simpl in Hin.
    destruct Hin as [H|[H|[]]]; discriminate H.
  - exists d, w'. by repeat split.
Defined.

Lemma get_progress_stored (date_str : Z -> str)
    (self : ProgressTracker.tracker) (user_id t : str)
    (w : ProgressTracker.world) (item : dict) :
  ProgressTracker.table self = Some t ->
  ProgressTracker.faults w (length (ProgressTracker.calls w)) = None ->
  ProgressTracker.items w !! user_id = Some item ->
  ProgressTracker.get_progress date_str self user_id w
  = (Ret item, ProgressTracker.logged (ProgressTracker.GetItem user_id) w).
Proof.
  intros Ht Hf Hi. unfold ProgressTracker.get_progress. rewrite Ht.
  unfold try_except, bind, ProgressTracker.get_item. by rewrite Hf, Hi.
Qed.

Lemma puts_logged_get (user_id : str) (w : ProgressTracker.world) :
  ProgressTracker.puts
    (ProgressTracker.logged (ProgressTracker.GetItem user_id) w)
  = ProgressTracker.puts w.
Proof.
  unfold ProgressTracker.puts, ProgressTracker.logged. simpl.
  rewrite filter_app. simpl. rewrite filter_cons_False by done.
  by rewrite filter_nil, app_nil_r.
Qed.

(** X14.  Completing a module is idempotent across calls.  On a table
    that answers, for a user whose stored record (kept under its own
    [user_id]) has its module lists and its learning time and does not
    list the module: the first [complete_module] succeeds and stores
    the record with the module appended to [completed_modules], removed
    once from [in_progress_modules] and the minutes added; a second
    [complete_module] for the same module then answers "Module already
    completed" and writes nothing. *)
Theorem complete_module_then_again
    (date_str : Z -> str) (strptime : str -> option Z)
    (float_percent : Z -> Z -> Z) (self : ProgressTracker.tracker)
    (t user_id module_name : str) (time_spent_minutes : Z)
    (w : ProgressTracker.world) (item : dict)
    (completed in_progress upcoming : list value) (total_time : Z) :
  ProgressTracker.table self = Some t ->
  ProgressTracker.reliable w ->
  ProgressTracker.items w !! user_id = Some item ->
  item !! "user_id" = Some (VStr user_id) ->
  get item "completed_modules" (VList []) = VList completed ->
  existsb (elem_is module_name) completed = false ->
  get item "in_progress_modules" (VList []) = VList in_progress ->
  get item "upcoming_modules" (VList []) = VList upcoming ->
  get item "total_learning_time_minutes" (VInt 0) = VInt total_time ->
  exists (d1 stored : dict) (w1 w2 : ProgressTracker.world),
    ProgressTracker.complete_module date_str strptime float_percent self
      user_id module_name time_spent_minutes w = (Ret d1, w1)
    /\ d1 !! "success" = Some (VBool true)
    /\ d1 !! "progress" = Some (VDict stored)
    /\ ProgressTracker.items w1 = <[user_id := stored]> (ProgressTracker.items w)
    /\ stored !! "completed_modules"
       = Some (VList (completed ++ [VStr module_name]))
    /\ stored !! "in_progress_modules"
       = Some (VList (remove_first module_name in_progress))
    /\ stored !! "total_learning_time_minutes"
       = Some (VInt (total_time + time_spent_minutes))
    /\ ProgressTracker.complete_module date_str strptime float_percent self
         user_id module_name time_spent_minutes w1
       = (Ret ProgressTracker.already_completed, w2)
    /\ ProgressTracker.items w2 = ProgressTracker.items w1
    /\ ProgressTracker.puts w2 = ProgressTracker.puts w1.
Proof.
  intros Ht Hrel Hi Hkey Hc Hnew Hp Hu Htime.
  pose proof (get_progress_stored date_str self user_id t w item Ht
                (Hrel _) Hi) as Hget.
  rewrite (complete_module_new date_str strptime float_percent self user_id
             module_name time_spent_minutes w _ item completed in_progress
             upcoming total_time Hget Hc Hnew Hp Hu Htime).
  cbv zeta. set (update_data := list_to_map _ : dict).
  set (wg := ProgressTracker.logged (ProgressTracker.GetItem user_id) w).
  destruct (update_progress_found date_str strptime self user_id update_data
              wg t item Ht (Hrel _) Hi) as (streak & _ & _ & ->).
  cbv zeta. set (stored := <["learning_streak_days" := VInt streak]> _).
  assert (stored !! "user_id" = Some (VStr user_id)) as Hstored_key.
  { by apply update_progress_key. }
  unfold try_except at 1, bind at 1, ProgressTracker.put_item at 1.
  change (ProgressTracker.faults
            (ProgressTracker.logged (ProgressTracker.GetItem user_id) wg))
    with (ProgressTracker.faults w).
  rewrite (Hrel _), Hstored_key. unfold ret.
  set (w1 := ProgressTracker.World _ _ _ _ _).
  assert (stored !! "completed_modules"
          = Some (VList (completed ++ [VStr module_name]))) as Hdone.
  { unfold stored. rewrite !lookup_insert_ne by done.
    by apply lookup_union_Some_l. }
  assert (ProgressTracker.get_progress date_str self user_id w1
          = (Ret stored,
             ProgressTracker.logged (ProgressTracker.GetItem user_id) w1))
    as Hget1.
  { apply (get_progress_stored date_str self user_id t); [done|apply Hrel|].
    unfold w1. simpl. by rewrite lookup_insert_eq. }
  exists (list_to_map [("success", VBool true); ("progress", VDict stored)]),
         stored, w1,
         (ProgressTracker.logged (ProgressTracker.GetItem user_id) w1).
  split; [done|]. split; [done|]. split; [done|]. split; [done|].
  split; [done|]. split.
  { unfold stored. rewrite !lookup_insert_ne by done.
    by apply lookup_union_Some_l. }
  split.
  { unfold stored. rewrite !lookup_insert_ne by done.
    by apply lookup_union_Some_l. }
  split; [|split; [done|apply puts_logged_get]].
  apply (complete_module_listed date_str strptime float_percent self user_id
           module_name time_spent_minutes w1 _ stored
           (completed ++ [VStr module_name]) Hget1).
  - unfold get. by rewrite Hdone.
  - rewrite existsb_app. simpl. unfold str_eqb.
    rewrite bool_decide_eq_true_2 by done. apply orb_true_r.
Qed.

Lemma complete_module_then_again_witness :
  exists (d1 stored : dict) (w1 w2 : ProgressTracker.world),
    ProgressTracker.complete_module Examples.date_str Examples.strptime
      Examples.float_percent Examples.live_tracker (lit "u1") (lit "A") 30
      Examples.live_table = (Ret d1, w1)
    /\ stored !! "completed_modules" = Some (VList [VStr (lit "A")])
    /\ stored !! "in_progress_modules" = Some (VList [])
    /\ ProgressTracker.complete_module Examples.date_str Examples.strptime
         Examples.float_percent Examples.live_tracker (lit "u1") (lit "A") 30
         w1 = (Ret ProgressTracker.already_completed, w2).
Proof.
  destruct (complete_module_then_again Examples.date_str Examples.strptime
              Examples.float_percent Examples.live_tracker
              (lit "onboarding-progress") (lit "u1") (lit "A") 30
              Examples.live_table Examples.stored_progress
              [] [VStr (lit "A")] [VStr (lit "B")] 0)
    as (d1 & stored & w1 & w2 & H1 & _ & _ & _ & Hc & Hp & _ & H2 & _).
  - reflexivity.
  - intros n. reflexivity.
  - reflexivity.
  - reflexivity.
  - reflexivity.
  - reflexivity.
  - reflexivity.
  - reflexivity.
  - reflexivity.
  - exists d1, stored, w1, w2. split; [exact H1|].
    split; [exact Hc|]. split; [exact Hp|exact H2].
Defined.

(** ** Reading, and the first write *)

(** X15.  [get_progress] never raises and never writes: it returns the
    stored record when the tracker has its table, the read succeeds and
    the user has a record, and the fallback record in every other case
    (no table, a failing read, no record); a failing read prints one
    line and nothing else does. *)
Theorem get_progress_falls_back
    (date_str : Z -> str) (self : ProgressTracker.tracker) (user_id : str)
    (w : ProgressTracker.world) :
  exists (mock d : dict) (w' : ProgressTracker.world),
    fst (ProgressTracker._get_mock_progress date_str user_id w) = Ret mock
    /\ ProgressTracker.get_progress date_str self user_id w = (Ret d, w')
    /\ d = match ProgressTracker.table self,
                 ProgressTracker.faults w (length (ProgressTracker.calls w)),
                 ProgressTracker.items w !! user_id with
           | Some _, None, Some item => item
           | _, _, _ => mock
           end
    /\ ProgressTracker.items w' = ProgressTracker.items w
    /\ ProgressTracker.puts w' = ProgressTracker.puts w
    /\ ProgressTracker.calls w'
       = match ProgressTracker.table self with
         | Some _ => ProgressTracker.calls w ++ [ProgressTracker.GetItem user_id]
         | None => ProgressTracker.calls w
         end
    /\ ProgressTracker.stdout w'
       = match ProgressTracker.table self,
               ProgressTracker.faults w (length (ProgressTracker.calls w)) with
         | Some _, Some e =>
           ProgressTracker.stdout w
           ++ [lit "Error getting progress: " ++ exn_msg e]
         | _, _ => ProgressTracker.stdout w
         end.
Proof.
  unfold ProgressTracker.get_progress.
  destruct (ProgressTracker.table self) as [t|].
  - unfold try_except, bind, ProgressTracker.get_item.
    destruct (ProgressTracker.faults w _) as [e|].
    + eexists _, _, _. split; [reflexivity|]. split; [reflexivity|].
      repeat split. apply puts_logged_get.
    + destruct (ProgressTracker.items w !! user_id) as [item|];
        eexists _, _, _; (split; [reflexivity|]); (split; [reflexivity|]);
        repeat split; apply puts_logged_get.
  - eexists _, _, _. split; [reflexivity|]. split; [reflexivity|].
    repeat split.
Qed.

(** X16.  [initialize_progress] returns the initial record of the user
    whether or not it could be stored (a failing write is only
    printed); on a tracker with its table, when the write and the next
    read succeed, [get_progress] then returns exactly that record. *)
Theorem initialize_then_get_progress
    (date_str : Z -> str) (self : ProgressTracker.tracker)
    (t user_id : str) (user_profile : dict) (w : ProgressTracker.world) :
  ProgressTracker.table self = Some t ->
  ProgressTracker.faults w (length (ProgressTracker.calls w)) = None ->
  ProgressTracker.faults w (S (length (ProgressTracker.calls w))) = None ->
  exists (initial : dict) (w1 w2 : ProgressTracker.world),
    ProgressTracker.initialize_progress date_str self user_id user_profile w
    = (Ret initial, w1)
    /\ initial !! "user_id" = Some (VStr user_id)
    /\ initial !! "overall_progress" = Some (VInt 0)
    /\ initial !! "completed_modules" = Some (VList [])
    /\ initial !! "role"
       = Some (get user_profile "role" (VStr (lit "Unknown")))
    /\ ProgressTracker.items w1 = <[user_id := initial]> (ProgressTracker.items w)
    /\ ProgressTracker.get_progress date_str self user_id w1
       = (Ret initial, w2).
Proof.
  intros Ht Hf0 Hf1.
  unfold ProgressTracker.initialize_progress. rewrite Ht.
  unfold bind at 1, ProgressTracker.clock.
  set (initial := list_to_map _ : dict).
  unfold bind, try_except, ProgressTracker.put_item. rewrite Hf0.
  change (initial !! "user_id") with (Some (VStr user_id)). cbv iota beta.
  set (w1 := ProgressTracker.World _ _ _ _ _).
  exists initial, w1,
         (ProgressTracker.logged (ProgressTracker.GetItem user_id) w1).
  split; [done|]. split; [done|]. split; [done|]. split; [done|].
  split; [done|]. split; [done|].
  apply (get_progress_stored date_str self user_id t); [done| |].
  - unfold w1. simpl. rewrite length_app. simpl.
    by rewrite Nat.add_1_r.
  - unfold w1. simpl. by rewrite lookup_insert_eq.
Qed.

Lemma initialize_then_get_progress_witness :
  exists (initial : dict) (w1 w2 : ProgressTracker.world),
    ProgressTracker.initialize_progress Examples.date_str
      Examples.live_tracker (lit "u7") ∅ Examples.empty_table
    = (Ret initial, w1)
    /\ ProgressTracker.get_progress Examples.date_str Examples.live_tracker
         (lit "u7") w1
       = (Ret initial, w2).
Proof.
  destruct (initialize_then_get_progress Examples.date_str
              Examples.live_tracker (lit "onboarding-progress") (lit "u7")
              ∅ Examples.empty_table)
    as (initial & w1 & w2 & Hinit & _ & _ & _ & _ & _ & Hget).
  - reflexivity.
  - reflexivity.
  - reflexivity.
  - exists initial, w1, w2. split; [exact Hinit|exact Hget].
Defined.

(** X17.  A write that fails is silent for the caller of
    [initialize_progress]: whatever the table does, the function
    returns the same initial record without raising, and when the write
    fails the stored items are what they were and one line is
    printed. *)
Theorem initialize_progress_failure_is_silent
    (date_str : Z -> str) (self : ProgressTracker.tracker)
    (t user_id : str) (user_profile : dict) (w : ProgressTracker.world)
    (e : exn) :
  ProgressTracker.table self = Some t ->
  ProgressTracker.faults w (length (ProgressTracker.calls w)) = Some e ->
  exists (initial : dict) (w1 : ProgressTracker.world),
    ProgressTracker.initialize_progress date_str self user_id user_profile w
    = (Ret initial, w1)
    /\ fst (ProgressTracker.initialize_progress date_str
              (ProgressTracker.Tracker None None) user_id user_profile w)
       = Ret initial
    /\ ProgressTracker.items w1 = ProgressTracker.items w
    /\ ProgressTracker.stdout w1
       = ProgressTracker.stdout w
         ++ [lit "Error initializing progress: " ++ exn_msg e].
Proof.
  intros Ht Hf.
  unfold ProgressTracker.initialize_progress. rewrite Ht.
  unfold bind, try_except, ProgressTracker.clock, ProgressTracker.put_item.
  rewrite Hf. by eexists _, _.
Qed.

Lemma initialize_progress_failure_is_silent_witness :
  exists (initial : dict) (w1 : ProgressTracker.world),
    ProgressTracker.initialize_progress Examples.date_str
      Examples.live_tracker (lit "u7") ∅
      (ProgressTracker.World ∅ (fun _ => Some Examples.invalid_recipient)
                             [] [] 20103)
    = (Ret initial, w1)
    /\ ProgressTracker.items w1 = ∅.
Proof.
  destruct (initialize_progress_failure_is_silent Examples.date_str
              Examples.live_tracker (lit "onboarding-progress") (lit "u7") ∅
              (ProgressTracker.World ∅ (fun _ => Some Examples.invalid_recipient)
                                     [] [] 20103)
              Examples.invalid_recipient)
    as (initial & w1 & Hinit & _ & Hitems & _).
  - reflexivity.
  - reflexivity.
  - exists initial, w1. split; [exact Hinit|exact Hitems].
Defined.

(** ** Recommendations *)

Ltac solve_sublist :=
  repeat first [ apply sublist_nil | apply sublist_skip | apply sublist_cons ].

(** X18.  Whenever [_generate_recommendations] returns, it has left the
    world as it was and its recommendations are, in this order, some of
    "encouragement", "engagement", "assessment" and "vr_training", each
    at most once; "encouragement" (progress below 30) and "assessment"
    (progress of 50 or more) never come together, so there are at most
    three. *)
Theorem recommendations_are_bounded
    (progress : dict) (w w' : ProgressTracker.world) (recs : list value) :
  ProgressTracker._generate_recommendations progress w = (Ret recs, w') ->
  let types := omap ProgressTracker.recommendation_type recs in
  w' = w
  /\ length types = length recs
  /\ sublist types [lit "encouragement"; lit "engagement";
                    lit "assessment"; lit "vr_training"]
  /\ ~ (lit "encouragement" ∈ types /\ lit "assessment" ∈ types)
  /\ (length recs <= 3)%nat.
Proof.
  intros H types. subst types. revert H.
  unfold ProgressTracker._generate_recommendations, bind, lift, lt_int, ge_int.
  destruct (as_int (get progress "overall_progress" (VInt 0))) as [c|];
    [|discriminate].
  destruct (as_int (get progress "learning_streak_days" (VInt 0))) as [s|];
    [|destruct (c <? 30); discriminate].
  destruct (Z.ltb_spec c 30) as [Hlow|Hlow];
    destruct (s <? 3);
    destruct (Z.leb_spec 50 c) as [Hhigh|Hhigh]; try lia;
    destruct (eq_int (get progress "assessments_completed" (VInt 0)) 0);
    destruct (eq_int (get progress "vr_experiences_completed" (VInt 0)) 0);
    intros H; inversion H; subst; clear H;
    (split; [reflexivity|]); (split; [reflexivity|]);
    (split; [vm_compute; solve_sublist|]);
    (split; [|cbn; lia]);
    intros [H1 H2]; apply list_elem_of_In in H1, H2;
    vm_compute in H1, H2; intuition discriminate.
Qed.

Lemma recommendations_are_bounded_witness :
  let recs :=
    [ProgressTracker.recommendation "encouragement"
       "Keep going! You are building great momentum."
       "Complete one more module today";
     ProgressTracker.recommendation "engagement"
       "Build your learning streak!" "Try to learn something every day";
     ProgressTracker.recommendation "vr_training"
       "Try our immersive VR training!" "Launch your first VR experience"] in
  let types := omap ProgressTracker.recommendation_type recs in
  Examples.empty_table = Examples.empty_table
  /\ length types = length recs
  /\ sublist types [lit "encouragement"; lit "engagement";
                    lit "assessment"; lit "vr_training"]
  /\ ~ (lit "encouragement" ∈ types /\ lit "assessment" ∈ types)
  /\ (length recs <= 3)%nat.
Proof.
  intros recs.
  apply (recommendations_are_bounded
           {[ "overall_progress" := VInt 0; "learning_streak_days" := VInt 0 ]}
           Examples.empty_table Examples.empty_table recs).
  reflexivity.
Defined.

(* ------------------------------------------------------------------ *)
(** * Further properties of the interview scheduler *)

(** ** What the two loops of [generate_preferred_times] add *)

Lemma slots_of_hours_spec (date d : Z) (duration : value) (hours : list (Z * Z)) :
  as_int duration = Some d ->
  forall acc,
    InterviewScheduler.slots_of_hours date duration hours acc
    = Ret (acc ++ InterviewScheduler.day_slots date d hours).
Proof.
  intros Hd. induction hours as [|[hour minute] rest IH]; intros acc.
  - simpl. by rewrite app_nil_r.
  - simpl. rewrite Hd. unfold InterviewScheduler.day_slots. simpl.
    destruct (17 <=? _).
    + apply IH.
    + rewrite IH. simpl. by rewrite <- app_assoc.
Qed.

Lemma slots_of_dates_spec (d : Z) (duration : value) (dates : list Z) :
  as_int duration = Some d ->
  forall acc,
    InterviewScheduler.slots_of_dates dates duration acc
    = Ret (acc ++ InterviewScheduler.dates_slots dates d).
Proof.
  intros Hd. induction dates as [|date rest IH]; intros acc.
  - simpl. by rewrite app_nil_r.
  - cbn [InterviewScheduler.slots_of_dates].
    unfold InterviewScheduler.dates_slots. cbn [fmap list_fmap concat].
    destruct (5 <=? InterviewScheduler.weekday date).
    + apply IH.
    + rewrite (slots_of_hours_spec date d) by done. rewrite IH.
      by rewrite <- app_assoc.
Qed.

Lemma slots_of_dates_weekend (duration : value) (dates : list Z) :
  Forall (fun date => 5 <= InterviewScheduler.weekday date) dates ->
  forall acc, InterviewScheduler.slots_of_dates dates duration acc = Ret acc.
Proof.
  induction 1 as [|date rest Hw _ IH]; intros acc; simpl; [done|].
  destruct (Z.leb_spec 5 (InterviewScheduler.weekday date)); [apply IH|lia].
Qed.

Lemma slots_of_dates_bad_duration (duration : value) (dates : list Z) :
  as_int duration = None ->
  forall acc slots,
    InterviewScheduler.slots_of_dates dates duration acc = Ret slots ->
    slots = acc.
Proof.
  intros Hd. induction dates as [|date rest IH]; intros acc slots; simpl.
  - by intros [= <-].
  - destruct (5 <=? InterviewScheduler.weekday date); [apply IH|].
    by rewrite Hd.
Qed.

Lemma elem_of_day_slots (date d : Z) (hours : list (Z * Z))
    (s : InterviewScheduler.time_slot) :
  s ∈ InterviewScheduler.day_slots date d hours ->
  exists hour minute,
    (hour, minute) ∈ hours
    /\ InterviewScheduler.start_time s
       = InterviewScheduler.at_time date hour minute
    /\ InterviewScheduler.end_time s = InterviewScheduler.start_time s + d
    /\ InterviewScheduler.hour_of (InterviewScheduler.end_time s) < 17.
Proof.
  unfold InterviewScheduler.day_slots. rewrite list_elem_of_omap.
  intros ([hour minute] & Hin & Hs). simpl in Hs.
  destruct (Z.leb_spec 17 (InterviewScheduler.hour_of
                             (InterviewScheduler.at_time date hour minute + d)));
    [discriminate|]. inversion Hs; subst s. simpl.
  exists hour, minute. by repeat split.
Qed.

Lemma elem_of_concat {A} (x : A) (ls : list (list A)) :
  x ∈ concat ls -> exists l, x ∈ l /\ l ∈ ls.
Proof.
  induction ls as [|l ls IH]; simpl.
  - intros H. by apply elem_of_nil in H.
  - rewrite elem_of_app. intros [H|H].
    + exists l. split; [done|apply list_elem_of_here].
    + destruct (IH H) as (l' & Hx & Hl). exists l'.
      split; [done|by apply list_elem_of_further].
Qed.

Lemma elem_of_dates_slots (dates : list Z) (d : Z)
    (s : InterviewScheduler.time_slot) :
  s ∈ InterviewScheduler.dates_slots dates d ->
  exists date,
    date ∈ dates /\ InterviewScheduler.weekday date < 5
    /\ s ∈ InterviewScheduler.day_slots date d
             InterviewScheduler.business_hours.
Proof.
  unfold InterviewScheduler.dates_slots. intros Hs.
  apply elem_of_concat in Hs as (block & Hs & Hblock).
  apply list_elem_of_fmap in Hblock
    as (date & -> & Hdate).
  destruct (Z.leb_spec 5 (InterviewScheduler.weekday date)).
  - by apply elem_of_nil in Hs.
  - by exists date.
Qed.

Lemma generate_preferred_times_spec (start_date d : Z) (meeting_config : dict) :
  as_int (get meeting_config "duration" (VInt 60)) = Some d ->
  InterviewScheduler.generate_preferred_times start_date meeting_config
  = Ret (InterviewScheduler.dates_slots
           ((fun i => InterviewScheduler.day_of start_date + i)
              <$> InterviewScheduler.target_offsets
                    (get meeting_config "timing" (VStr (lit "first_week"))))
           d).
Proof.
  intros Hd. unfold InterviewScheduler.generate_preferred_times.
  by rewrite (slots_of_dates_spec d).
Qed.

Lemma omap_length_le {A B} (f : A -> option B) (l : list A) :
  (length (omap f l) <= length l)%nat.
Proof.
  induction l as [|a l IH]; [done|].
  cbn [omap list_omap]. destruct (f a); simpl; lia.
Qed.

Lemma day_slots_length (date d : Z) (hours : list (Z * Z)) :
  (length (InterviewScheduler.day_slots date d hours) <= length hours)%nat.
Proof. apply omap_length_le. Qed.

Lemma dates_slots_length (dates : list Z) (d : Z) :
  (length (InterviewScheduler.dates_slots dates d) <= 6 * length dates)%nat.
Proof.
  unfold InterviewScheduler.dates_slots.
  induction dates as [|date rest IH]; [done|].
  cbn [fmap list_fmap concat length]. rewrite length_app.
  destruct (5 <=? InterviewScheduler.weekday date).
  - cbn [length]. lia.
  - pose proof (day_slots_length date d InterviewScheduler.business_hours) as H.
    change (length InterviewScheduler.business_hours) with 6%nat in H. lia.
Qed.

(** X19.  Every slot that [generate_preferred_times] proposes is sound:
    it lies on one of the days that the timing asks for, on a weekday
    (Monday to Friday), starts at 9, 10, 11, 13, 14 or 15 o'clock, lasts
    the duration of the meeting and ends at an hour before 17; there
    are at most six slots per day asked for. *)
Theorem generated_slots_are_valid
    (start_date : Z) (meeting_config : dict)
    (slots : list InterviewScheduler.time_slot) :
  let timing := get meeting_config "timing" (VStr (lit "first_week")) in
  let duration := get meeting_config "duration" (VInt 60) in
  InterviewScheduler.generate_preferred_times start_date meeting_config
  = Ret slots ->
  (length slots <= 6 * length (InterviewScheduler.target_offsets timing))%nat
  /\ forall s, s ∈ slots ->
       exists d offset hour,
         as_int duration = Some d
         /\ offset ∈ InterviewScheduler.target_offsets timing
         /\ hour ∈ [9; 10; 11; 13; 14; 15]
         /\ InterviewScheduler.start_time s
            = InterviewScheduler.at_time
                (InterviewScheduler.day_of start_date + offset) hour 0
         /\ InterviewScheduler.end_time s = InterviewScheduler.start_time s + d
         /\ InterviewScheduler.weekday
              (InterviewScheduler.day_of start_date + offset) < 5
         /\ InterviewScheduler.hour_of (InterviewScheduler.end_time s) < 17.
Proof.
  intros timing duration Hgen.
  destruct (as_int duration) as [d|] eqn:Hd.
  - rewrite (generate_preferred_times_spec start_date d) in Hgen by done.
    inversion Hgen; subst slots. fold timing. split.
    + etransitivity; [apply dates_slots_length|]. by rewrite length_fmap.
    + intros s Hs.
      apply elem_of_dates_slots in Hs as (date & Hdate & Hweek & Hs).
      apply list_elem_of_fmap in Hdate as (offset & -> & Hoff).
      apply elem_of_day_slots in Hs as (hour & minute & Hhm & Hstart & Hend & Hh).
      exists d, offset, hour. split; [done|]. split; [done|].
      unfold InterviewScheduler.business_hours in Hhm.
      rewrite !elem_of_cons, elem_of_nil in Hhm.
      rewrite !elem_of_cons, elem_of_nil.
      destruct Hhm as [H|[H|[H|[H|[H|[H|[]]]]]]]; inversion H; subst;
        (split; [tauto|done]).
  - unfold InterviewScheduler.generate_preferred_times in Hgen.
    apply slots_of_dates_bad_duration in Hgen; [|done]. subst slots.
    split; [simpl; lia|]. intros s Hs. by apply elem_of_nil in Hs.
Qed.

Lemma generated_slots_are_valid_witness :
  InterviewScheduler.hour_of
    (InterviewScheduler.end_time
       (InterviewScheduler.TimeSlot (Examples.monday + 540)
                                    (Examples.monday + 540 + 450)))
  < 17.
Proof.
  destruct (generated_slots_are_valid Examples.monday
              {[ "timing" := VStr (lit "first_day"); "duration" := VInt 450 ]}
              [InterviewScheduler.TimeSlot (Examples.monday + 540)
                 (Examples.monday + 540 + 450)])
    as [_ H].
  - vm_compute. reflexivity.
  - destruct (H _ (list_elem_of_here _ _))
      as (d & offset & hour & _ & _ & _ & _ & _ & _ & Hh).
    exact Hh.
Defined.

(** ** The order of the slots *)

Lemma day_slots_range (date d : Z) (s : InterviewScheduler.time_slot) :
  s ∈ InterviewScheduler.day_slots date d InterviewScheduler.business_hours ->
  date * 1440 <= InterviewScheduler.start_time s < (date + 1) * 1440.
Proof.
  intros Hs. apply elem_of_day_slots in Hs as (hour & minute & Hhm & -> & _).
  unfold InterviewScheduler.business_hours in Hhm.
  rewrite !elem_of_cons, elem_of_nil in Hhm.
  unfold InterviewScheduler.at_time.
  destruct Hhm as [H|[H|[H|[H|[H|[H|[]]]]]]]; inversion H; subst; lia.
Qed.

Lemma day_slots_sorted (date d : Z) (hours : list (Z * Z)) :
  StronglySorted (fun a b : Z * Z => a.1 * 60 + a.2 < b.1 * 60 + b.2) hours ->
  StronglySorted
    (fun a b => InterviewScheduler.start_time a < InterviewScheduler.start_time b)
    (InterviewScheduler.day_slots date d hours).
Proof.
  induction 1 as [|hm rest Hrest IH Hall].
  - constructor.
  - unfold InterviewScheduler.day_slots. simpl.
    destruct (17 <=? _); simpl; [exact IH|].
    constructor; [exact IH|].
    apply Forall_forall. intros s Hs.
    apply elem_of_day_slots in Hs as (hour & minute & Hin & -> & _).
    rewrite Forall_forall in Hall. specialize (Hall _ Hin). simpl in *.
    unfold InterviewScheduler.at_time. lia.
Qed.

Lemma dates_slots_sorted (dates : list Z) (d : Z) :
  StronglySorted Z.lt dates ->
  StronglySorted
    (fun a b => InterviewScheduler.start_time a < InterviewScheduler.start_time b)
    (InterviewScheduler.dates_slots dates d).
Proof.
  induction 1 as [|date rest Hrest IH Hall].
  - constructor.
  - unfold InterviewScheduler.dates_slots. cbn [fmap list_fmap concat].
    destruct (5 <=? InterviewScheduler.weekday date); [exact IH|].
    apply StronglySorted_app_2; [|apply day_slots_sorted|exact IH].
    + intros s1 s2 H1 H2. apply day_slots_range in H1.
      apply elem_of_dates_slots in H2 as (date2 & Hd2 & _ & H2).
      apply day_slots_range in H2.
      rewrite Forall_forall in Hall. specialize (Hall _ Hd2). lia.
    + unfold InterviewScheduler.business_hours.
      repeat (constructor; [|repeat constructor; simpl; lia]). constructor.
Qed.

Lemma target_dates_sorted (day : Z) (timing : value) :
  StronglySorted Z.lt
    ((fun i => day + i) <$> InterviewScheduler.target_offsets timing).
Proof.
  unfold InterviewScheduler.target_offsets.
  destruct (elem_is (lit "first_day") timing);
    [|destruct (elem_is (lit "first_week") timing);
      [|destruct (elem_is (lit "second_week") timing)]];
    cbn; repeat (constructor; [|repeat constructor; lia]); constructor.
Qed.

(** X20.  The slots of [generate_preferred_times] come in strictly
    increasing order of their start, so that the slot that
    [find_optimal_time_slot] picks from them is the earliest one. *)
Theorem earliest_generated_slot_is_chosen
    (start_date : Z) (meeting_config : dict)
    (slots : list InterviewScheduler.time_slot)
    (employee_id employee_email employee_name meeting_type : str)
    (duration_minutes : Z) (required_participants : list str)
    (w : InterviewScheduler.world) :
  InterviewScheduler.generate_preferred_times start_date meeting_config
  = Ret slots ->
  StronglySorted
    (fun a b => InterviewScheduler.start_time a < InterviewScheduler.start_time b)
    slots
  /\ match fst (InterviewScheduler.find_optimal_time_slot employee_id
                  employee_email employee_name meeting_type duration_minutes
                  slots required_participants w) with
     | Ret (Some chosen) =>
       forall s, s ∈ slots ->
         InterviewScheduler.start_time (InterviewScheduler.slot chosen)
         <= InterviewScheduler.start_time s
     | Ret None => slots = []
     | Raise _ => False
     end.
Proof.
  intros Hgen.
  assert (StronglySorted
            (fun a b => InterviewScheduler.start_time a
                        < InterviewScheduler.start_time b) slots) as Hsorted.
  { destruct (as_int (get meeting_config "duration" (VInt 60))) as [d|] eqn:Hd.
    - rewrite (generate_preferred_times_spec start_date d) in Hgen by done.
      inversion Hgen. apply dates_slots_sorted, target_dates_sorted.
    - unfold InterviewScheduler.generate_preferred_times in Hgen.
      apply slots_of_dates_bad_duration in Hgen; [|done]. subst. constructor. }
  split; [done|].
  destruct slots as [|first rest]; simpl; [done|].
  intros s Hs. apply elem_of_cons in Hs as [->|Hs]; [lia|].
  apply StronglySorted_cons in Hsorted as [Hall _].
  rewrite Forall_forall in Hall. specialize (Hall _ Hs). simpl in Hall. lia.
Qed.

Lemma earliest_generated_slot_is_chosen_witness :
  StronglySorted
    (fun a b => InterviewScheduler.start_time a < InterviewScheduler.start_time b)
    [InterviewScheduler.TimeSlot (Examples.monday + 540) (Examples.monday + 600);
     InterviewScheduler.TimeSlot (Examples.monday + 600) (Examples.monday + 660);
     InterviewScheduler.TimeSlot (Examples.monday + 660) (Examples.monday + 720);
     InterviewScheduler.TimeSlot (Examples.monday + 780) (Examples.monday + 840);
     InterviewScheduler.TimeSlot (Examples.monday + 840) (Examples.monday + 900);
     InterviewScheduler.TimeSlot (Examples.monday + 900) (Examples.monday + 960)].
Proof.
  apply (earliest_generated_slot_is_chosen Examples.monday
           {[ "timing" := VStr (lit "first_day") ]} _
           [] [] [] [] 60 [] (InterviewScheduler.World [] [])).
  vm_compute. reflexivity.
Defined.

(** ** Meetings that cannot be placed *)

(** X21.  A meeting for the first day cannot be placed when the
    employee starts on a Saturday or a Sunday: whatever its duration
    is (even one that is not a number), [generate_preferred_times]
    proposes no slot and [find_optimal_time_slot] answers [None]. *)
Theorem first_day_on_weekend_has_no_slot
    (start_date : Z) (meeting_config : dict)
    (employee_id employee_email employee_name meeting_type : str)
    (duration_minutes : Z) (required_participants : list str)
    (w : InterviewScheduler.world) :
  meeting_config !! "timing" = Some (VStr (lit "first_day")) ->
  5 <= InterviewScheduler.weekday (InterviewScheduler.day_of start_date) ->
  InterviewScheduler.generate_preferred_times start_date meeting_config = Ret []
  /\ fst (InterviewScheduler.find_optimal_time_slot employee_id employee_email
            employee_name meeting_type duration_minutes []
            required_participants w)
     = Ret None.
Proof.
  intros Htiming Hweekend. split; [|reflexivity].
  unfold InterviewScheduler.generate_preferred_times, get. rewrite Htiming.
  apply slots_of_dates_weekend. simpl. constructor; [|constructor].
  by rewrite Z.add_0_r.
Qed.

Lemma first_day_on_weekend_has_no_slot_witness :
  InterviewScheduler.generate_preferred_times Examples.saturday
    {[ "timing" := VStr (lit "first_day") ]} = Ret [].
Proof.
  apply (first_day_on_weekend_has_no_slot Examples.saturday
           {[ "timing" := VStr (lit "first_day") ]}
           [] [] [] [] 60 [] (InterviewScheduler.World [] [])).
  - reflexivity.
  - vm_compute. discriminate.
Defined.

Lemma hour_of_at_time (date hour d : Z) :
  0 <= hour * 60 + d < 1440 ->
  InterviewScheduler.hour_of (InterviewScheduler.at_time date hour 0 + d)
  = (hour * 60 + d) / 60.
Proof.
  intros H. unfold InterviewScheduler.hour_of, InterviewScheduler.at_time.
  replace (date * 1440 + hour * 60 + 0 + d)
    with (hour * 60 + d + date * 1440) by lia.
  rewrite Z_mod_plus_full. by rewrite Z.mod_small.
Qed.

Lemma day_slots_nonempty (date d : Z) :
  0 <= d < 480 ->
  InterviewScheduler.day_slots date d InterviewScheduler.business_hours <> [].
Proof.
  intros Hd. unfold InterviewScheduler.day_slots,
                    InterviewScheduler.business_hours.
  cbn [omap list_omap fst snd].
  rewrite (hour_of_at_time date 9 d) by lia.
  destruct (Z.leb_spec 17 ((9 * 60 + d) / 60)) as [H|H].
  - exfalso. assert ((9 * 60 + d) / 60 < 17); [|lia].
    apply Z.div_lt_upper_bound; lia.
  - discriminate.
Qed.

Lemma dates_slots_nil (dates : list Z) (d : Z) :
  0 <= d < 480 ->
  InterviewScheduler.dates_slots dates d = []
  <-> Forall (fun date => 5 <= InterviewScheduler.weekday date) dates.
Proof.
  intros Hd. unfold InterviewScheduler.dates_slots.
  induction dates as [|date rest IH]; cbn [fmap list_fmap concat].
  - split; [constructor|done].
  - destruct (Z.leb_spec 5 (InterviewScheduler.weekday date)) as [H|H].
    + rewrite app_nil_l, IH. split; [by constructor|by inversion 1].
    + split.
      * intros Happ. apply app_eq_nil in Happ as [Hday _].
        by apply day_slots_nonempty in Hday.
      * inversion 1; lia.
Qed.

Lemma five_days_have_a_weekday (day first : Z) :
  ~ Forall (fun date => 5 <= InterviewScheduler.weekday date)
      ((fun i => day + i) <$> seqZ first 5).
Proof.
  intros H. cbn in H.
  apply Forall_cons in H as [H0 H]. apply Forall_cons in H as [_ H].
  apply Forall_cons in H as [H2 _].
  unfold InterviewScheduler.weekday in H0, H2.
  pose proof (Z.mod_pos_bound (day + (0 + first) + 3) 7 ltac:(lia)).
  pose proof (Z.mod_pos_bound (day + (2 + first) + 3) 7 ltac:(lia)).
  pose proof (Z.div_mod (day + (0 + first) + 3) 7 ltac:(lia)).
  pose proof (Z.div_mod (day + (2 + first) + 3) 7 ltac:(lia)).
  lia.
Qed.

Lemma required_meeting_shape (lower : str -> str) (role department : str)
    (mc : dict) :
  mc ∈ InterviewScheduler.get_required_meetings lower role department ->
  exists (d : Z) (timing : string),
    mc !! "duration" = Some (VInt d) /\ 0 <= d < 480
    /\ mc !! "timing" = Some (VStr (lit timing))
    /\ timing ∈ ["first_day"; "first_week"; "second_week"].
Proof.
  unfold InterviewScheduler.get_required_meetings,
         InterviewScheduler.base_meetings.
  destruct (InterviewScheduler.any_keyword_in lower _ role);
    [|destruct (InterviewScheduler.any_keyword_in lower _ role);
      [|destruct (InterviewScheduler.any_keyword_in lower _ role)]];
    rewrite elem_of_app, !elem_of_cons, !elem_of_nil;
    intros H; decompose [or] H; try done; subst mc;
    eexists _, _;
    (split; [reflexivity|]); (split; [lia|]); (split; [reflexivity|]);
    rewrite !elem_of_cons; tauto.
Qed.

(** X22.  Every meeting that [get_required_meetings] asks for, for any
    role and department, can be given to [generate_preferred_times]
    without an error, and slots are found for it except in one case: a
    first-day meeting when the employee starts on a Saturday or a
    Sunday.  Meetings of the first or second week always get a slot. *)
Theorem required_meetings_can_be_placed
    (lower : str -> str) (role department : str) (start_date : Z)
    (mc : dict) :
  mc ∈ InterviewScheduler.get_required_meetings lower role department ->
  exists slots,
    InterviewScheduler.generate_preferred_times start_date mc = Ret slots
    /\ (slots = []
        <-> mc !! "timing" = Some (VStr (lit "first_day"))
            /\ 5 <= InterviewScheduler.weekday
                      (InterviewScheduler.day_of start_date)).
Proof.
  intros Hmc.
  destruct (required_meeting_shape lower role department mc Hmc)
    as (d & timing & Hd & Hrange & Ht & Htiming).
  rewrite (generate_preferred_times_spec start_date d)
    by (unfold get; by rewrite Hd).
  eexists. split; [reflexivity|].
  assert (get mc "timing" (VStr (lit "first_week")) = VStr (lit timing))
    as Hget by (unfold get; by rewrite Ht).
  rewrite dates_slots_nil by done. rewrite Hget, Ht.
  rewrite !elem_of_cons, elem_of_nil in Htiming.
  destruct Htiming as [->|[->|[->|[]]]].
  - change (InterviewScheduler.target_offsets (VStr (lit "first_day")))
      with [0]. cbn [fmap list_fmap].
    rewrite Forall_singleton, Z.add_0_r. tauto.
  - change (InterviewScheduler.target_offsets (VStr (lit "first_week")))
      with (seqZ 0 5).
    split.
    + intros H. by apply five_days_have_a_weekday in H.
    + intros [H _]. discriminate H.
  - change (InterviewScheduler.target_offsets (VStr (lit "second_week")))
      with (seqZ 7 5).
    split.
    + intros H. by apply five_days_have_a_weekday in H.
    + intros [H _]. discriminate H.
Qed.

Lemma required_meetings_can_be_placed_witness :
  exists slots,
    InterviewScheduler.generate_preferred_times Examples.saturday
      (InterviewScheduler.meeting "hr_orientation" "HR Orientation Session" 90
         "first_week" ["hr_representative"] "high"
         "Company policies, benefits, and compliance")
    = Ret slots
    /\ slots <> [].
Proof.
  destruct (required_meetings_can_be_placed Examples.ascii_lower
              (lit "Sales Engineer") (lit "Field") Examples.saturday
              (InterviewScheduler.meeting "hr_orientation"
                 "HR Orientation Session" 90 "first_week"
                 ["hr_representative"] "high"
                 "Company policies, benefits, and compliance"))
    as (slots & Hgen & Hnil).
  - unfold InterviewScheduler.get_required_meetings,
           InterviewScheduler.base_meetings.
    apply elem_of_app. left. apply list_elem_of_further, list_elem_of_here.
  - exists slots. split; [exact Hgen|].
    intros H. apply Hnil in H as [H _]. discriminate H.
Defined.

(* ------------------------------------------------------------------ *)
(** * Speech to text *)

Section Transcription.

Import Transcribe.

Lemma count_app (p : effect -> bool) (t1 t2 : list effect) :
  count p (t1 ++ t2) = (count p t1 + count p t2)%nat.
Proof. unfold count. rewrite filter_app, length_app. reflexivity. Qed.

Lemma polling_S (job_name : str) (k : nat) :
  polling job_name (S k) = [Polled job_name; Slept 5] ++ polling job_name k.
Proof. reflexivity. Qed.

(** A status request is the only effect of the loop that counts as a
    status request. *)
Lemma polls_round (t : list effect) (job_name : str) :
  count is_polled (t ++ [Polled job_name; Slept 5]) = S (count is_polled t).
Proof.
  rewrite count_app.
  change (count is_polled [Polled job_name; Slept 5]) with 1%nat. lia.
Qed.

Section Polling.

Variable svc : services.
Variable transcribe : M world unit.
Variable held : list string -> Prop.
Hypothesis transcribe_held :
  forall cs t, held cs -> transcribe (World cs t) = (Ret tt, World cs t).

(** [k] rounds that find the job unfinished: each requests the status
    and sleeps five seconds, and the loop goes on. *)
Lemma poll_pending (job_name : str) (k : nat) :
  forall rounds cs t,
    held cs ->
    (forall i, (i < k)%nat -> pending svc job_name (count is_polled t + i)) ->
    poll_until_finished svc transcribe (k + rounds) job_name (World cs t)
    = poll_until_finished svc transcribe rounds job_name
        (World cs (t ++ polling job_name k)).
Proof.
  induction k as [|k IH]; intros rounds cs t Hcs Hpending.
  - cbn [Nat.add polling replicate concat]. rewrite app_nil_r. reflexivity.
  - destruct (Hpending 0%nat ltac:(lia)) as (status & Hanswer & Hfin).
    rewrite Nat.add_0_r in Hanswer.
    cbn [Nat.add poll_until_finished]. unfold bind at 1.
    rewrite (transcribe_held _ _ Hcs).
    unfold bind at 1, get_transcription_job, polls, record.
    cbn [trace clients]. rewrite Hanswer, Hfin.
    unfold bind at 1, sleep, record. cbn [trace clients Z.ltb Z.compare].
    rewrite <- app_assoc. cbn [app].
    rewrite IH; [|assumption|].
    + rewrite polling_S, <- app_assoc. reflexivity.
    + intros i Hi. rewrite polls_round.
      replace (S (count is_polled t) + i)%nat
        with (count is_polled t + S i)%nat by lia.
      apply Hpending. lia.
Qed.

(** The loop leaves at the first finished status, with what the service
    said. *)
Lemma poll_finishes (job_name : str) (k rounds : nat) (status : job)
    (cs : list string) (t : list effect) :
  held cs ->
  (forall i, (i < k)%nat -> pending svc job_name (count is_polled t + i)) ->
  job_answer svc (count is_polled t + k) job_name = Ret status ->
  finished status = true ->
  (k < rounds)%nat ->
  poll_until_finished svc transcribe rounds job_name (World cs t)
  = (Ret (Returned status),
     World cs (t ++ polling job_name k ++ [Polled job_name])).
Proof.
  intros Hcs Hpending Hanswer Hfin Hlt.
  replace rounds with (k + S (rounds - S k))%nat by lia.
  rewrite poll_pending by assumption.
  cbn [poll_until_finished]. unfold bind at 1.
  rewrite (transcribe_held _ _ Hcs).
  unfold bind at 1, get_transcription_job, polls, record. cbn [trace clients].
  assert (Hcount : count is_polled (t ++ polling job_name k)
                   = (count is_polled t + k)%nat).
  { clear. induction k as [|k IH].
    - cbn [polling replicate concat]. rewrite app_nil_r. lia.
    - rewrite count_app in IH. rewrite polling_S, !count_app.
      change (count is_polled [Polled job_name; Slept 5]) with 1%nat. lia. }
  rewrite Hcount, Hanswer, Hfin. unfold ret.
  rewrite <- app_assoc. reflexivity.
Qed.

(** While the job stays unfinished the loop uses every round it is
    given. *)
Lemma poll_forever (job_name : str) (rounds : nat)
    (cs : list string) (t : list effect) :
  held cs ->
  (forall i, pending svc job_name (count is_polled t + i)) ->
  poll_until_finished svc transcribe rounds job_name (World cs t)
  = (Ret StillPolling, World cs (t ++ polling job_name rounds)).
Proof.
  intros Hcs Hpending.
  replace rounds with (rounds + 0)%nat at 1 by lia.
  rewrite poll_pending; [reflexivity|assumption|].
  intros i _. apply Hpending.
Qed.

End Polling.

(** The local variable [transcribe] of [speech_to_text] is a client
    whatever the helper holds. *)
Lemma local_client (cs : list string) (t : list effect) :
  True -> @ret world unit tt (World cs t) = (Ret tt, World cs t).
Proof. reflexivity. Qed.

(** The property [self.transcribe] gives the client it holds. *)
Lemma held_client (svc : services) (cs : list string) (t : list effect) :
  "transcribe" ∈ cs ->
  client svc "transcribe" (World cs t) = (Ret tt, World cs t).
Proof.
  intros Hcs. unfold client. cbn [clients].
  rewrite bool_decide_eq_true_2 by assumption. reflexivity.
Qed.

(** What [speech_to_text] does before its loop, when the four calls
    succeed. *)
Lemma speech_to_text_starts (svc : services) (rounds : nat)
    (fresh file_path : str) (w : world) :
  client_answer svc "transcribe" = Ret tt ->
  client_answer svc "s3" = Ret tt ->
  upload_answer svc file_path S3_BUCKET file_path = Ret tt ->
  start_answer svc (lit "transcription-" ++ fresh)
    (VStr (lit "s3://storevoice/" ++ file_path)) = Ret tt ->
  speech_to_text svc rounds fresh file_path w
  = (waited <- poll_until_finished svc (ret tt) rounds
                 (lit "transcription-" ++ fresh) ;;
     match waited with
     | StillPolling => ret StillPolling
     | Returned status =>
       if completed status then
         transcript <- read_transcript svc status ;;
         ret (Returned (Some transcript))
       else ret (Returned None)
     end)
      (World (clients w)
         (trace w ++ [Connected "transcribe"; Connected "s3";
                      Uploaded file_path S3_BUCKET file_path;
                      Started (lit "transcription-" ++ fresh)
                        (VStr (lit "s3://storevoice/" ++ file_path))])).
Proof.
  intros Htr Hs3 Hup Hstart.
  unfold speech_to_text.
  unfold bind at 1, boto3_client. rewrite Htr.
  unfold bind at 1. rewrite Hs3.
  unfold bind at 1, upload_file. rewrite Hup.
  unfold bind at 1, start_transcription_job.
  change (lit "s3://" ++ S3_BUCKET ++ lit "/" ++ file_path)
    with (lit "s3://storevoice/" ++ file_path).
  rewrite Hstart.
  unfold record. cbn [clients trace]. rewrite <- !app_assoc. reflexivity.
Qed.

(** *** [AWSHelper]: the upload and what follows it *)

Lemma item_upload_success (bucket s3_key : str) :
  item (upload_success bucket s3_key) "success" = Ret (VBool true).
Proof. reflexivity. Qed.

Lemma item_upload_url (bucket s3_key : str) :
  item (upload_success bucket s3_key) "url"
  = Ret (VStr (lit "s3://" ++ bucket ++ lit "/" ++ s3_key)).
Proof. reflexivity. Qed.

Lemma item_failure (e : exn) :
  item (failure e) "success" = Ret (VBool false).
Proof. reflexivity. Qed.

(** A property constructs the client the helper does not hold yet, and
    holds it from then on. *)
Lemma client_new (svc : services) (service : string)
    (cs : list string) (t : list effect) :
  service ∉ cs ->
  client_answer svc service = Ret tt ->
  client svc service (World cs t)
  = (Ret tt, World (service :: cs) (t ++ [Connected service])).
Proof.
  intros Hcs Hanswer. unfold client, boto3_client, record. cbn [clients trace].
  rewrite bool_decide_eq_false_2 by assumption. rewrite Hanswer. reflexivity.
Qed.

Lemma try_except_bind {S A B : Type} (m : M S A) (k : A -> M S B)
    (h : exn -> M S B) (s s' : S) (a : A) :
  m s = (Ret a, s') ->
  try_except (bind m k) h s = try_except (k a) h s'.
Proof. intros Hm. unfold try_except, bind. rewrite Hm. reflexivity. Qed.

Lemma upload_to_s3_uploads (svc : services) (file_path s3_key : str)
    (bucket : option str) (cs : list string) (t : list effect) :
  "s3" ∉ cs ->
  client_answer svc "s3" = Ret tt ->
  upload_answer svc file_path (or_str bucket S3_BUCKET) s3_key = Ret tt ->
  upload_to_s3 svc file_path s3_key bucket (World cs t)
  = (Ret (upload_success (or_str bucket S3_BUCKET) s3_key),
     World ("s3" :: cs)
       (t ++ [Connected "s3";
              Uploaded file_path (or_str bucket S3_BUCKET) s3_key])).
Proof.
  intros Hcs Hs3 Hup. unfold upload_to_s3.
  erewrite try_except_bind by (apply client_new; assumption).
  unfold try_except, bind, upload_file, record, ret. cbn [clients trace].
  rewrite Hup, <- app_assoc. reflexivity.
Qed.

(** What [transcribe_audio] does before its loop, when a helper without
    clients gets its four calls through. *)
Lemma transcribe_audio_starts (svc : services) (rounds : nat)
    (fresh audio_file_path : str) (job_name : option str) (w : world) :
  "s3" ∉ clients w ->
  "transcribe" ∉ clients w ->
  client_answer svc "s3" = Ret tt ->
  upload_answer svc audio_file_path S3_BUCKET
    (audio_key (audio_job job_name fresh)) = Ret tt ->
  client_answer svc "transcribe" = Ret tt ->
  start_answer svc (audio_job job_name fresh)
    (audio_uri (audio_job job_name fresh)) = Ret tt ->
  transcribe_audio svc rounds fresh audio_file_path job_name w
  = try_except
      (waited <- poll_until_finished svc (client svc "transcribe") rounds
                   (audio_job job_name fresh) ;;
       match waited with
       | StillPolling => ret StillPolling
       | Returned status =>
         if completed status then
           transcript_text <- read_transcript svc status ;;
           ret (Returned (transcript_result transcript_text
                            (audio_job job_name fresh)))
         else ret (Returned transcription_failed)
       end)
      (fun e => ret (Returned (failure e)))
      (World ("transcribe" :: "s3" :: clients w)
         (trace w ++ [Connected "s3";
                      Uploaded audio_file_path S3_BUCKET
                        (audio_key (audio_job job_name fresh));
                      Connected "transcribe";
                      Started (audio_job job_name fresh)
                        (audio_uri (audio_job job_name fresh))])).
Proof.
  intros Hs3 Htr Hcs3 Hup Hctr Hstart. destruct w as [cs t].
  cbn [clients trace] in *.
  unfold transcribe_audio. cbv zeta.
  fold (audio_job job_name fresh). fold (audio_key (audio_job job_name fresh)).
  unfold bind at 1.
  rewrite upload_to_s3_uploads by assumption.
  cbn [or_str].
  unfold bind at 1, lift. rewrite item_upload_success. cbn [truthy negb].
  erewrite try_except_bind.
  2:{ apply client_new; [|assumption].
      rewrite not_elem_of_cons. split; [discriminate|assumption]. }
  erewrite try_except_bind by (rewrite item_upload_url; reflexivity).
  erewrite try_except_bind.
  2:{ unfold start_transcription_job.
      change (VStr (lit "s3://" ++ S3_BUCKET ++ lit "/"
                    ++ audio_key (audio_job job_name fresh)))
        with (audio_uri (audio_job job_name fresh)).
      rewrite Hstart. reflexivity. }
  unfold record. cbn [clients trace]. rewrite <- !app_assoc. reflexivity.
Qed.

(** A computation whose continuation returns what [Q] accepts, or
    raises, does so itself. *)
Lemma bind_post {S A B : Type} (m : M S A) (k : A -> M S B)
    (Q : B -> Prop) (s : S) :
  (forall a s', match (k a s').1 with Ret b => Q b | Raise _ => True end) ->
  match (bind m k s).1 with Ret b => Q b | Raise _ => True end.
Proof.
  intros Hk. unfold bind. destruct (m s) as [[a|e] s']; [apply Hk|exact I].
Qed.

Lemma result_ok_failure (e : exn) : result_ok (failure e).
Proof. right. split; [reflexivity|]. exists (exn_msg e). reflexivity. Qed.

(** The effects of an upload are no job started and no status
    requested. *)
Ltac count_tail :=
  cbn [trace]; rewrite ?count_app;
  repeat match goal with
         | |- context [count ?p [?e]] => change (count p [e]) with 0%nat
         end;
  lia.

(** [upload_to_s3] returns one of its two dictionaries. *)
Lemma upload_to_s3_returns (svc : services) (file_path s3_key : str)
    (bucket : option str) (w : world) :
  exists w',
    upload_to_s3 svc file_path s3_key bucket w
    = (Ret (upload_success (or_str bucket S3_BUCKET) s3_key), w')
    \/ exists e,
         upload_to_s3 svc file_path s3_key bucket w = (Ret (failure e), w')
         /\ count is_started (trace w') = count is_started (trace w)
         /\ polls w' = polls w.
Proof.
  unfold upload_to_s3, try_except, bind, client, boto3_client, upload_file,
    record, ret, polls.
  destruct (bool_decide ("s3" ∈ clients w)).
  - destruct (upload_answer svc file_path _ s3_key) as [[]|e];
      eexists; [left; reflexivity|right].
    exists e. split; [reflexivity|]. split; count_tail.
  - destruct (client_answer svc "s3") as [[]|e'].
    + cbn [clients trace].
      destruct (upload_answer svc file_path _ s3_key) as [[]|e];
        eexists; [left; reflexivity|right].
      exists e. split; [reflexivity|]. split; count_tail.
    + eexists. right. exists e'. split; [reflexivity|]. split; count_tail.
Qed.

Lemma try_except_post {S A : Type} (m : M S A) (h : exn -> M S A)
    (Q : A -> Prop) (s : S) :
  match (m s).1 with Ret a => Q a | Raise _ => True end ->
  (forall e s', exists a s'', h e s' = (Ret a, s'') /\ Q a) ->
  exists a s', try_except m h s = (Ret a, s') /\ Q a.
Proof.
  intros Hm Hh. unfold try_except.
  destruct (m s) as [[a|e] s']; [|apply Hh].
  exists a, s'. split; [reflexivity|exact Hm].
Qed.

(** An upload that raises gives the failure dictionary. *)
Lemma upload_to_s3_fails (svc : services) (file_path s3_key : str)
    (e : exn) (w : world) :
  upload_answer svc file_path S3_BUCKET s3_key = Raise e ->
  exists e' w',
    upload_to_s3 svc file_path s3_key None w = (Ret (failure e'), w')
    /\ count is_started (trace w') = count is_started (trace w)
    /\ polls w' = polls w
    /\ (client_answer svc "s3" = Ret tt -> e' = e).
Proof.
  intros Hup.
  unfold upload_to_s3, try_except, bind, client, boto3_client, upload_file,
    record, ret, polls.
  cbn [or_str].
  destruct (bool_decide ("s3" ∈ clients w)).
  - rewrite Hup. exists e. eexists. split; [reflexivity|].
    split; [count_tail|]. split; [count_tail|]. reflexivity.
  - destruct (client_answer svc "s3") as [[]|e2].
    + cbn [clients trace]. rewrite Hup.
      exists e. eexists. split; [reflexivity|].
      split; [count_tail|]. split; [count_tail|]. reflexivity.
    + exists e2. eexists. split; [reflexivity|].
      split; [count_tail|]. split; [count_tail|]. discriminate.
Qed.

(** *** [AWSHelper]: how often a client is constructed *)

Lemma connections_record (service : string) (e : effect) (w : world) :
  connections service (record e w)
  = (connections service w + if is_connected service e then 1 else 0)%nat.
Proof.
  unfold connections, record. cbn [trace]. rewrite count_app.
  unfold count. cbn [filter list_filter].
  destruct (is_connected service e); reflexivity.
Qed.

Lemma quiet_ret {A : Type} (service : string) (a : A) :
  quiet service (ret a).
Proof. intros w _. split; reflexivity. Qed.

Lemma quiet_lift {A : Type} (service : string) (o : outcome A) :
  quiet service (lift o).
Proof. intros w _. split; reflexivity. Qed.

Lemma quiet_bind {A B : Type} (service : string) (m : M world A)
    (k : A -> M world B) :
  quiet service m -> (forall a, quiet service (k a)) ->
  quiet service (bind m k).
Proof.
  intros Hm Hk w Hw. unfold bind. specialize (Hm w Hw).
  destruct (m w) as [[a|e] w1]; cbn [snd] in *; [|exact Hm].
  destruct Hm as [Hc Ht].
  destruct (Hk a w1) as [Hc' Ht']; [rewrite Hc; exact Hw|].
  split; congruence.
Qed.

(** A call that is recorded as an effect other than a construction. *)
Lemma quiet_call {A : Type} (service : string) (answer : world -> outcome A)
    (e : effect) :
  is_connected service e = false ->
  quiet service (fun w => (answer w, record e w)).
Proof.
  intros He w _. cbn [snd]. split; [reflexivity|].
  rewrite connections_record, He. lia.
Qed.

Lemma quiet_sleep (svc : services) (service : string) (seconds : Z) :
  quiet service (sleep seconds).
Proof.
  intros w _. unfold sleep. destruct (seconds <? 0); cbn [snd].
  - split; reflexivity.
  - split; [reflexivity|]. rewrite connections_record. cbn. lia.
Qed.

Lemma quiet_client (svc : services) (service : string) :
  quiet service (client svc "transcribe").
Proof.
  intros [cs t] Hw. rewrite held_client by exact Hw. split; reflexivity.
Qed.

Lemma quiet_poll (svc : services) (service : string) (job_name : str)
    (rounds : nat) :
  quiet service
    (poll_until_finished svc (client svc "transcribe") rounds job_name).
Proof.
  induction rounds as [|rounds IH]; cbn [poll_until_finished].
  - apply quiet_ret.
  - apply quiet_bind; [apply quiet_client|]. intros _.
    apply quiet_bind.
    + unfold get_transcription_job.
      apply (quiet_call service (fun w => job_answer svc (polls w) job_name)).
      reflexivity.
    + intros status. destruct (finished status); [apply quiet_ret|].
      apply quiet_bind; [apply quiet_sleep; exact svc|]. intros _. exact IH.
Qed.

Lemma quiet_read_transcript (svc : services) (service : string)
    (status : job) :
  quiet service (read_transcript svc status).
Proof.
  unfold read_transcript. apply quiet_bind; [apply quiet_lift|].
  intros url.
  apply (quiet_call service (fun _ => transcript_answer svc url)).
  reflexivity.
Qed.

Lemma try_except_returns_world {A : Type} (m : M world A)
    (h : exn -> A) (w : world) :
  (try_except m (fun e => ret (h e)) w).2 = (m w).2.
Proof. unfold try_except, ret. destruct (m w) as [[a|e] w']; reflexivity. Qed.

(** The property [self.transcribe] followed by calls on the client,
    inside a [try] whose handler returns: the client is constructed
    exactly when the helper does not hold it. *)
Lemma guarded_client_connections {A : Type} (svc : services)
    (service : string) (rest : unit -> M world A) (h : exn -> A)
    (w : world) :
  (forall u, quiet service (rest u)) ->
  connections service
    (try_except (bind (client svc "transcribe") rest)
       (fun e => ret (h e)) w).2
  = (connections service w
     + if bool_decide ("transcribe" ∈ clients w) then 0
       else if bool_decide ("transcribe" = service) then 1 else 0)%nat.
Proof.
  intros Hrest. rewrite try_except_returns_world.
  unfold bind, client, boto3_client.
  case_bool_decide as Hheld.
  - destruct (Hrest tt w Hheld) as [_ ->]. lia.
  - destruct (client_answer svc "transcribe") as [[]|e]; cbn [snd].
    + destruct (Hrest tt (World ("transcribe" :: clients (record (Connected "transcribe") w))
                            (trace (record (Connected "transcribe") w))))
        as [_ ->]; [apply list_elem_of_here|].
      apply (connections_record service (Connected "transcribe") w).
    + apply connections_record.
Qed.

(** [upload_to_s3] constructs the S3 client exactly when the helper
    does not hold it, and no other client. *)
Lemma upload_to_s3_connections (svc : services) (service : string)
    (file_path s3_key : str) (bucket : option str) (w : world) :
  exists d w1,
    upload_to_s3 svc file_path s3_key bucket w = (Ret d, w1)
    /\ connections service w1
       = (connections service w
          + if bool_decide ("s3" ∈ clients w) then 0
            else if bool_decide ("s3" = service) then 1 else 0)%nat
    /\ ("transcribe" ∈ clients w1 <-> "transcribe" ∈ clients w)
    /\ ((exists e, d = failure e)
        \/ d = upload_success (or_str bucket S3_BUCKET) s3_key).
Proof.
  unfold upload_to_s3, try_except, bind, client, boto3_client, upload_file,
    ret.
  case_bool_decide as Hheld.
  - destruct (upload_answer svc file_path _ s3_key) as [[]|e];
      eexists _, _; (split; [reflexivity|]);
      rewrite connections_record; cbn [is_connected];
      (split; [lia|]); (split; [reflexivity|]);
      [right; reflexivity | left; exists e; reflexivity].
  - destruct (client_answer svc "s3") as [[]|e'].
    + destruct (upload_answer svc file_path _ s3_key) as [[]|e];
        eexists _, _; (split; [reflexivity|]);
        rewrite connections_record; cbn [is_connected];
        rewrite Nat.add_0_r;
        (split; [apply (connections_record service (Connected "s3") w)|]);
        (split; [cbn [clients record]; rewrite elem_of_cons;
                 split; [intros [[=]|H]; exact H | intros H; right; exact H]|]);
        [right; reflexivity | left; exists e; reflexivity].
    + eexists _, _. split; [reflexivity|].
      split; [apply connections_record|].
      split; [reflexivity|]. left. exists e'. reflexivity.
Qed.

(** What one call of [transcribe_audio] adds to the clients
    constructed of a service. *)
Lemma transcribe_audio_connections (svc : services) (rounds : nat)
    (fresh audio_file_path : str) (job_name : option str)
    (service : string) (w : world) :
  exists n,
    connections service
      (transcribe_audio svc rounds fresh audio_file_path job_name w).2
    = (connections service w + n)%nat
    /\ (n <= if bool_decide (service ∈ clients w) then 0 else 1)%nat.
Proof.
  unfold transcribe_audio. cbv zeta. unfold bind at 1.
  match goal with
  | |- context [upload_to_s3 svc ?fp ?key None w] =>
    destruct (upload_to_s3_connections svc service fp key None w)
      as (d & w1 & Hup & Hconn & Hback & Hd)
  end.
  rewrite Hup. destruct Hd as [(e & ->) | ->].
  - unfold bind at 1, lift. rewrite item_failure. cbn [truthy negb].
    unfold ret. cbn [snd]. rewrite Hconn.
    eexists. split; [reflexivity|].
    repeat case_bool_decide; subst; try lia; contradiction.
  - unfold bind at 1, lift. rewrite item_upload_success. cbn [truthy negb].
    rewrite (guarded_client_connections svc service _
               (fun e => Returned (failure e))).
    + rewrite Hconn, <- Nat.add_assoc. eexists. split; [reflexivity|].
      repeat case_bool_decide; subst; try lia; try discriminate;
        try contradiction.
      all: exfalso; tauto.
    + intros _. apply quiet_bind; [apply quiet_lift|]. intros url.
      apply quiet_bind.
      { unfold start_transcription_job.
        apply (quiet_call service (fun _ => start_answer svc _ url)).
        reflexivity. }
      intros _. apply quiet_bind; [apply quiet_poll|].
      intros [status|]; [|apply quiet_ret].
      destruct (completed status); [|apply quiet_ret].
      apply quiet_bind; [apply quiet_read_transcript|].
      intros text. apply quiet_ret.
Qed.

End Transcription.

(** X23.  [speech_to_text] of [voice_agent.py]: when the job is found
    unfinished [k] times and completed at the next status request, the
    function returns the transcript fetched from the address the job
    gives, after exactly [k] sleeps of five seconds: it constructs its
    two clients, uploads the file under its own path to [storevoice],
    starts the job [transcription-<uuid>] on [s3://storevoice/<path>],
    requests the status [k + 1] times and fetches once. *)
Theorem speech_to_text_completed (svc : Transcribe.services)
    (rounds k : nat) (fresh file_path url text : str)
    (w : Transcribe.world) :
  Transcribe.client_answer svc "transcribe" = Ret tt ->
  Transcribe.client_answer svc "s3" = Ret tt ->
  Transcribe.upload_answer svc file_path Transcribe.S3_BUCKET file_path
  = Ret tt ->
  Transcribe.start_answer svc (lit "transcription-" ++ fresh)
    (VStr (lit "s3://storevoice/" ++ file_path)) = Ret tt ->
  (forall i, (i < k)%nat ->
     Transcribe.pending svc (lit "transcription-" ++ fresh)
       (Transcribe.polls w + i)) ->
  Transcribe.job_answer svc (Transcribe.polls w + k)
    (lit "transcription-" ++ fresh)
  = Ret (Transcribe.Job (lit "COMPLETED") (Some url)) ->
  Transcribe.transcript_answer svc url = Ret text ->
  (k < rounds)%nat ->
  Transcribe.speech_to_text svc rounds fresh file_path w
  = (Ret (Transcribe.Returned (Some text)),
     Transcribe.World (Transcribe.clients w)
       (Transcribe.trace w
        ++ [Transcribe.Connected "transcribe"; Transcribe.Connected "s3";
            Transcribe.Uploaded file_path Transcribe.S3_BUCKET file_path;
            Transcribe.Started (lit "transcription-" ++ fresh)
              (VStr (lit "s3://storevoice/" ++ file_path))]
        ++ Transcribe.polling (lit "transcription-" ++ fresh) k
        ++ [Transcribe.Polled (lit "transcription-" ++ fresh);
            Transcribe.Fetched url])).
Proof.
  intros Htr Hs3 Hup Hstart Hpending Hanswer Htext Hlt.
  rewrite speech_to_text_starts by assumption.
  unfold bind at 1.
  rewrite (poll_finishes svc (ret tt) (fun _ => True) local_client
             _ k rounds (Transcribe.Job (lit "COMPLETED") (Some url)));
    [| exact I | | | reflexivity | assumption ].
  - change (Transcribe.completed (Transcribe.Job (lit "COMPLETED") (Some url)))
      with true.
    unfold Transcribe.read_transcript, bind, lift, ret, Transcribe.record.
    cbn [Transcribe.TranscriptFileUri Transcribe.clients Transcribe.trace].
    rewrite Htext. rewrite <- !app_assoc. reflexivity.
  - intros i Hi. rewrite count_app.
    change (Transcribe.count Transcribe.is_polled [_; _; _; _]) with 0%nat.
    rewrite Nat.add_0_r. apply Hpending, Hi.
  - rewrite count_app.
    change (Transcribe.count Transcribe.is_polled [_; _; _; _]) with 0%nat.
    rewrite Nat.add_0_r. exact Hanswer.
Qed.

Lemma speech_to_text_completed_witness :
  Transcribe.speech_to_text TranscribeExamples.transcriber 3
    (lit "7f") (lit "a.mp3") TranscribeExamples.new_helper
  = (Ret (Transcribe.Returned (Some (lit "hello"))),
     Transcribe.World []
       [Transcribe.Connected "transcribe"; Transcribe.Connected "s3";
        Transcribe.Uploaded (lit "a.mp3") (lit "storevoice") (lit "a.mp3");
        Transcribe.Started (lit "transcription-7f")
          (VStr (lit "s3://storevoice/a.mp3"));
        Transcribe.Polled (lit "transcription-7f"); Transcribe.Slept 5;
        Transcribe.Polled (lit "transcription-7f"); Transcribe.Slept 5;
        Transcribe.Polled (lit "transcription-7f");
        Transcribe.Fetched (lit "https://transcripts/1.json")]).
Proof.
  apply (speech_to_text_completed TranscribeExamples.transcriber 3 2
           (lit "7f") (lit "a.mp3") (lit "https://transcripts/1.json")
           (lit "hello") TranscribeExamples.new_helper);
    try reflexivity.
  - intros i Hi. destruct i as [|[|i]];
      [eexists; split; reflexivity | eexists; split; reflexivity | lia].
  - lia.
Defined.

(** X24.  [speech_to_text]: when the job is found unfinished [k] times
    and failed at the next status request, the function returns [None]
    and fetches nothing: its last effect is that status request. *)
Theorem speech_to_text_failed_job (svc : Transcribe.services)
    (rounds k : nat) (fresh file_path : str) (uri : option str)
    (w : Transcribe.world) :
  Transcribe.client_answer svc "transcribe" = Ret tt ->
  Transcribe.client_answer svc "s3" = Ret tt ->
  Transcribe.upload_answer svc file_path Transcribe.S3_BUCKET file_path
  = Ret tt ->
  Transcribe.start_answer svc (lit "transcription-" ++ fresh)
    (VStr (lit "s3://storevoice/" ++ file_path)) = Ret tt ->
  (forall i, (i < k)%nat ->
     Transcribe.pending svc (lit "transcription-" ++ fresh)
       (Transcribe.polls w + i)) ->
  Transcribe.job_answer svc (Transcribe.polls w + k)
    (lit "transcription-" ++ fresh)
  = Ret (Transcribe.Job (lit "FAILED") uri) ->
  (k < rounds)%nat ->
  Transcribe.speech_to_text svc rounds fresh file_path w
  = (Ret (Transcribe.Returned None),
     Transcribe.World (Transcribe.clients w)
       (Transcribe.trace w
        ++ [Transcribe.Connected "transcribe"; Transcribe.Connected "s3";
            Transcribe.Uploaded file_path Transcribe.S3_BUCKET file_path;
            Transcribe.Started (lit "transcription-" ++ fresh)
              (VStr (lit "s3://storevoice/" ++ file_path))]
        ++ Transcribe.polling (lit "transcription-" ++ fresh) k
        ++ [Transcribe.Polled (lit "transcription-" ++ fresh)])).
Proof.
  intros Htr Hs3 Hup Hstart Hpending Hanswer Hlt.
  rewrite speech_to_text_starts by assumption.
  unfold bind at 1.
  rewrite (poll_finishes svc (ret tt) (fun _ => True) local_client
             _ k rounds (Transcribe.Job (lit "FAILED") uri));
    [| exact I | | | reflexivity | assumption ].
  - change (Transcribe.completed (Transcribe.Job (lit "FAILED") uri))
      with false.
    unfold ret. rewrite <- !app_assoc. reflexivity.
  - intros i Hi. rewrite count_app.
    change (Transcribe.count Transcribe.is_polled [_; _; _; _]) with 0%nat.
    rewrite Nat.add_0_r. apply Hpending, Hi.
  - rewrite count_app.
    change (Transcribe.count Transcribe.is_polled [_; _; _; _]) with 0%nat.
    rewrite Nat.add_0_r. exact Hanswer.
Qed.

Lemma speech_to_text_failed_job_witness :
  Transcribe.speech_to_text TranscribeExamples.failing_transcriber 2
    (lit "7f") (lit "a.mp3") TranscribeExamples.new_helper
  = (Ret (Transcribe.Returned None),
     Transcribe.World []
       [Transcribe.Connected "transcribe"; Transcribe.Connected "s3";
        Transcribe.Uploaded (lit "a.mp3") (lit "storevoice") (lit "a.mp3");
        Transcribe.Started (lit "transcription-7f")
          (VStr (lit "s3://storevoice/a.mp3"));
        Transcribe.Polled (lit "transcription-7f"); Transcribe.Slept 5;
        Transcribe.Polled (lit "transcription-7f")]).
Proof.
  apply (speech_to_text_failed_job TranscribeExamples.failing_transcriber 2 1
           (lit "7f") (lit "a.mp3") None TranscribeExamples.new_helper);
    try reflexivity.
  - intros i Hi. destruct i as [|i]; [eexists; split; reflexivity | lia].
  - lia.
Defined.

(** X25.  [speech_to_text] has no timeout: while every status request
    finds the job unfinished, the loop uses up any number of rounds it is
    given, requesting the status and sleeping five seconds in each, and
    the function has not returned. *)
Theorem speech_to_text_has_no_timeout (svc : Transcribe.services)
    (rounds : nat) (fresh file_path : str) (w : Transcribe.world) :
  Transcribe.client_answer svc "transcribe" = Ret tt ->
  Transcribe.client_answer svc "s3" = Ret tt ->
  Transcribe.upload_answer svc file_path Transcribe.S3_BUCKET file_path
  = Ret tt ->
  Transcribe.start_answer svc (lit "transcription-" ++ fresh)
    (VStr (lit "s3://storevoice/" ++ file_path)) = Ret tt ->
  (forall i,
     Transcribe.pending svc (lit "transcription-" ++ fresh)
       (Transcribe.polls w + i)) ->
  Transcribe.speech_to_text svc rounds fresh file_path w
  = (Ret Transcribe.StillPolling,
     Transcribe.World (Transcribe.clients w)
       (Transcribe.trace w
        ++ [Transcribe.Connected "transcribe"; Transcribe.Connected "s3";
            Transcribe.Uploaded file_path Transcribe.S3_BUCKET file_path;
            Transcribe.Started (lit "transcription-" ++ fresh)
              (VStr (lit "s3://storevoice/" ++ file_path))]
        ++ Transcribe.polling (lit "transcription-" ++ fresh) rounds)).
Proof.
  intros Htr Hs3 Hup Hstart Hpending.
  rewrite speech_to_text_starts by assumption.
  unfold bind at 1.
  rewrite (poll_forever svc (ret tt) (fun _ => True) local_client);
    [| exact I |].
  - unfold ret. rewrite <- !app_assoc. reflexivity.
  - intros i. rewrite count_app.
    change (Transcribe.count Transcribe.is_polled [_; _; _; _]) with 0%nat.
    rewrite Nat.add_0_r. apply Hpending.
Qed.

Lemma speech_to_text_has_no_timeout_witness :
  Transcribe.speech_to_text TranscribeExamples.stuck_transcriber 3
    (lit "7f") (lit "a.mp3") TranscribeExamples.new_helper
  = (Ret Transcribe.StillPolling,
     Transcribe.World []
       [Transcribe.Connected "transcribe"; Transcribe.Connected "s3";
        Transcribe.Uploaded (lit "a.mp3") (lit "storevoice") (lit "a.mp3");
        Transcribe.Started (lit "transcription-7f")
          (VStr (lit "s3://storevoice/a.mp3"));
        Transcribe.Polled (lit "transcription-7f"); Transcribe.Slept 5;
        Transcribe.Polled (lit "transcription-7f"); Transcribe.Slept 5;
        Transcribe.Polled (lit "transcription-7f"); Transcribe.Slept 5]).
Proof.
  apply (speech_to_text_has_no_timeout TranscribeExamples.stuck_transcriber 3
           (lit "7f") (lit "a.mp3") TranscribeExamples.new_helper);
    try reflexivity.
  intros i. eexists; split; reflexivity.
Defined.

(** X26.  [AWSHelper.transcribe_audio] on a helper that holds no client
    yet: when the job is found unfinished [k] times and completed at the
    next status request, the result is the success dictionary with the
    fetched transcript and the job name; the file went to
    [transcriptions/<job>.mp3] in [storevoice]; and although the
    property [self.transcribe] is read [k + 2] times, each of the two
    clients was constructed once. *)
Theorem transcribe_audio_completed (svc : Transcribe.services)
    (rounds k : nat) (fresh audio_file_path job url text : str)
    (job_name : option str) (w : Transcribe.world) :
  Transcribe.audio_job job_name fresh = job ->
  "s3" ∉ Transcribe.clients w ->
  "transcribe" ∉ Transcribe.clients w ->
  Transcribe.client_answer svc "s3" = Ret tt ->
  Transcribe.upload_answer svc audio_file_path Transcribe.S3_BUCKET
    (Transcribe.audio_key job) = Ret tt ->
  Transcribe.client_answer svc "transcribe" = Ret tt ->
  Transcribe.start_answer svc job (Transcribe.audio_uri job) = Ret tt ->
  (forall i, (i < k)%nat ->
     Transcribe.pending svc job (Transcribe.polls w + i)) ->
  Transcribe.job_answer svc (Transcribe.polls w + k) job
  = Ret (Transcribe.Job (lit "COMPLETED") (Some url)) ->
  Transcribe.transcript_answer svc url = Ret text ->
  (k < rounds)%nat ->
  Transcribe.transcribe_audio svc rounds fresh audio_file_path job_name w
  = (Ret (Transcribe.Returned (Transcribe.transcript_result text job)),
     Transcribe.World ("transcribe" :: "s3" :: Transcribe.clients w)
       (Transcribe.trace w
        ++ [Transcribe.Connected "s3";
            Transcribe.Uploaded audio_file_path Transcribe.S3_BUCKET
              (Transcribe.audio_key job);
            Transcribe.Connected "transcribe";
            Transcribe.Started job (Transcribe.audio_uri job)]
        ++ Transcribe.polling job k
        ++ [Transcribe.Polled job; Transcribe.Fetched url])).
Proof.
  intros <- Hs3 Htr Hcs3 Hup Hctr Hstart Hpending Hanswer Htext Hlt.
  rewrite transcribe_audio_starts by assumption.
  unfold try_except, bind at 1.
  rewrite (poll_finishes svc (Transcribe.client svc "transcribe")
             (fun cs => "transcribe" ∈ cs) (held_client svc)
             _ k rounds (Transcribe.Job (lit "COMPLETED") (Some url)));
    [| apply list_elem_of_here | | | reflexivity | assumption ].
  - change (Transcribe.completed (Transcribe.Job (lit "COMPLETED") (Some url)))
      with true.
    unfold Transcribe.read_transcript, bind, lift, ret, Transcribe.record.
    cbn [Transcribe.TranscriptFileUri Transcribe.clients Transcribe.trace].
    rewrite Htext. rewrite <- !app_assoc. reflexivity.
  - intros i Hi. rewrite count_app.
    change (Transcribe.count Transcribe.is_polled [_; _; _; _]) with 0%nat.
    rewrite Nat.add_0_r. apply Hpending, Hi.
  - rewrite count_app.
    change (Transcribe.count Transcribe.is_polled [_; _; _; _]) with 0%nat.
    rewrite Nat.add_0_r. exact Hanswer.
Qed.

Lemma transcribe_audio_completed_witness :
  Transcribe.transcribe_audio TranscribeExamples.transcriber 3
    (lit "7f") (lit "a.mp3") None TranscribeExamples.new_helper
  = (Ret (Transcribe.Returned
            (Transcribe.transcript_result (lit "hello")
               (lit "transcription_7f"))),
     Transcribe.World ["transcribe"; "s3"]
       [Transcribe.Connected "s3";
        Transcribe.Uploaded (lit "a.mp3") (lit "storevoice")
          (lit "transcriptions/transcription_7f.mp3");
        Transcribe.Connected "transcribe";
        Transcribe.Started (lit "transcription_7f")
          (VStr (lit "s3://storevoice/transcriptions/transcription_7f.mp3"));
        Transcribe.Polled (lit "transcription_7f"); Transcribe.Slept 5;
        Transcribe.Polled (lit "transcription_7f"); Transcribe.Slept 5;
        Transcribe.Polled (lit "transcription_7f");
        Transcribe.Fetched (lit "https://transcripts/1.json")]).
Proof.
  apply (transcribe_audio_completed TranscribeExamples.transcriber 3 2
           (lit "7f") (lit "a.mp3") (lit "transcription_7f")
           (lit "https://transcripts/1.json") (lit "hello") None
           TranscribeExamples.new_helper);
    try reflexivity.
  - apply not_elem_of_nil.
  - apply not_elem_of_nil.
  - intros i Hi. destruct i as [|[|i]];
      [eexists; split; reflexivity | eexists; split; reflexivity | lia].
  - lia.
Defined.

(** X27.  [AWSHelper.transcribe_audio] never raises, whatever the
    services do: it returns a dictionary of one of two shapes, [success]
    true with a [transcript], or [success] false with an [error] text
    (or it is still polling when its rounds are used up). *)
Theorem transcribe_audio_never_raises (svc : Transcribe.services)
    (rounds : nat) (fresh audio_file_path : str) (job_name : option str)
    (w : Transcribe.world) :
  exists r w',
    Transcribe.transcribe_audio svc rounds fresh audio_file_path job_name w
    = (Ret r, w')
    /\ match r with
       | Transcribe.Returned d => Transcribe.result_ok d
       | Transcribe.StillPolling => True
       end.
Proof.
  unfold Transcribe.transcribe_audio. cbv zeta. unfold bind at 1.
  destruct (upload_to_s3_returns svc audio_file_path
              (lit "transcriptions/"
               ++ or_str job_name (lit "transcription_" ++ fresh)
               ++ lit ".mp3") None w)
    as (w1 & [Hup | (e & Hup & _)]); rewrite Hup.
  - unfold bind at 1, lift. rewrite item_upload_success.
    cbn [truthy negb].
    pose (Q := fun r : Transcribe.run dict =>
                 match r with
                 | Transcribe.Returned d => Transcribe.result_ok d
                 | Transcribe.StillPolling => True
                 end).
    apply (try_except_post _ _ Q).
    + apply (bind_post _ _ Q); intros _ s1.
      apply (bind_post _ _ Q); intros url s2.
      apply (bind_post _ _ Q); intros _ s3.
      apply (bind_post _ _ Q); intros [status|] s4; [|exact I].
      destruct (Transcribe.completed status).
      * apply (bind_post _ _ Q); intros text s5.
        left. split; [reflexivity|]. exists text. reflexivity.
      * right. split; [reflexivity|]. eexists. reflexivity.
    + intros e s'. eexists _, _. split; [reflexivity|].
      apply result_ok_failure.
  - unfold bind at 1, lift. rewrite item_failure. cbn [truthy negb].
    eexists _, _. split; [reflexivity|]. apply result_ok_failure.
Qed.

(** X28.  [AWSHelper.transcribe_audio]: when the upload fails, the
    function returns the failure dictionary of [upload_to_s3] and goes
    no further: no job is started and no status is requested.  The error
    text is the one of the upload when the S3 client is there. *)
Theorem transcribe_audio_upload_failure (svc : Transcribe.services)
    (rounds : nat) (fresh audio_file_path : str) (job_name : option str)
    (e : exn) (w : Transcribe.world) :
  Transcribe.upload_answer svc audio_file_path Transcribe.S3_BUCKET
    (Transcribe.audio_key (Transcribe.audio_job job_name fresh)) = Raise e ->
  exists e' w',
    Transcribe.transcribe_audio svc rounds fresh audio_file_path job_name w
    = (Ret (Transcribe.Returned (Transcribe.failure e')), w')
    /\ Transcribe.count Transcribe.is_started (Transcribe.trace w')
       = Transcribe.count Transcribe.is_started (Transcribe.trace w)
    /\ Transcribe.polls w' = Transcribe.polls w
    /\ (Transcribe.client_answer svc "s3" = Ret tt -> e' = e).
Proof.
  intros Hup.
  unfold Transcribe.transcribe_audio. cbv zeta.
  fold (Transcribe.audio_job job_name fresh).
  fold (Transcribe.audio_key (Transcribe.audio_job job_name fresh)).
  unfold bind at 1.
  destruct (upload_to_s3_fails svc _ _ e w Hup) as (e' & w' & Hfail & Hrest).
  rewrite Hfail. unfold bind at 1, lift. rewrite item_failure.
  cbn [truthy negb]. exists e', w'. split; [reflexivity|exact Hrest].
Qed.

Lemma transcribe_audio_upload_failure_witness :
  exists e' w',
    Transcribe.transcribe_audio TranscribeExamples.closed_bucket 3
      (lit "7f") (lit "a.mp3") None TranscribeExamples.new_helper
    = (Ret (Transcribe.Returned (Transcribe.failure e')), w')
    /\ Transcribe.count Transcribe.is_started (Transcribe.trace w')
       = Transcribe.count Transcribe.is_started
           (Transcribe.trace TranscribeExamples.new_helper)
    /\ Transcribe.polls w' = Transcribe.polls TranscribeExamples.new_helper
    /\ (Transcribe.client_answer TranscribeExamples.closed_bucket "s3" = Ret tt
        -> e' = TranscribeExamples.access_denied).
Proof.
  apply (transcribe_audio_upload_failure TranscribeExamples.closed_bucket 3
           (lit "7f") (lit "a.mp3") None TranscribeExamples.access_denied
           TranscribeExamples.new_helper).
  reflexivity.
Defined.

(** X29.  [AWSHelper.transcribe_audio] has no timeout either: while
    every status request finds the job unfinished, the loop uses up any
    number of rounds, and the [try] block around it makes no
    difference. *)
Theorem transcribe_audio_has_no_timeout (svc : Transcribe.services)
    (rounds : nat) (fresh audio_file_path job : str)
    (job_name : option str) (w : Transcribe.world) :
  Transcribe.audio_job job_name fresh = job ->
  "s3" ∉ Transcribe.clients w ->
  "transcribe" ∉ Transcribe.clients w ->
  Transcribe.client_answer svc "s3" = Ret tt ->
  Transcribe.upload_answer svc audio_file_path Transcribe.S3_BUCKET
    (Transcribe.audio_key job) = Ret tt ->
  Transcribe.client_answer svc "transcribe" = Ret tt ->
  Transcribe.start_answer svc job (Transcribe.audio_uri job) = Ret tt ->
  (forall i, Transcribe.pending svc job (Transcribe.polls w + i)) ->
  Transcribe.transcribe_audio svc rounds fresh audio_file_path job_name w
  = (Ret Transcribe.StillPolling,
     Transcribe.World ("transcribe" :: "s3" :: Transcribe.clients w)
       (Transcribe.trace w
        ++ [Transcribe.Connected "s3";
            Transcribe.Uploaded audio_file_path Transcribe.S3_BUCKET
              (Transcribe.audio_key job);
            Transcribe.Connected "transcribe";
            Transcribe.Started job (Transcribe.audio_uri job)]
        ++ Transcribe.polling job rounds)).
Proof.
  intros <- Hs3 Htr Hcs3 Hup Hctr Hstart Hpending.
  rewrite transcribe_audio_starts by assumption.
  unfold try_except, bind at 1.
  rewrite (poll_forever svc (Transcribe.client svc "transcribe")
             (fun cs => "transcribe" ∈ cs) (held_client svc));
    [| apply list_elem_of_here |].
  - unfold ret. rewrite <- !app_assoc. reflexivity.
  - intros i. rewrite count_app.
    change (Transcribe.count Transcribe.is_polled [_; _; _; _]) with 0%nat.
    rewrite Nat.add_0_r. apply Hpending.
Qed.

Lemma transcribe_audio_has_no_timeout_witness :
  Transcribe.transcribe_audio TranscribeExamples.stuck_transcriber 2
    (lit "7f") (lit "a.mp3") (Some (lit "memo")) TranscribeExamples.new_helper
  = (Ret Transcribe.StillPolling,
     Transcribe.World ["transcribe"; "s3"]
       [Transcribe.Connected "s3";
        Transcribe.Uploaded (lit "a.mp3") (lit "storevoice")
          (lit "transcriptions/memo.mp3");
        Transcribe.Connected "transcribe";
        Transcribe.Started (lit "memo")
          (VStr (lit "s3://storevoice/transcriptions/memo.mp3"));
        Transcribe.Polled (lit "memo"); Transcribe.Slept 5;
        Transcribe.Polled (lit "memo"); Transcribe.Slept 5]).
Proof.
  apply (transcribe_audio_has_no_timeout TranscribeExamples.stuck_transcriber 2
           (lit "7f") (lit "a.mp3") (lit "memo") (Some (lit "memo"))
           TranscribeExamples.new_helper);
    try reflexivity.
  - apply not_elem_of_nil.
  - apply not_elem_of_nil.
  - intros i. eexists; split; reflexivity.
Defined.

(** X30.  The lazy clients of [AWSHelper]: whatever the services do and
    however long the job takes, one call of [transcribe_audio]
    constructs a client of a given service at most once, and not at all
    when the helper already holds it. *)
Theorem transcribe_audio_connects_once (svc : Transcribe.services)
    (rounds : nat) (fresh audio_file_path : str) (job_name : option str)
    (service : string) (w : Transcribe.world) :
  (Transcribe.connections service w
   <= Transcribe.connections service
        (Transcribe.transcribe_audio svc rounds fresh audio_file_path
           job_name w).2
   <= Transcribe.connections service w
      + if bool_decide (service ∈ Transcribe.clients w) then 0 else 1)%nat.
Proof.
  destruct (transcribe_audio_connections svc rounds fresh audio_file_path
              job_name service w) as (n & -> & Hn).
  lia.
Qed.
